(** * Data-preparation pipeline of the education dashboard (dashboard.py)

    The dashboard fetches a table from an open-data endpoint
    ([load_data_from_api]), cleans it (the block of [main] that derives the
    year column, drops rows with missing values and coerces columns to
    numbers), filters it by department and aggregates a metric per
    department.  This file embeds that pipeline together with the slice of
    the libraries it calls (pandas 2.x frames and conversions, the status
    check of requests), and states the properties of the specification on it.

    Conventions of the embedding:
    - a frame is a list of named, typed columns plus its row labels;
    - a 64-bit float is the rational it denotes, in lowest terms; an
      operation on floats is the exact operation followed by rounding to the
      nearest float ([binary64]); infinities are left out;
    - a string is the UTF-8 encoding of the Python string;
    - a Python call that may raise returns an [outcome]; the messages of the
      exceptions are abridged;
    - objects shared through [st.session_state] live in a heap of frames;
    - the widgets that only render (tables, charts, the map, the download
      button) are left out. *)

From Stdlib Require Import ZArith QArith Qabs String Ascii List Bool Lia Lqa DecimalString Sorted.
From stdpp Require Import gmap strings.
Import ListNotations.

Local Open Scope string_scope.
Local Open Scope list_scope.
Local Open Scope Z_scope.

(** ** Exceptions and fallible calls *)

Inductive exception : Type :=
| ConnectionError (msg : string)
| Timeout (msg : string)
| HTTPError (msg : string)
| JSONDecodeError (msg : string)
| ValueError (msg : string)
| OutOfBoundsDatetime (msg : string)
| KeyError (key : string)
| TypeError (msg : string).

(** [isinstance(e, requests.exceptions.RequestException)]: the connection
    and status errors of requests, and its JSON decoding error. *)
Definition is_RequestException (e : exception) : bool :=
  match e with
  | ConnectionError _ | Timeout _ | HTTPError _ | JSONDecodeError _ => true
  | _ => false
  end.

(** [str(e)], as interpolated in the f-strings of the handlers. *)
Definition exc_str (e : exception) : string :=
  match e with
  | ConnectionError m | Timeout m | HTTPError m | JSONDecodeError m
  | ValueError m | OutOfBoundsDatetime m | TypeError m => m
  | KeyError k => "'" ++ k ++ "'"
  end.

Inductive outcome (A : Type) : Type :=
| Ok (a : A)
| Raise (e : exception).
Arguments Ok {A} a.
Arguments Raise {A} e.

Definition obind {A B} (m : outcome A) (f : A -> outcome B) : outcome B :=
  match m with
  | Ok a => f a
  | Raise e => Raise e
  end.

Notation "x <-! m ; k" := (obind m (fun x => k))
  (at level 100, m at next level, right associativity).

Fixpoint omap {A B} (f : A -> outcome B) (l : list A) : outcome (list B) :=
  match l with
  | [] => Ok []
  | x :: r => y <-! f x; ys <-! omap f r; Ok (y :: ys)
  end.

(** ** Cells, columns and frames *)

(** A value held in a frame.  [NaN] is the missing marker (None, NaN and
    NaT alike); [Timestamp] counts nanoseconds since 1970-01-01. *)
Inductive cell : Type :=
| NaN
| Str (s : string)
| Int (n : Z)
| Float (q : Q)
| Timestamp (ns : Z).

Inductive dtype : Type := object | int64 | float64 | datetime64.

(** A column.  An [object] column holds arbitrary cells; the three typed
    columns hold machine values, with [None] for NaN / NaT. *)
Inductive Series : Type :=
| ObjectSeries (l : list cell)
| Int64Series (l : list Z)
| Float64Series (l : list (option Q))
| DatetimeSeries (l : list (option Z)).

Definition dtype_of (s : Series) : dtype :=
  match s with
  | ObjectSeries _ => object
  | Int64Series _ => int64
  | Float64Series _ => float64
  | DatetimeSeries _ => datetime64
  end.

Definition float_cell (o : option Q) : cell :=
  match o with Some q => Float q | None => NaN end.

Definition datetime_cell (o : option Z) : cell :=
  match o with Some ns => Timestamp ns | None => NaN end.

(** The cells of a column, as element access returns them. *)
Definition values (s : Series) : list cell :=
  match s with
  | ObjectSeries l => l
  | Int64Series l => List.map Int l
  | Float64Series l => List.map float_cell l
  | DatetimeSeries l => List.map datetime_cell l
  end.

Record DataFrame : Type :=
  mkDataFrame { index : list nat; data : list (string * Series) }.

(** [pd.DataFrame()] *)
Definition empty_frame : DataFrame := mkDataFrame [] [].

(** [df.columns] *)
Definition columns (df : DataFrame) : list string := List.map fst (data df).

(** [len(df)] *)
Definition len (df : DataFrame) : nat := List.length (index df).

(** [df.empty]: some axis has length zero. *)
Definition empty (df : DataFrame) : bool :=
  (len df =? 0)%nat || (List.length (data df) =? 0)%nat.

(** [col in df.columns] *)
Definition has_column (col : string) (df : DataFrame) : bool :=
  existsb (String.eqb col) (columns df).

Fixpoint lookup_column (col : string) (cs : list (string * Series)) : option Series :=
  match cs with
  | [] => None
  | (c, s) :: r => if String.eqb col c then Some s else lookup_column col r
  end.

(** [df[col]] raises KeyError on an unknown label. *)
Definition getitem (df : DataFrame) (col : string) : outcome Series :=
  match lookup_column col (data df) with
  | Some s => Ok s
  | None => Raise (KeyError col)
  end.

Fixpoint assign_column (col : string) (s : Series) (cs : list (string * Series))
  : list (string * Series) :=
  match cs with
  | [] => [(col, s)]
  | (c, s0) :: r =>
      if String.eqb col c then (c, s) :: r else (c, s0) :: assign_column col s r
  end.

(** [df[col] = s]: replaces the column in place, or appends a new last
    column when the label is new. *)
Definition setitem (df : DataFrame) (col : string) (s : Series) : DataFrame :=
  mkDataFrame (index df) (assign_column col s (data df)).

(** A frame is well formed when its labels are distinct and every column
    has one value per row label. *)
Definition well_formed (df : DataFrame) : Prop :=
  List.NoDup (columns df) /\
  Forall (fun cs => List.length (values (snd cs)) = len df) (data df).

(** ** Missing values *)

Definition isna (c : cell) : bool :=
  match c with NaN => true | _ => false end.

Definition notna (c : cell) : bool := negb (isna c).

(** Keep the entries of [l] whose position is marked [true] in [m]
    (boolean indexing). *)
Fixpoint select {A} (m : list bool) (l : list A) : list A :=
  match m, l with
  | b :: m', x :: l' => if b then x :: select m' l' else select m' l'
  | _, _ => []
  end.

Definition select_series (m : list bool) (s : Series) : Series :=
  match s with
  | ObjectSeries l => ObjectSeries (select m l)
  | Int64Series l => Int64Series (select m l)
  | Float64Series l => Float64Series (select m l)
  | DatetimeSeries l => DatetimeSeries (select m l)
  end.

(** [df[mask]] *)
Definition select_rows (m : list bool) (df : DataFrame) : DataFrame :=
  mkDataFrame (select m (index df))
              (List.map (fun cs => (fst cs, select_series m (snd cs))) (data df)).

(** Row mask of [df.dropna()]: a row is kept when none of its cells is
    missing. *)
Fixpoint complete_rows (n : nat) (cs : list (string * Series)) : list bool :=
  match cs with
  | [] => repeat true n
  | (_, s) :: r =>
      List.map (fun p => notna (fst p) && snd p)
               (combine (values s) (complete_rows n r))
  end.

(** [df.dropna()] returns a new frame. *)
Definition dropna (df : DataFrame) : DataFrame :=
  select_rows (complete_rows (len df) (data df)) df.

(** ** Double precision

    A [float64] value is a rational [m * 2 ^ k] with [|m| <= 2 ^ 53] and
    [k >= -1074].  [binary64] rounds a rational to the nearest such value,
    ties to the even one (the default rounding of the machine), with gradual
    underflow; every arithmetic operation on floats is the exact operation
    followed by this rounding.  Magnitudes from [2 ^ 1024] on, which the
    machine turns into infinities, are outside the model. *)

(** The integer nearest to [num / den], ties to even; [num] is not
    negative. *)
Definition round_half_even (num : Z) (den : positive) : Z :=
  let q := num / Z.pos den in
  match 2 * (num mod Z.pos den) ?= Z.pos den with
  | Lt => q
  | Gt => q + 1
  | Eq => if Z.even q then q else q + 1
  end.

Definition binary64 (x : Q) : Q :=
  let a := Z.abs (Qnum x) in
  let d := Z.pos (Qden x) in
  if a =? 0 then 0%Q
  else
    let e0 := Z.log2 a - Z.log2 d in
    let e := if (if 0 <=? e0 then d * 2 ^ e0 <=? a else d <=? a * 2 ^ (- e0))
             then e0 else e0 - 1 in
    let k := Z.max (e - 52) (- 1074) in
    let v := if 0 <=? k
             then inject_Z (round_half_even a (Z.to_pos (d * 2 ^ k)) * 2 ^ k)
             else Qmake (round_half_even (a * 2 ^ (- k)) (Qden x))
                        (Z.to_pos (2 ^ (- k))) in
    Qred (if Qnum x <? 0 then - v else v)%Q.

Definition fadd (x y : Q) : Q := binary64 (x + y).
Definition fsub (x y : Q) : Q := binary64 (x - y).
Definition fdiv (x y : Q) : Q := binary64 (x / y).

(** ** Parsing years: [pd.to_datetime(s, format='%Y')] *)

(** A [string] holds the UTF-8 encoding of a Python [str]; [code_points]
    decodes it into its characters.  A byte sequence that encodes no [str]
    (a stray continuation byte, an overlong form, a surrogate) has no
    decoding. *)
Definition byte_value (a : ascii) : Z := Z.of_N (N_of_ascii a).

Definition continuation (a : ascii) : option Z :=
  let b := byte_value a in
  if (128 <=? b) && (b <? 192) then Some (b - 128) else None.

Definition scalar_value (lowest cp : Z) : bool :=
  (lowest <=? cp) && (cp <? 1114112) && negb ((55296 <=? cp) && (cp <? 57344)).

Fixpoint code_points (s : string) : option (list Z) :=
  match s with
  | EmptyString => Some []
  | String a r =>
      let b := byte_value a in
      if b <? 128 then option_map (cons b) (code_points r)
      else if b <? 224 then
        match r with
        | String a1 r1 =>
            match continuation a1 with
            | Some c1 =>
                let cp := (b - 192) * 64 + c1 in
                if scalar_value 128 cp then option_map (cons cp) (code_points r1)
                else None
            | None => None
            end
        | _ => None
        end
      else if b <? 240 then
        match r with
        | String a1 (String a2 r2) =>
            match continuation a1, continuation a2 with
            | Some c1, Some c2 =>
                let cp := (b - 224) * 4096 + c1 * 64 + c2 in
                if scalar_value 2048 cp then option_map (cons cp) (code_points r2)
                else None
            | _, _ => None
            end
        | _ => None
        end
      else
        match r with
        | String a1 (String a2 (String a3 r3)) =>
            match continuation a1, continuation a2, continuation a3 with
            | Some c1, Some c2, Some c3 =>
                let cp := (b - 240) * 262144 + c1 * 4096 + c2 * 64 + c3 in
                if scalar_value 65536 cp then option_map (cons cp) (code_points r3)
                else None
            | _, _, _ => None
            end
        | _ => None
        end
  end.

(** The decimal digits of Unicode (category Nd, version 14) come in runs
    of ten, from the digit zero of a script to its digit nine; these are the
    zeros.  They are the characters that [\d] matches in a pattern on [str]
    and that [int] reads. *)
Definition decimal_zeros : list Z :=
  [1632; 1776; 1984; 2406; 2534; 2662; 2790; 2918; 3046; 3174; 3302; 3430;
   3558; 3664; 3792; 3872; 4160; 4240; 6112; 6160; 6470; 6608; 6784; 6800;
   6992; 7088; 7232; 7248; 42528; 43216; 43264; 43472; 43504; 43600; 44016;
   65296; 66720; 68912; 69734; 69872; 69942; 70096; 70384; 70736; 70864;
   71248; 71360; 71472; 71904; 72016; 72784; 73040; 73120; 92768; 92864;
   93008; 120782; 120792; 120802; 120812; 120822; 123200; 123632; 125264;
   130032].

Definition decimal_digit (cp : Z) : option Z :=
  if cp <? 128 then
    if (48 <=? cp) && (cp <=? 57) then Some (cp - 48) else None
  else
    option_map (fun zero => cp - zero)
               (List.find (fun zero => (zero <=? cp) && (cp <? zero + 10)) decimal_zeros).

(** A digit of the ASCII range, as the number parser reads it. *)
Definition digit_of (a : ascii) : option Z :=
  let n := Z.of_N (N_of_ascii a) in
  if (48 <=? n) && (n <=? 57) then Some (n - 48) else None.

(** The directive [%Y] is matched by the pattern [\d\d\d\d], and the whole
    string has to match: exactly four decimal digits, of any script. *)
Definition parse_year (s : string) : option Z :=
  match code_points s with
  | Some [a; b; c; d] =>
      match decimal_digit a, decimal_digit b, decimal_digit c, decimal_digit d with
      | Some x, Some y, Some z, Some w => Some (1000 * x + 100 * y + 10 * z + w)
      | _, _, _, _ => None
      end
  | _ => None
  end.

(** Strings that the parser reads as NaT. *)
Definition nat_strings : list string := ["NaT"; "nat"; "NAT"; "nan"; "NaN"; "NAN"].

Definition leap_days (y : Z) : Z := y / 4 - y / 100 + y / 400.

(** Days from 1970-01-01 to the first of January of year [y]. *)
Definition days_to_year (y : Z) : Z :=
  365 * (y - 1970) + (leap_days (y - 1) - leap_days 1969).

Definition ns_per_day : Z := 86400 * 1000000000.

(** The nanosecond clock of a [datetime64[ns]] value covers 1677-09-21 to
    2262-04-11; January 1st of year [y] lies in it from 1678 to 2262. *)
Definition year_in_bounds (y : Z) : bool := (1678 <=? y) && (y <=? 2262).

Definition timestamp_of_year (y : Z) : outcome (option Z) :=
  if year_in_bounds y then Ok (Some (days_to_year y * ns_per_day))
  else Raise (OutOfBoundsDatetime "Out of bounds nanosecond timestamp").

Definition iNaT : Z := - 2 ^ 63.

(** [str(n)] has exactly four digits when [1000 <= n <= 9999]. *)
Definition strptime_int (n : Z) : outcome (option Z) :=
  if n =? iNaT then Ok None
  else if (1000 <=? n) && (n <=? 9999) then timestamp_of_year n
  else Raise (ValueError "time data doesn't match format %Y").

(** A string of an object array.  (The parser reads the two words [now]
    and [today] as the current time.  The model has no clock: it answers for
    them as for any string that does not match, and the statements about
    raising leave them out, see [clock_word].) *)
Definition strptime_str (s : string) : outcome (option Z) :=
  if String.eqb s EmptyString || existsb (String.eqb s) nat_strings then Ok None
  else match parse_year s with
       | Some y => timestamp_of_year y
       | None => Raise (ValueError "time data doesn't match format %Y")
       end.

(** One element of an object array under [errors='raise'] (the default):
    missing values give NaT, strings and integers are matched against the
    format, a float prints with a fractional part and never matches. *)
Definition strptime_cell (c : cell) : outcome (option Z) :=
  match c with
  | NaN => Ok None
  | Str s => strptime_str s
  | Int n => strptime_int n
  | Float _ => Raise (ValueError "time data doesn't match format %Y")
  | Timestamp ns => Ok (Some ns)
  end.

(** A float column is first cast to integers (truncation, NaN to NaT). *)
Definition float_as_i8 (o : option Q) : Z :=
  match o with
  | Some q => Z.quot (Qnum q) (Z.pos (Qden q))
  | None => iNaT
  end.

Definition to_datetime (s : Series) : outcome Series :=
  match s with
  | DatetimeSeries _ => Ok s
  | ObjectSeries l => ts <-! omap strptime_cell l; Ok (DatetimeSeries ts)
  | Int64Series l => ts <-! omap strptime_int l; Ok (DatetimeSeries ts)
  | Float64Series l =>
      ts <-! omap (fun o => strptime_int (float_as_i8 o)) l; Ok (DatetimeSeries ts)
  end.

(** ** Parsing numbers: [pd.to_numeric(s, errors='coerce')] *)

Inductive number : Type :=
| NInt (n : Z)
| NFloat (q : Q)
| NNull.

Fixpoint digits_value (s : string) (acc : Z) : option Z :=
  match s with
  | EmptyString => Some acc
  | String a r =>
      match digit_of a with
      | Some d => digits_value r (10 * acc + d)
      | None => None
      end
  end.

(** Splits at the first decimal point. *)
Fixpoint split_point (s : string) : string * option string :=
  match s with
  | EmptyString => (EmptyString, None)
  | String a r =>
      if Ascii.eqb a "." then (EmptyString, Some r)
      else let (i, f) := split_point r in (String a i, f)
  end.

Fixpoint pow10 (k : nat) : positive :=
  match k with
  | O => 1%positive
  | S k' => (10 * pow10 k')%positive
  end.

Definition int64_range (n : Z) : bool := (- 2 ^ 63 <=? n) && (n <? 2 ^ 63).

(** An unsigned decimal literal: digits, with an optional fractional part.
    A literal without a point is an integer when it fits 64 bits; the others
    are floats, rounded to the nearest one. *)
Definition parse_unsigned (neg : bool) (s : string) : number :=
  let sign := if neg then (-1) else 1 in
  match split_point s with
  | (i, None) =>
      match i, digits_value i 0 with
      | String _ _, Some n =>
          if int64_range (sign * n) then NInt (sign * n)
          else NFloat (binary64 (inject_Z (sign * n)))
      | _, _ => NNull
      end
  | (i, Some f) =>
      match digits_value i 0, digits_value f 0 with
      | Some n, Some m =>
          if (String.length i + String.length f =? 0)%nat then NNull
          else NFloat (binary64 (inject_Z sign *
                 (inject_Z n + Qmake m (pow10 (String.length f)))))
      | _, _ => NNull
      end
  end.

(** Decimal literals with an optional sign.  (Exponents, surrounding blanks
    and the spellings of infinity, which the library also reads, are left
    out: they are read as not-a-number here; an integer from [2 ^ 63] to
    [2 ^ 64 - 1], which the library keeps as an unsigned integer, is a float
    here.) *)
Definition parse_number (s : string) : number :=
  match s with
  | String a r =>
      if Ascii.eqb a "-" then parse_unsigned true r
      else if Ascii.eqb a "+" then parse_unsigned false r
      else parse_unsigned false s
  | EmptyString => NNull
  end.

(** One element of an object array under [errors='coerce']: what is not
    a number becomes the missing marker. *)
Definition to_numeric_cell (c : cell) : number :=
  match c with
  | NaN => NNull
  | Str s => parse_number s
  | Int n => NInt n
  | Float q => NFloat q
  | Timestamp _ => NNull
  end.

Fixpoint all_ints (l : list number) : option (list Z) :=
  match l with
  | [] => Some []
  | NInt n :: r => option_map (cons n) (all_ints r)
  | _ :: _ => None
  end.

Definition as_float (x : number) : option Q :=
  match x with
  | NInt n => Some (binary64 (inject_Z n))
  | NFloat q => Some q
  | NNull => None
  end.

(** Numeric columns are returned unchanged, a datetime column is viewed
    as its nanosecond counts, an object column is converted element by
    element: to [int64] when every element is an integer, to [float64]
    otherwise. *)
Definition to_numeric (s : Series) : Series :=
  match s with
  | Int64Series _ | Float64Series _ => s
  | DatetimeSeries l =>
      Int64Series (List.map (fun o => match o with Some ns => ns | None => iNaT end) l)
  | ObjectSeries l =>
      let ns := List.map to_numeric_cell l in
      match all_ints ns with
      | Some zs => Int64Series zs
      | None => Float64Series (List.map as_float ns)
      end
  end.

(** ** The cleaning block of [main] on frame values *)

Definition year_field : string := "a_o".
Definition year_column : string := "Año".
Definition division_column : string := "departamento".

(** The labels exempted from numeric coercion. *)
Definition categorical : list string := ["departamento"; "municipio"].

(** [col in ['departamento', 'municipio']] *)
Definition is_categorical (col : string) : bool :=
  existsb (String.eqb col) categorical.

(** [if 'a_o' in df.columns: df['Año'] = pd.to_datetime(df['a_o'], format='%Y')]:
    the frame as it stands after the statement. *)
Definition derive_year (df : DataFrame) : outcome DataFrame :=
  if has_column year_field df then
    a_o <-! getitem df year_field;
    s <-! to_datetime a_o;
    Ok (setitem df year_column s)
  else Ok df.

(** [for col in cols: if col not in [...]: df_clean[col] = pd.to_numeric(df_clean[col], errors='coerce')] *)
Fixpoint coerce_loop (cols : list string) (df_clean : DataFrame) : outcome DataFrame :=
  match cols with
  | [] => Ok df_clean
  | col :: rest =>
      if is_categorical col then coerce_loop rest df_clean
      else
        s <-! getitem df_clean col;
        coerce_loop rest (setitem df_clean col (to_numeric s))
  end.

(** The cleaned frame computed from the raw frame. *)
Definition clean (raw : DataFrame) : outcome DataFrame :=
  df <-! derive_year raw;
  let df_clean := dropna df in
  coerce_loop (columns df_clean) df_clean.

(** ** Filtering by department *)

(** Element-wise [==] of a column with a scalar: a missing value equals
    nothing, numbers compare by value, values of different kinds differ. *)
Definition cell_eq (x y : cell) : bool :=
  match x, y with
  | Str a, Str b => String.eqb a b
  | Int a, Int b => a =? b
  | Int a, Float b | Float b, Int a => Qeq_bool (inject_Z a) b
  | Float a, Float b => Qeq_bool a b
  | Timestamp a, Timestamp b => a =? b
  | _, _ => false
  end.

(** [df_clean[df_clean['departamento'] == departamento_filter]] *)
Definition filter_by_division (df_clean : DataFrame) (departamento_filter : cell)
  : outcome DataFrame :=
  s <-! getitem df_clean division_column;
  Ok (select_rows (List.map (fun c => cell_eq c departamento_filter) (values s)) df_clean).

(** ** Aggregation per department *)

(** Stable insertion sort for the order [le]. *)
Fixpoint insert_by {A} (le : A -> A -> bool) (x : A) (l : list A) : list A :=
  match l with
  | [] => [x]
  | y :: r => if le x y then x :: l else y :: insert_by le x r
  end.

Fixpoint sort_by {A} (le : A -> A -> bool) (l : list A) : list A :=
  match l with
  | [] => []
  | x :: r => insert_by le x (sort_by le r)
  end.

(** Order of the group labels: numbers by value, then timestamps, then
    strings in lexicographic order. *)
Definition key_rank (c : cell) : Z :=
  match c with
  | Int _ | Float _ => 0
  | Timestamp _ => 1
  | Str _ => 2
  | NaN => 3
  end.

Definition numeric_value (c : cell) : option Q :=
  match c with
  | Int n => Some (inject_Z n)
  | Float q => Some q
  | Timestamp ns => Some (inject_Z ns)
  | _ => None
  end.

Definition key_le (x y : cell) : bool :=
  match x, y with
  | Str a, Str b => String.leb a b
  | _, _ =>
      match numeric_value x, numeric_value y with
      | Some a, Some b =>
          if key_rank x =? key_rank y then Qle_bool a b else key_rank x <? key_rank y
      | _, _ => key_rank x <=? key_rank y
      end
  end.

(** The distinct values of a list, in order of first appearance. *)
Definition unique (l : list cell) : list cell :=
  fold_left (fun seen c => if existsb (cell_eq c) seen then seen else seen ++ [c]) l [].

(** The operand a cell contributes to a float aggregation: integers and
    clock values are converted to [float64] first. *)
Definition float_value (c : cell) : option Q :=
  match c with
  | Int n => Some (binary64 (inject_Z n))
  | Float q => Some q
  | Timestamp ns => Some (binary64 (inject_Z ns))
  | _ => None
  end.

(** The non-missing values of a column, as float operands. *)
Fixpoint present (l : list cell) : list Q :=
  match l with
  | [] => []
  | c :: r =>
      match float_value c with
      | Some q => q :: present r
      | None => present r
      end
  end.


(** The loop of the grouped mean: a compensated (Kahan) summation, every
    step rounded. *)
Fixpoint kahan_sum (sumx compensation : Q) (l : list Q) : Q :=
  match l with
  | [] => sumx
  | val :: r =>
      let y := fsub val compensation in
      let t := fadd sumx y in
      kahan_sum t (fsub (fsub t sumx) y) r
  end.

(** [sumx / count] *)
Definition group_mean (l : list Q) : Q :=
  fdiv (kahan_sum 0 0 l) (inject_Z (Z.of_nat (List.length l))).

(** [mean()] skips missing values; with no value left the mean is NaN. *)
Definition mean (l : list cell) : option Q :=
  match present l with
  | [] => None
  | x :: r => Some (group_mean (x :: r))
  end.

(** [groupby(key)]: one group per distinct non-missing label, labels
    sorted; each group holds the metric values of its rows. *)
Definition group_labels (keys : list cell) : list cell :=
  sort_by key_le (unique (List.filter notna keys)).

Definition group_values (keys vals : list cell) (k : cell) : list cell :=
  select (List.map (cell_eq k) keys) vals.

Definition groupby_mean (keys vals : list cell) : list (cell * option Q) :=
  List.map (fun k => (k, mean (group_values keys vals k))) (group_labels keys).

(** Descending order of the means, NaN last. *)
Definition mean_ge (a b : option Q) : bool :=
  match a, b with
  | Some x, Some y => Qle_bool y x
  | Some _, None => true
  | None, Some _ => false
  | None, None => true
  end.

(** [sort_values(ascending=False)] on the series of means.  (The library's
    default sort is not stable; the order among equal means produced here is
    one of the orders it may return.) *)
Definition sort_values_desc (l : list (cell * option Q)) : list (cell * option Q) :=
  sort_by (fun p q => mean_ge (snd p) (snd q)) l.

(** The mean of one group of an [object] column is taken by Python's own
    arithmetic: the non-missing values are added from 0, integers exactly and
    floats with rounding, and the sum is divided by their count.  A string or
    a timestamp among them makes the addition or the final conversion raise
    TypeError. *)
Inductive pynum : Type :=
| PyInt (n : Z)
| PyFloat (q : Q).

Definition py_add (acc : pynum) (c : cell) : outcome pynum :=
  match acc, c with
  | _, NaN => Ok acc
  | PyInt x, Int n => Ok (PyInt (x + n))
  | PyInt x, Float q => Ok (PyFloat (fadd (binary64 (inject_Z x)) q))
  | PyFloat x, Int n => Ok (PyFloat (fadd x (binary64 (inject_Z n))))
  | PyFloat x, Float q => Ok (PyFloat (fadd x q))
  | _, _ => Raise (TypeError "agg function failed [how->mean,dtype->object]")
  end.

Fixpoint py_sum (l : list cell) (acc : pynum) : outcome pynum :=
  match l with
  | [] => Ok acc
  | c :: r => acc' <-! py_add acc c; py_sum r acc'
  end.

Definition object_mean (l : list cell) : outcome (option Q) :=
  the_sum <-! py_sum l (PyInt 0);
  let count := List.length (List.filter notna l) in
  Ok (if (count =? 0)%nat then None
      else Some (fdiv (match the_sum with
                       | PyInt n => binary64 (inject_Z n)
                       | PyFloat q => q
                       end)
                      (inject_Z (Z.of_nat count)))).

(** The mean of a clock column is computed on the nanosecond counts as
    floats and cast back to a count. *)
Definition clock_value (q : Q) : Q := inject_Z (Z.quot (Qnum q) (Z.pos (Qden q))).

(** [df.groupby('departamento')[metric].mean()]: one mean per group.  For a
    numeric column the means are floats; an [object] column is aggregated
    group by group and raises as soon as one group does, so it raises on no
    input without groups. *)
Definition group_means (s : Series) (keys : list cell)
  : outcome (list (cell * option Q)) :=
  match s with
  | ObjectSeries l =>
      omap (fun k => m <-! object_mean (group_values keys l k); Ok (k, m))
           (group_labels keys)
  | DatetimeSeries _ =>
      Ok (List.map (fun p => (fst p, option_map clock_value (snd p)))
                   (groupby_mean keys (values s)))
  | Int64Series _ | Float64Series _ => Ok (groupby_mean keys (values s))
  end.

(** [df.groupby('departamento')[metric].mean().sort_values(ascending=False).head(n)] *)
Definition top_n_by_mean (df_clean : DataFrame) (metric : string) (n : nat)
  : outcome (list (cell * option Q)) :=
  keys <-! getitem df_clean division_column;
  match lookup_column metric (data df_clean) with
  | None => Raise (KeyError ("Column not found: " ++ metric))
  | Some s =>
      means <-! group_means s (values keys);
      Ok (firstn n (sort_values_desc means))
  end.

(** Line 164 of the source takes the first ten groups. *)
Definition deptos_avg (df_clean : DataFrame) (selected_metric : string)
  : outcome (list (cell * option Q)) :=
  top_n_by_mean df_clean selected_metric 10.

(** ** The application state *)

(** What the page shows through [st.error], [st.warning] and [st.success]
    (the widgets that only render a frame are left out). *)
Inductive message : Type :=
| st_error (text : string)
| st_warning (text : string)
| st_success (text : string).

(** Frames are objects: [heap] maps an object identity to the frame it
    currently holds, and [session_state] (a dictionary) maps its keys to
    object identities.  Two names bound to one identity see each other's
    updates. *)
Record app_state : Type := mkState {
  heap : gmap nat DataFrame;
  session_state : gmap string nat;
  page : list message
}.

Definition M (A : Type) : Type := app_state -> outcome A * app_state.

Definition ret {A} (a : A) : M A := fun st => (Ok a, st).

Definition bind {A B} (m : M A) (f : A -> M B) : M B :=
  fun st =>
    match m st with
    | (Ok a, st') => f a st'
    | (Raise e, st') => (Raise e, st')
    end.

Notation "x <- m ;; k" := (bind m (fun x => k))
  (at level 100, m at next level, right associativity).
Notation "m ;;; k" := (bind m (fun _ => k))
  (at level 100, right associativity).

Definition lift {A} (o : outcome A) : M A := fun st => (o, st).

Definition show (m : message) : M unit :=
  fun st => (Ok tt, mkState (heap st) (session_state st) (page st ++ [m])).

(** A newly built frame gets an identity of its own. *)
Definition new_object (df : DataFrame) : M nat :=
  fun st =>
    let r := fresh (dom (heap st)) in
    (Ok r, mkState (<[r := df]> (heap st)) (session_state st) (page st)).

(** The frame currently held by an object.  (Every identity handed out by
    [new_object] is in the heap; the error branch is never taken.) *)
Definition read (r : nat) : M DataFrame :=
  fun st =>
    match heap st !! r with
    | Some df => (Ok df, st)
    | None => (Raise (KeyError "object"), st)
    end.

(** In-place update of an object. *)
Definition write (r : nat) (df : DataFrame) : M unit :=
  fun st => (Ok tt, mkState (<[r := df]> (heap st)) (session_state st) (page st)).

(** [key in st.session_state] and [st.session_state[key]] *)
Definition session_get (key : string) : M (option nat) :=
  fun st => (Ok (session_state st !! key), st).

(** [st.session_state[key] = obj] *)
Definition session_set (key : string) (r : nat) : M unit :=
  fun st => (Ok tt, mkState (heap st) (<[key := r]> (session_state st)) (page st)).

(** ** The fetcher *)

(** A JSON payload: an array of flat objects with string values, which
    is what the endpoint serves, or any other JSON value; for the latter
    the result of [pd.DataFrame(data)], a frame or an exception, is taken
    as given. *)
Inductive payload : Type :=
| Records (rows : list (list (string * string)))
| OtherJson (built : outcome DataFrame).

Record Response : Type := mkResponse {
  status_code : Z;
  reason : string;
  json : outcome payload
}.

Definition string_of_Z (z : Z) : string := NilZero.string_of_int (Z.to_int z).

Definition api_url (limit : Z) : string :=
  "https://www.datos.gov.co/resource/nudc-7mev.json?$limit=" ++ string_of_Z limit.

(** [response.raise_for_status()]: HTTPError for the 4xx and 5xx codes. *)
Definition raise_for_status (url : string) (r : Response) : outcome unit :=
  if (400 <=? status_code r) && (status_code r <? 500) then
    Raise (HTTPError (string_of_Z (status_code r) ++ " Client Error: " ++ reason r
                      ++ " for url: " ++ url))
  else if (500 <=? status_code r) && (status_code r <? 600) then
    Raise (HTTPError (string_of_Z (status_code r) ++ " Server Error: " ++ reason r
                      ++ " for url: " ++ url))
  else Ok tt.

Fixpoint assoc (key : string) (row : list (string * string)) : option string :=
  match row with
  | [] => None
  | (k, v) :: r => if String.eqb key k then Some v else assoc key r
  end.

(** Keys of the records, in order of first appearance. *)
Definition record_keys (rows : list (list (string * string))) : list string :=
  fold_left (fun seen k => if existsb (String.eqb k) seen then seen else seen ++ [k])
            (List.concat (List.map (List.map fst) rows)) [].

(** [pd.DataFrame(data)] for a list of records: one row per record, one
    object column per key; a key absent from a record leaves a missing
    value. *)
Definition DataFrame_of_records (rows : list (list (string * string))) : DataFrame :=
  mkDataFrame
    (seq 0 (List.length rows))
    (List.map (fun k =>
       (k, ObjectSeries (List.map (fun row =>
              match assoc k row with Some v => Str v | None => NaN end) rows)))
       (record_keys rows)).

Definition pd_DataFrame (data : payload) : outcome DataFrame :=
  match data with
  | Records rows => Ok (DataFrame_of_records rows)
  | OtherJson built => built
  end.

(** The body of the [try] block. *)
Definition fetch (requests_get : string -> outcome Response) (limit : Z)
  : outcome DataFrame :=
  response <-! requests_get (api_url limit);
  _ <-! raise_for_status (api_url limit) response;
  data <-! json response;
  df <-! pd_DataFrame data;
  Ok df.

Definition load_data_from_api (requests_get : string -> outcome Response) (limit : Z)
  : M DataFrame :=
  match fetch requests_get limit with
  | Ok df => ret df
  | Raise e =>
      (if is_RequestException e
       then show (st_error ("Error de conexión: " ++ exc_str e))
       else show (st_error ("Error inesperado: " ++ exc_str e))) ;;;
      ret empty_frame
  end.

(** ** The steps of [main] *)

Definition string_of_nat (n : nat) : string := string_of_Z (Z.of_nat n).

(** Step 1 (lines 102-114): on a click, fetch with the default limit and
    keep the frame in the session unless it is empty. *)
Definition load_step (requests_get : string -> outcome Response) (clicked : bool)
  : M unit :=
  if clicked then
    df <- load_data_from_api requests_get 50000 ;;
    if negb (empty df) then
      show (st_success ("Datos cargados exitosamente ("
                        ++ string_of_nat (len df) ++ " filas)")) ;;;
      r <- new_object df ;;
      session_set "df" r
    else
      show (st_warning "No se encontraron datos o hubo un error en la carga.")
  else ret tt.

(** The loop of lines 128-130 on the object [r]. *)
Fixpoint coerce_object (cols : list string) (r : nat) : M unit :=
  match cols with
  | [] => ret tt
  | col :: rest =>
      if is_categorical col then coerce_object rest r
      else
        df_clean <- read r ;;
        s <- lift (getitem df_clean col) ;;
        write r (setitem df_clean col (to_numeric s)) ;;;
        coerce_object rest r
  end.

(** Step 2 (lines 117-135): [df] is the object stored under 'df', not
    a copy of it; [df.dropna()] builds a new object. *)
Definition clean_step : M unit :=
  o <- session_get "df" ;;
  match o with
  | None => ret tt
  | Some df =>
      raw <- read df ;;
      (if has_column year_field raw then
         a_o <- lift (getitem raw year_field) ;;
         s <- lift (to_datetime a_o) ;;
         write df (setitem raw year_column s)
       else ret tt) ;;;
      with_year <- read df ;;
      df_clean <- new_object (dropna with_year) ;;
      cols <- (d <- read df_clean ;; ret (columns d)) ;;
      coerce_object cols df_clean ;;;
      d <- read df_clean ;;
      show (st_success ("Datos limpios: " ++ string_of_nat (len d) ++ " registros")) ;;;
      session_set "df_clean" df_clean
  end.

(** Step 3, line 164: the aggregation runs only when a cleaned frame is in
    the session. *)
Definition aggregate_step (selected_metric : string)
  : M (option (list (cell * option Q))) :=
  o <- session_get "df_clean" ;;
  match o with
  | None => ret None
  | Some r =>
      df_clean <- read r ;;
      avg <- lift (deptos_avg df_clean selected_metric) ;;
      ret (Some avg)
  end.

Definition initial_state : app_state := mkState ∅ ∅ [].

(** ** Properties stated on frames *)

(** No cell of the frame is a missing marker. *)
Definition no_missing (df : DataFrame) : Prop :=
  forall col s, In (col, s) (data df) -> forall c, In c (values s) -> isna c = false.

(** A numeric cell or the missing marker. *)
Definition numeric_or_missing (c : cell) : Prop :=
  match c with
  | Int _ | Float _ | NaN => True
  | Str _ | Timestamp _ => False
  end.

Definition numeric_dtype (s : Series) : Prop :=
  dtype_of s = int64 \/ dtype_of s = float64.

(** A frame as the constructor builds it from the records of the
    endpoint: object columns of strings and missing values. *)
Definition string_or_missing (c : cell) : Prop :=
  match c with
  | Str _ | NaN => True
  | _ => False
  end.

Definition raw_frame (df : DataFrame) : Prop :=
  well_formed df /\
  Forall (fun cs => exists l, snd cs = ObjectSeries l /\ Forall string_or_missing l)
         (data df).

(** The rows of a frame: the cells of every column at one position,
    in column order. *)
Fixpoint zip_cons (a : list cell) (b : list (list cell)) : list (list cell) :=
  match a, b with
  | x :: a', r :: b' => (x :: r) :: zip_cons a' b'
  | _, _ => []
  end.

Fixpoint cell_rows (n : nat) (cs : list (string * Series)) : list (list cell) :=
  match cs with
  | [] => repeat [] n
  | (_, s) :: r => zip_cons (values s) (cell_rows n r)
  end.

Definition rows (df : DataFrame) : list (nat * list cell) :=
  combine (index df) (cell_rows (len df) (data df)).

(** ** Closed forms used in the proofs *)

(** What the coercion loop does to one column. *)
Definition coerce_series (col : string) (s : Series) : Series :=
  if is_categorical col then s else to_numeric s.

Definition coerce_column (cs : string * Series) : string * Series :=
  if is_categorical (fst cs) then cs else (fst cs, to_numeric (snd cs)).

(** A column that the coercion loop leaves as it is. *)
Definition coerced (p : string * Series) : Prop :=
  is_categorical (fst p) = true \/ numeric_dtype (snd p).

(** The conjunction of two row masks. *)
Definition mask_and (a b : list bool) : list bool :=
  List.map (fun p => fst p && snd p) (combine a b).

(** The years derived again from a coerced year column: where the
    coercion left a missing marker there is no year any more. *)
Definition rederived (a_o : list cell) (ts : list (option Z)) : list (option Z) :=
  List.map (fun p => if notna (fst p) then snd p else None) (combine a_o ts).

(** Replacing the series of one label, as a map over the columns. *)
Definition replace_series (col : string) (s : Series) (p : string * Series)
  : string * Series :=
  if String.eqb col (fst p) then (fst p, s) else p.

Definition cleaned_message (t : DataFrame) : message :=
  st_success ("Datos limpios: " ++ string_of_nat (len t) ++ " registros").

(** ** Properties stated on values and results *)

(** A string that the year parser reads as a missing value. *)
Definition missing_spelling (s : string) : bool :=
  String.eqb s EmptyString || existsb (String.eqb s) nat_strings.

(** The words that the year parser reads as the current time. *)
Definition clock_word (s : string) : bool :=
  String.eqb s "now" || String.eqb s "today".

(** No character of the string lies beyond the basic multilingual plane.
    (The decimal digits of the other planes are not the same in every version
    of Unicode that an interpreter may carry; the digits of the basic plane
    are.) *)
Definition basic_plane (s : string) : bool :=
  match code_points s with
  | Some cps => forallb (fun cp => cp <? 65536) cps
  | None => true
  end.

(** A year string on which the model stands for the parser whatever the
    clock and the version of Unicode. *)
Definition plain_year (s : string) : bool := negb (clock_word s) && basic_plane s.





(** The sum of the magnitudes of a list of integers. *)
Definition magnitude (l : list Z) : Z := fold_right (fun z acc => Z.abs z + acc) 0 l.

(** The arithmetic mean of a list of integers, as an exact rational. *)
Definition arithmetic_mean (l : list Z) : Q :=
  Qdiv (inject_Z (fold_right Z.add 0 l)) (inject_Z (Z.of_nat (List.length l))).


(** The ways in which the [try] block fails: the request raises, the
    status is a client or server error, the body does not decode, or no frame
    can be built from the decoded value. *)
Inductive fetch_failure (requests_get : string -> outcome Response) (limit : Z) : Prop :=
| request_raises (e : exception) :
    requests_get (api_url limit) = Raise e -> fetch_failure requests_get limit
| error_status (r : Response) :
    requests_get (api_url limit) = Ok r ->
    400 <= status_code r < 600 -> fetch_failure requests_get limit
| body_not_json (r : Response) (e : exception) :
    requests_get (api_url limit) = Ok r ->
    json r = Raise e -> fetch_failure requests_get limit
| frame_not_built (r : Response) (e : exception) :
    requests_get (api_url limit) = Ok r ->
    json r = Ok (OtherJson (Raise e)) -> fetch_failure requests_get limit.

(** ** Sample inputs *)

(** Two records of one department; the rate of the second is not a
    number. *)
Definition sample_rows : list (list (string * string)) :=
  [ [("a_o", "2019"); ("departamento", "CUNDINAMARCA"); ("tasa", "12.5")];
    [("a_o", "2019"); ("departamento", "CUNDINAMARCA"); ("tasa", "bad")] ].

Definition sample_raw : DataFrame := DataFrame_of_records sample_rows.

(** The sample after one and after two cleaning passes. *)
Definition sample_clean : DataFrame :=
  mkDataFrame [0%nat; 1%nat]
    [("a_o", Int64Series [2019; 2019]);
     ("departamento", ObjectSeries [Str "CUNDINAMARCA"; Str "CUNDINAMARCA"]);
     ("tasa", Float64Series [Some (25 # 2)%Q; None]);
     ("Año", Int64Series [1546300800000000000; 1546300800000000000])].

Definition sample_twice : DataFrame :=
  mkDataFrame [0%nat]
    [("a_o", Int64Series [2019]);
     ("departamento", ObjectSeries [Str "CUNDINAMARCA"]);
     ("tasa", Float64Series [Some (25 # 2)%Q]);
     ("Año", Int64Series [1546300800000000000])].

(** Two records; the year of the second is not a year. *)
Definition bad_year_rows : list (list (string * string)) :=
  [ [("a_o", "2019"); ("departamento", "CUNDINAMARCA"); ("tasa", "12.5")];
    [("a_o", "20x9"); ("departamento", "BOYACA"); ("tasa", "7")] ].

Definition bad_year_raw : DataFrame := DataFrame_of_records bad_year_rows.

(** A session in which a fetched frame is stored under 'df'. *)
Definition session_with (raw : DataFrame) : app_state :=
  mkState {[ 0%nat := raw ]} {[ "df" := 0%nat ]} [].

Definition sample_state : app_state := session_with sample_raw.

Definition bad_year_state : app_state := session_with bad_year_raw.

(** Replies of the endpoint: a 300 response with a decodable body (a
    response of this class that names no location is handed to the caller as
    it is), a refused connection, and an empty array. *)
Definition redirect_get (url : string) : outcome Response :=
  Ok (mkResponse 300 "Multiple Choices" (Ok (Records sample_rows))).

Definition refused_get (url : string) : outcome Response :=
  Raise (ConnectionError "Connection refused").

Definition empty_get (url : string) : outcome Response :=
  Ok (mkResponse 200 "OK" (Ok (Records []))).

Definition no_data_warning : message :=
  st_warning "No se encontraron datos o hubo un error en la carga.".

(** ** The other blocks of [main] and [show_data_summary] *)

(** [df.isnull().sum()] (line 90): the number of missing values of each
    column. *)
Definition isnull_sum (df : DataFrame) : list (string * nat) :=
  List.map (fun cs => (fst cs, List.length (List.filter isna (values (snd cs)))))
           (data df).

(** [Series.unique()]: the distinct values in order of first appearance,
    the missing value counted once. *)
Definition same_value (x y : cell) : bool :=
  cell_eq x y || (isna x && isna y).

Definition pd_unique (l : list cell) : list cell :=
  fold_left (fun seen c => if existsb (same_value c) seen then seen else seen ++ [c])
            l [].

(** [st.selectbox(label, options)] returns the option the user picked,
    the first one until the user picks another, and None when there is no
    option.  [pick] is the position chosen on the page. *)
Definition selectbox (options : list cell) (pick : nat) : cell :=
  match options with
  | [] => NaN
  | first :: _ => nth pick options first
  end.

(** Lines 142-143: the department is chosen among the values of the
    column, then the frame is filtered on it. *)
Definition df_filtered (df_clean : DataFrame) (pick : nat) : outcome DataFrame :=
  s <-! getitem df_clean division_column;
  let departamento_filter := selectbox (pd_unique (values s)) pick in
  filter_by_division df_clean departamento_filter.

(** Lines 171-175: the same selection for the scatter chart, under the
    test ['departamento' in df_clean.columns]. *)
Definition depto_df (df_clean : DataFrame) (pick : nat) : outcome (option DataFrame) :=
  if has_column division_column df_clean then
    s <-! getitem df_clean division_column;
    let selected_depto := selectbox (pd_unique (values s)) pick in
    t <-! filter_by_division df_clean selected_depto;
    Ok (Some t)
  else Ok None.

(** Line 153: the metrics offered are all the columns of the cleaned
    frame. *)
Definition metrics (df_clean : DataFrame) : list string := columns df_clean.

(** [df.iterrows()] yields each row as a series over the column labels.
    The rows share one dtype: the dtype of the columns when they agree,
    float when they are all numbers, object otherwise; under float an
    integer comes out as a float. *)
Definition dtype_eqb (a b : dtype) : bool :=
  match a, b with
  | object, object | int64, int64 | float64, float64 | datetime64, datetime64 => true
  | _, _ => false
  end.

Definition is_number_dtype (d : dtype) : bool :=
  match d with
  | int64 | float64 => true
  | _ => false
  end.

Definition common_dtype (cs : list (string * Series)) : dtype :=
  match List.map (fun p => dtype_of (snd p)) cs with
  | [] => float64
  | d :: ds =>
      if forallb (dtype_eqb d) ds then d
      else if forallb is_number_dtype (d :: ds) then float64
      else object
  end.

Definition upcast (d : dtype) (c : cell) : cell :=
  match d, c with
  | float64, Int n => Float (binary64 (inject_Z n))
  | _, _ => c
  end.

Definition iterrows (df : DataFrame) : list (nat * list (string * cell)) :=
  combine (index df)
          (List.map (fun r => combine (columns df)
                                      (List.map (upcast (common_dtype (data df))) r))
                    (cell_rows (len df) (data df))).

(** [row[key]] on a row series. *)
Fixpoint row_get (row : list (string * cell)) (key : string) : outcome cell :=
  match row with
  | [] => Raise (KeyError key)
  | (k, v) :: r => if String.eqb key k then Ok v else row_get r key
  end.

(** Lines 201-208: one circle marker per row, at [[row['lat'], row['lon']]].
    [CircleMarker] stands for the constructor of the map library, which may
    refuse a location; the result lists the locations of the markers added. *)
Fixpoint add_markers (CircleMarker : cell -> cell -> outcome unit)
         (rws : list (nat * list (string * cell))) : outcome (list (cell * cell)) :=
  match rws with
  | [] => Ok []
  | (_, row) :: rest =>
      lat <-! row_get row "lat";
      lon <-! row_get row "lon";
      _ <-! CircleMarker lat lon;
      ms <-! add_markers CircleMarker rest;
      Ok ((lat, lon) :: ms)
  end.

Definition map_markers (CircleMarker : cell -> cell -> outcome unit)
           (df_clean : DataFrame) : outcome (list (cell * cell)) :=
  add_markers CircleMarker (iterrows df_clean).

(** ** Further properties stated on values and results *)

(** A year string that the year derivation accepts: a spelling of the
    missing value, or four digits naming a year of the nanosecond clock. *)
Definition acceptable_year (s : string) : Prop :=
  missing_spelling s = true \/
  exists y, parse_year s = Some y /\ 1678 <= y <= 2262.

(** No two labels of the list are equal. *)
Fixpoint distinct_labels (l : list cell) : Prop :=
  match l with
  | [] => True
  | x :: r => (forall y, In y r -> cell_eq x y = false) /\ distinct_labels r
  end.

(** The records carry at least one field. *)
Definition has_field (rows : list (list (string * string))) : Prop :=
  exists row k v, In row rows /\ In (k, v) row.

(** Replies of the endpoint: the sample records, and a server error. *)
Definition sample_get (url : string) : outcome Response :=
  Ok (mkResponse 200 "OK" (Ok (Records sample_rows))).

Definition server_error_get (url : string) : outcome Response :=
  Ok (mkResponse 503 "Service Unavailable" (Ok (Records sample_rows))).

(** Line 108: the message of a successful load. *)
Definition loaded_message (df : DataFrame) : message :=
  st_success ("Datos cargados exitosamente (" ++ string_of_nat (len df) ++ " filas)").

(** The cell of a record under a key, as [pd.DataFrame] builds it. *)
Definition record_cell (k : string) (row : list (string * string)) : cell :=
  match assoc k row with Some v => Str v | None => NaN end.

(** The records that survive cleaning: every key of the data set is
    present, and the year, when the record has one, is not a spelling of the
    missing value. *)
Definition kept_record (keys : list string) (row : list (string * string)) : bool :=
  forallb (fun k => match assoc k row with Some _ => true | None => false end) keys
  && match assoc year_field row with
     | Some y => negb (missing_spelling y)
     | None => true
     end.

(** Four records; the second lacks the rate, the third has an empty year. *)
Definition ragged_rows : list (list (string * string)) :=
  [ [("a_o", "2019"); ("departamento", "CUNDINAMARCA"); ("tasa", "12.5")];
    [("a_o", "2019"); ("departamento", "BOYACA")];
    [("a_o", EmptyString); ("departamento", "BOYACA"); ("tasa", "3")];
    [("a_o", "2020"); ("departamento", "BOYACA"); ("tasa", "7")] ].

(** The cleaned frame of these records. *)
Definition ragged_clean : DataFrame :=
  mkDataFrame [0%nat; 3%nat]
    [("a_o", Int64Series [2019; 2020]);
     ("departamento", ObjectSeries [Str "CUNDINAMARCA"; Str "BOYACA"]);
     ("tasa", Float64Series [Some (25 # 2)%Q; Some (7 # 1)%Q]);
     ("Año", Int64Series [1546300800000000000; 1577836800000000000])].

(** Years in ASCII digits, in full-width digits, and malformed. *)
Definition wide_year_rows : list (list (string * string)) :=
  [ [("a_o", "2019"); ("departamento", "CUNDINAMARCA")];
    [("a_o", "２０１９"); ("departamento", "BOYACA")];
    [("a_o", "20x9"); ("departamento", "BOYACA")] ].

Definition wide_year_raw : DataFrame := DataFrame_of_records wide_year_rows.

(** One record with an empty year: nothing is left of it after cleaning. *)
Definition empty_year_rows : list (list (string * string)) :=
  [ [("a_o", EmptyString); ("departamento", "CUNDINAMARCA")] ].

Definition empty_year_clean : DataFrame :=
  mkDataFrame []
    [("a_o", Int64Series []); ("departamento", ObjectSeries []); ("Año", Int64Series [])].

(** A reply with a malformed year in its second record, and a session
    that holds the cleaned sample from an earlier run. *)
Definition bad_year_get (url : string) : outcome Response :=
  Ok (mkResponse 200 "OK" (Ok (Records bad_year_rows))).

Definition cleaned_session : app_state :=
  mkState {[ 0%nat := sample_raw; 1%nat := sample_clean ]}
          {[ "df" := 0%nat; "df_clean" := 1%nat ]} [].

(** A cleaned frame with three departments and a rate. *)
Definition rated : DataFrame :=
  mkDataFrame [0%nat; 1%nat; 2%nat; 3%nat; 4%nat]
    [("departamento", ObjectSeries [Str "CUNDINAMARCA"; Str "BOYACA"; Str "CUNDINAMARCA";
                                    Str "ARAUCA"; Str "BOYACA"]);
     ("tasa", Float64Series [Some (25 # 2)%Q; Some (7 # 1)%Q; None;
                             Some (7 # 2)%Q; Some (8 # 1)%Q])].

(** A cleaned frame with a metric of whole numbers. *)
Definition enrolled : DataFrame :=
  mkDataFrame [0%nat; 1%nat; 2%nat]
    [("departamento", ObjectSeries [Str "CUNDINAMARCA"; Str "BOYACA"; Str "CUNDINAMARCA"]);
     ("matriculados", Int64Series [10; 7; 15])].

(** A cleaned frame with coordinates, and a marker constructor that
    accepts numbers only. *)
Definition located : DataFrame :=
  mkDataFrame [0%nat; 1%nat]
    [("departamento", ObjectSeries [Str "CUNDINAMARCA"; Str "BOYACA"]);
     ("lat", Float64Series [Some (9 # 2)%Q; Some (11 # 2)%Q]);
     ("lon", Float64Series [Some (- 297 # 4)%Q; Some (- 147 # 2)%Q])].

Definition numbers_only (lat lon : cell) : outcome unit :=
  match lat, lon with
  | (Int _ | Float _), (Int _ | Float _) => Ok tt
  | _, _ => Raise (ValueError "Location should consist of two numerical values")
  end.

(** ** The library functions on small inputs *)

Example parse_number_decimal : parse_number "12.5" = NFloat (25 # 2).
Proof. reflexivity. Qed.

Example parse_number_integer : parse_number "-40" = NInt (-40).
Proof. reflexivity. Qed.

Example parse_number_word : parse_number "bad" = NNull.
Proof. reflexivity. Qed.

Example strptime_year : strptime_str "2019" = Ok (Some 1546300800000000000).
Proof. reflexivity. Qed.

Example strptime_epoch : timestamp_of_year 1970 = Ok (Some 0).
Proof. reflexivity. Qed.

Example strptime_leap : days_to_year 2001 - days_to_year 2000 = 366.
Proof. reflexivity. Qed.

Example strptime_empty : strptime_str EmptyString = Ok None.
Proof. reflexivity. Qed.

Example to_numeric_mixed :
  to_numeric (ObjectSeries [Str "1"; Str "x"; NaN]) = Float64Series [Some 1%Q; None; None].
Proof. reflexivity. Qed.

Example to_numeric_integers :
  to_numeric (ObjectSeries [Str "1"; Str "20"]) = Int64Series [1; 20].
Proof. reflexivity. Qed.

Example dropna_sample :
  index (dropna (mkDataFrame [0%nat; 1%nat; 2%nat]
                   [("a", ObjectSeries [Str "x"; NaN; Str "z"]);
                    ("b", Float64Series [Some 1%Q; Some 2%Q; None])])) = [0%nat].
Proof. reflexivity. Qed.

Example groupby_two_groups :
  sort_values_desc
    (groupby_mean [Str "B"; Str "A"; Str "B"; Str "C"]
                  [Int 1; Int 10; Int 2; NaN])
  = [(Str "A", Some 10%Q); (Str "B", Some (3 # 2)%Q); (Str "C", None)].
Proof. reflexivity. Qed.

(** ** Lemmas on boolean indexing *)

Section Select.
Context {A B : Type}.

Lemma select_map (f : A -> B) (m : list bool) (l : list A) :
  select m (List.map f l) = List.map f (select m l).
Proof.
  revert l; induction m as [|b m IH]; intros [|x l]; simpl; try reflexivity.
  destruct b; simpl; now rewrite IH.
Qed.

Lemma select_In (m : list bool) (l : list A) (x : A) :
  In x (select m l) -> In x l.
Proof.
  revert l; induction m as [|b m IH]; intros [|y l]; simpl; try tauto.
  destruct b; simpl; intros H; [destruct H as [H|H]|]; auto.
Qed.


Lemma select_same_length (m : list bool) (l : list A) (l' : list B) :
  List.length l = List.length l' ->
  List.length (select m l) = List.length (select m l').
Proof.
  revert l l'; induction m as [|b m IH]; intros [|x l] [|y l'] H; simpl in *;
    try reflexivity; try discriminate.
  injection H as H. destruct b; simpl; auto.
Qed.


End Select.

Lemma values_select (m : list bool) (s : Series) :
  values (select_series m s) = select m (values s).
Proof. destruct s; simpl; auto using select_map. Qed.

Lemma dtype_select (m : list bool) (s : Series) :
  dtype_of (select_series m s) = dtype_of s.
Proof. now destruct s. Qed.

Lemma columns_select_rows (m : list bool) (df : DataFrame) :
  columns (select_rows m df) = columns df.
Proof.
  unfold columns, select_rows; simpl. rewrite List.map_map. reflexivity.
Qed.

Lemma lookup_select_rows (m : list bool) (col : string) (cs : list (string * Series)) :
  lookup_column col (List.map (fun cs => (fst cs, select_series m (snd cs))) cs) =
  option_map (select_series m) (lookup_column col cs).
Proof.
  induction cs as [|[c s] cs IH]; simpl; [reflexivity|].
  destruct (String.eqb col c); auto.
Qed.

(** ** Lemmas on column access *)

Lemma lookup_column_In (col : string) (cs : list (string * Series)) (s : Series) :
  lookup_column col cs = Some s -> In (col, s) cs.
Proof.
  induction cs as [|[c s0] cs IH]; simpl; [discriminate|].
  destruct (String.eqb col c) eqn:E.
  - apply String.eqb_eq in E. intros [= ->]. subst. now left.
  - intros H. right. now apply IH.
Qed.

Lemma lookup_column_None (col : string) (cs : list (string * Series)) :
  lookup_column col cs = None <-> ~ In col (List.map fst cs).
Proof.
  induction cs as [|[c s0] cs IH]; simpl; [tauto|].
  destruct (String.eqb col c) eqn:E.
  - apply String.eqb_eq in E. subst. split; [discriminate|]. intros H. exfalso. auto.
  - apply String.eqb_neq in E. rewrite IH. split; intros H; [intros [H1|H1]|];
      try congruence; auto.
Qed.

Lemma In_lookup_column (col : string) (s : Series) (cs : list (string * Series)) :
  List.NoDup (List.map fst cs) -> In (col, s) cs -> lookup_column col cs = Some s.
Proof.
  induction cs as [|[c s0] cs IH]; simpl; [tauto|].
  intros Hnd [H|H].
  - injection H as -> ->. now rewrite String.eqb_refl.
  - inversion Hnd as [|? ? Hn Hnd']; subst.
    destruct (String.eqb col c) eqn:E.
    + apply String.eqb_eq in E. subst. exfalso. apply Hn.
      change c with (fst (c, s)). now apply in_map.
    + now apply IH.
Qed.

Lemma has_column_In (col : string) (df : DataFrame) :
  has_column col df = true <-> In col (columns df).
Proof.
  unfold has_column. rewrite existsb_exists. split.
  - intros [x [Hx E]]. apply String.eqb_eq in E. now subst.
  - intros H. exists col. split; [assumption|apply String.eqb_refl].
Qed.

Lemma lookup_app_notin (col : string) (pre l : list (string * Series)) :
  ~ In col (List.map fst pre) ->
  lookup_column col (pre ++ l) = lookup_column col l.
Proof.
  induction pre as [|[c s0] pre IH]; simpl; [reflexivity|].
  intros H. destruct (String.eqb col c) eqn:E.
  - apply String.eqb_eq in E. exfalso. auto.
  - apply IH. tauto.
Qed.

Lemma assign_app_notin (col : string) (s : Series) (pre l : list (string * Series)) :
  ~ In col (List.map fst pre) ->
  assign_column col s (pre ++ l) = pre ++ assign_column col s l.
Proof.
  induction pre as [|[c s0] pre IH]; simpl; [reflexivity|].
  intros H. destruct (String.eqb col c) eqn:E.
  - apply String.eqb_eq in E. exfalso. auto.
  - f_equal. apply IH. tauto.
Qed.

Lemma assign_column_names_in (col : string) (s : Series) (cs : list (string * Series)) :
  In col (List.map fst cs) ->
  List.map fst (assign_column col s cs) = List.map fst cs.
Proof.
  induction cs as [|[c s0] cs IH]; simpl; [tauto|].
  intros H. destruct (String.eqb col c) eqn:E; simpl; [reflexivity|].
  f_equal. apply IH. destruct H as [H|H]; [|assumption].
  apply String.eqb_neq in E. congruence.
Qed.

Lemma assign_column_new (col : string) (s : Series) (cs : list (string * Series)) :
  ~ In col (List.map fst cs) -> assign_column col s cs = cs ++ [(col, s)].
Proof.
  induction cs as [|[c s0] cs IH]; simpl; [reflexivity|].
  intros H. destruct (String.eqb col c) eqn:E.
  - apply String.eqb_eq in E. exfalso. auto.
  - f_equal. apply IH. tauto.
Qed.

Lemma lookup_assign_same (col : string) (s : Series) (cs : list (string * Series)) :
  lookup_column col (assign_column col s cs) = Some s.
Proof.
  induction cs as [|[c s0] cs IH]; simpl.
  - now rewrite String.eqb_refl.
  - destruct (String.eqb col c) eqn:E; simpl; rewrite E; auto.
Qed.

Lemma lookup_assign_other (col c : string) (s : Series) (cs : list (string * Series)) :
  c <> col ->
  lookup_column c (assign_column col s cs) = lookup_column c cs.
Proof.
  intros Hne. induction cs as [|[c0 s0] cs IH]; simpl.
  - destruct (String.eqb c col) eqn:E; [|reflexivity].
    apply String.eqb_eq in E. contradiction.
  - destruct (String.eqb col c0) eqn:E; simpl.
    + apply String.eqb_eq in E. subst c0.
      destruct (String.eqb c col) eqn:E'; [|reflexivity].
      apply String.eqb_eq in E'. contradiction.
    + destruct (String.eqb c c0); auto.
Qed.

(** ** The coercion loop *)

Lemma coerce_loop_suffix (idx : list nat) (suf pre : list (string * Series)) :
  List.NoDup (List.map fst (pre ++ suf)) ->
  coerce_loop (List.map fst suf) (mkDataFrame idx (pre ++ suf)) =
  Ok (mkDataFrame idx (pre ++ List.map coerce_column suf)).
Proof.
  revert pre. induction suf as [|[c s] suf IH]; intros pre Hnd;
    cbn [coerce_loop List.map fst].
  - reflexivity.
  - assert (Hpre : ~ In c (List.map fst pre)).
    { rewrite List.map_app in Hnd. simpl in Hnd.
      apply List.NoDup_remove_2 in Hnd. intros H. apply Hnd.
      apply in_or_app. now left. }
    assert (Hnd' : forall s', List.NoDup (List.map fst ((pre ++ [(c, s')]) ++ suf))).
    { intros s'. rewrite <- List.app_assoc. simpl.
      rewrite List.map_app in *. exact Hnd. }
    unfold coerce_column at 1. cbn [fst snd].
    destruct (is_categorical c) eqn:Ecat.
    + specialize (IH (pre ++ [(c, s)]) (Hnd' s)).
      rewrite <- !List.app_assoc in IH. exact IH.
    + unfold getitem, setitem. cbn [data index].
      rewrite lookup_app_notin by assumption.
      cbn [lookup_column]. rewrite String.eqb_refl. cbn [obind].
      rewrite assign_app_notin by assumption.
      cbn [assign_column]. rewrite String.eqb_refl.
      specialize (IH (pre ++ [(c, to_numeric s)]) (Hnd' (to_numeric s))).
      rewrite <- !List.app_assoc in IH. exact IH.
Qed.

Lemma coerce_loop_all (df : DataFrame) :
  List.NoDup (columns df) ->
  coerce_loop (columns df) df =
  Ok (mkDataFrame (index df) (List.map coerce_column (data df))).
Proof.
  intros Hnd. destruct df as [idx cs]. unfold columns in *. simpl in *.
  exact (coerce_loop_suffix idx cs [] Hnd).
Qed.

Lemma to_numeric_numeric (s : Series) : numeric_dtype (to_numeric s).
Proof.
  unfold numeric_dtype. destruct s; simpl; auto.
  destruct (all_ints _); simpl; auto.
Qed.

Lemma numeric_dtype_values (s : Series) :
  numeric_dtype s -> Forall numeric_or_missing (values s).
Proof.
  intros [H|H]; destruct s; try discriminate; simpl; apply List.Forall_forall;
    intros c Hc; apply List.in_map_iff in Hc; destruct Hc as [x [<- _]]; simpl; auto.
  destruct x; simpl; auto.
Qed.

(** ** The cleaned frame in closed form *)

Lemma assign_column_nodup (col : string) (s : Series) (cs : list (string * Series)) :
  List.NoDup (List.map fst cs) -> List.NoDup (List.map fst (assign_column col s cs)).
Proof.
  intros Hnd. destruct (in_dec string_dec col (List.map fst cs)) as [Hin|Hout].
  - now rewrite assign_column_names_in.
  - rewrite assign_column_new by assumption. rewrite List.map_app. simpl.
    apply List.NoDup_app; auto.
    + constructor; [simpl; tauto|constructor].
    + intros x Hx [<-|[]]. contradiction.
Qed.

Lemma derive_year_nodup (raw df : DataFrame) :
  List.NoDup (columns raw) -> derive_year raw = Ok df -> List.NoDup (columns df).
Proof.
  unfold derive_year. intros Hnd. destruct (has_column year_field raw).
  - destruct (getitem raw year_field) as [a_o|e]; [|discriminate]. cbn [obind].
    destruct (to_datetime a_o) as [s|e]; [|discriminate]. cbn [obind].
    intros [= <-]. unfold columns, setitem. cbn [data].
    now apply assign_column_nodup.
  - now intros [= <-].
Qed.

Lemma clean_unfold (raw : DataFrame) :
  List.NoDup (columns raw) ->
  clean raw =
  (df <-! derive_year raw;
   Ok (mkDataFrame (index (dropna df)) (List.map coerce_column (data (dropna df))))).
Proof.
  intros Hnd. unfold clean. destruct (derive_year raw) as [df|e] eqn:E; [|reflexivity].
  cbn [obind]. apply coerce_loop_all. unfold dropna.
  rewrite columns_select_rows. eapply derive_year_nodup; eassumption.
Qed.

Lemma clean_inv (raw t : DataFrame) :
  List.NoDup (columns raw) -> clean raw = Ok t ->
  exists df, derive_year raw = Ok df /\
             t = mkDataFrame (index (dropna df))
                             (List.map coerce_column (data (dropna df))).
Proof.
  intros Hnd. rewrite clean_unfold by assumption.
  destruct (derive_year raw) as [df|e]; [|discriminate].
  cbn [obind]. intros [= <-]. now exists df.
Qed.

(** ** Rows kept by [dropna] *)

Lemma select_submask {A} (f : cell -> bool) (xs : list cell) (m : list bool) (l : list A) (x : A) :
  In x (select (List.map (fun p => f (fst p) && snd p) (combine xs m)) l) ->
  In x (select m l).
Proof.
  revert m l. induction xs as [|c xs IH]; intros [|b m] [|y l]; simpl; try tauto.
  destruct (f c), b; simpl; intros H; try (destruct H as [H|H]); eauto.
Qed.

Lemma select_own_mask (f : cell -> bool) (xs : list cell) (m : list bool) (x : cell) :
  In x (select (List.map (fun p => f (fst p) && snd p) (combine xs m)) xs) ->
  f x = true.
Proof.
  revert m. induction xs as [|c xs IH]; intros [|b m]; simpl; try tauto.
  destruct (f c) eqn:E, b; simpl; intros H; try (destruct H as [H|H]); subst; eauto.
Qed.

Lemma complete_rows_notna (n : nat) (cs : list (string * Series)) (col : string)
      (s : Series) (c : cell) :
  In (col, s) cs -> In c (select (complete_rows n cs) (values s)) -> notna c = true.
Proof.
  induction cs as [|[c0 s0] cs IH]; simpl; [tauto|].
  intros [H|H] Hc.
  - injection H as -> ->. eapply select_own_mask; eassumption.
  - apply IH; [assumption|]. eapply select_submask; eassumption.
Qed.

Lemma dropna_no_missing (df : DataFrame) : no_missing (dropna df).
Proof.
  intros col s Hin c Hc. unfold dropna, select_rows in Hin. cbn [data] in Hin.
  apply List.in_map_iff in Hin. destruct Hin as [[c0 s0] [E Hin]].
  cbn [fst snd] in E. injection E as <- <-.
  rewrite values_select in Hc.
  apply (complete_rows_notna _ _ _ _ _ Hin) in Hc.
  unfold notna in Hc. now destruct (isna c).
Qed.

Lemma complete_rows_all (n : nat) (cs : list (string * Series)) :
  Forall (fun p => List.length (values (snd p)) = n) cs ->
  (forall col s, In (col, s) cs -> forall c, In c (values s) -> isna c = false) ->
  complete_rows n cs = repeat true n.
Proof.
  induction cs as [|[c0 s0] cs IH]; intros Hlen Hno; simpl; [reflexivity|].
  pose proof (List.Forall_inv Hlen) as Hl. cbn [snd] in Hl.
  pose proof (List.Forall_inv_tail Hlen) as Hlen'.
  rewrite IH; [|assumption|intros col s H; apply (Hno col s); now right].
  assert (Hs0 : forall c, In c (values s0) -> isna c = false).
  { apply (Hno c0 s0). now left. }
  rewrite <- Hl. clear -Hs0.
  induction (values s0) as [|x xs IHx]; simpl; [reflexivity|].
  unfold notna. rewrite (Hs0 x) by now left. simpl. f_equal.
  apply IHx. intros; apply Hs0; now right.
Qed.

Lemma select_all_true {A} (l : list A) :
  select (repeat true (List.length l)) l = l.
Proof. induction l; simpl; congruence. Qed.

Lemma select_series_all_true (s : Series) :
  select_series (repeat true (List.length (values s))) s = s.
Proof.
  destruct s; simpl; rewrite ?List.length_map; now rewrite select_all_true.
Qed.

(** A well-formed frame without missing values is left as it is. *)
Lemma dropna_id (df : DataFrame) :
  Forall (fun p => List.length (values (snd p)) = len df) (data df) ->
  no_missing df -> dropna df = df.
Proof.
  intros Hlen Hno. unfold dropna. rewrite complete_rows_all; try assumption.
  destruct df as [idx cs]. unfold select_rows, len in *. cbn [index data] in *.
  rewrite select_all_true. f_equal.
  induction cs as [|[c s] cs IH]; simpl; [reflexivity|].
  pose proof (List.Forall_inv Hlen) as Hl. cbn [snd] in Hl.
  pose proof (List.Forall_inv_tail Hlen) as Hlen'.
  rewrite <- Hl at 1. rewrite select_series_all_true. f_equal.
  apply IH; [assumption|]. intros col s' H. apply (Hno col s'). now right.
Qed.

(** ** Frames built from records *)

Lemma first_appearance_nodup (l acc : list string) :
  List.NoDup acc ->
  List.NoDup (fold_left (fun seen k => if existsb (String.eqb k) seen
                                       then seen else seen ++ [k]) l acc).
Proof.
  revert acc. induction l as [|k l IH]; intros acc Hacc; simpl; [assumption|].
  apply IH. destruct (existsb (String.eqb k) acc) eqn:E; [assumption|].
  apply List.NoDup_app; [assumption|constructor; [simpl; tauto|constructor]|].
  intros x Hx [<-|[]].
  assert (Hex : existsb (String.eqb k) acc = true).
  { apply existsb_exists. exists k. split; [assumption|apply String.eqb_refl]. }
  congruence.
Qed.

(** Every frame built from the records of the endpoint is a raw frame. *)
Lemma DataFrame_of_records_raw_frame (rows : list (list (string * string))) :
  raw_frame (DataFrame_of_records rows).
Proof.
  unfold raw_frame, well_formed, DataFrame_of_records, columns, len.
  cbn [index data]. rewrite List.map_map. cbn [fst]. rewrite List.map_id.
  split; [split|].
  - apply first_appearance_nodup. constructor.
  - apply List.Forall_forall. intros p Hp. apply List.in_map_iff in Hp.
    destruct Hp as [k [<- _]]. cbn [snd values].
    now rewrite List.length_map, List.length_seq.
  - apply List.Forall_forall. intros p Hp. apply List.in_map_iff in Hp.
    destruct Hp as [k [<- _]]. cbn [snd]. eexists. split; [reflexivity|].
    apply List.Forall_forall. intros c Hc. apply List.in_map_iff in Hc.
    destruct Hc as [row [<- _]]. now destruct (assoc k row).
Qed.

(** ** Claims on the cleaned frame *)

Lemma clean_sample : clean sample_raw = Ok sample_clean.
Proof. vm_compute. reflexivity. Qed.

Lemma sample_raw_frame : raw_frame sample_raw.
Proof. apply DataFrame_of_records_raw_frame. Qed.

Lemma sample_raw_nodup : List.NoDup (columns sample_raw).
Proof. exact (proj1 (proj1 sample_raw_frame)). Qed.

(** C1, as stated, fails: after cleaning the two sample records the
    second row holds a missing value in column tasa. *)
Lemma clean_leaves_missing_values :
  exists t, clean sample_raw = Ok t /\ ~ no_missing t.
Proof.
  exists sample_clean. split; [exact clean_sample|].
  intros H.
  specialize (H "tasa" (Float64Series [Some (25 # 2)%Q; None])).
  assert (Hin : In ("tasa", Float64Series [Some (25 # 2)%Q; None]) (data sample_clean)).
  { simpl. auto. }
  specialize (H Hin NaN). simpl in H. discriminate H. auto.
Qed.

(** C1, amended: every row of the cleaned frame is a row that had no
    missing value in any column (the derived year included) when the rows were
    dropped; the categorical columns of the cleaned frame hold no missing
    value; every other column is the numeric coercion of a column without
    missing values, so a missing marker stands only where a present value was
    not a number. *)
Theorem clean_missing_only_by_coercion (raw t : DataFrame) :
  List.NoDup (columns raw) ->
  clean raw = Ok t ->
  exists df,
    derive_year raw = Ok df /\
    no_missing (dropna df) /\
    index t = index (dropna df) /\
    data t = List.map coerce_column (data (dropna df)) /\
    (forall col s, In (col, s) (data t) -> is_categorical col = true ->
                   forall c, In c (values s) -> isna c = false).
Proof.
  intros Hnd Hclean. destruct (clean_inv raw t Hnd Hclean) as [df [Hdf ->]].
  exists df. cbn [index data]. repeat split; try assumption.
  - apply dropna_no_missing.
  - intros col s Hin Hcat c Hc.
    apply List.in_map_iff in Hin. destruct Hin as [[c0 s0] [E Hin]].
    unfold coerce_column in E. cbn [fst snd] in E.
    destruct (is_categorical c0) eqn:E0.
    + injection E as <- <-. eapply dropna_no_missing; eassumption.
    + injection E as <- _. congruence.
Qed.

Lemma clean_missing_only_by_coercion_witness :
  exists df,
    derive_year sample_raw = Ok df /\
    no_missing (dropna df) /\
    index sample_clean = index (dropna df) /\
    data sample_clean = List.map coerce_column (data (dropna df)) /\
    (forall col s, In (col, s) (data sample_clean) -> is_categorical col = true ->
                   forall c, In c (values s) -> isna c = false).
Proof.
  exact (clean_missing_only_by_coercion sample_raw sample_clean
           sample_raw_nodup clean_sample).
Defined.

(** C4: after cleaning, every column outside the categorical exemption
    set has a numeric dtype, and each of its values is a number or the
    missing marker, never a string. *)
Theorem clean_non_categorical_numeric (raw t : DataFrame) :
  List.NoDup (columns raw) ->
  clean raw = Ok t ->
  forall col s, In (col, s) (data t) -> is_categorical col = false ->
    numeric_dtype s /\ Forall numeric_or_missing (values s).
Proof.
  intros Hnd Hclean col s Hin Hcat.
  destruct (clean_inv raw t Hnd Hclean) as [df [_ ->]]. cbn [data] in Hin.
  apply List.in_map_iff in Hin. destruct Hin as [[c0 s0] [E Hin]].
  unfold coerce_column in E. cbn [fst snd] in E.
  destruct (is_categorical c0) eqn:E0.
  - injection E as <- <-. congruence.
  - injection E as <- <-.
    split; [apply to_numeric_numeric|].
    apply numeric_dtype_values, to_numeric_numeric.
Qed.

Lemma clean_non_categorical_numeric_witness :
  numeric_dtype (Float64Series [Some (25 # 2)%Q; None]) /\
  Forall numeric_or_missing (values (Float64Series [Some (25 # 2)%Q; None])).
Proof.
  apply (clean_non_categorical_numeric sample_raw sample_clean
           sample_raw_nodup clean_sample "tasa").
  - simpl. auto.
  - reflexivity.
Defined.

(** ** Year derivation *)


Lemma omap_Forall2 {A B} (f : A -> outcome B) (l : list A) (ys : list B) :
  omap f l = Ok ys -> Forall2 (fun x y => f x = Ok y) l ys.
Proof.
  revert ys. induction l as [|x l IH]; simpl; intros ys.
  - intros [= <-]. constructor.
  - destruct (f x) as [b|e] eqn:E; simpl; [|discriminate].
    destruct (omap f l) as [bs|e]; simpl; [|discriminate].
    intros [= <-]. constructor; auto.
Qed.

Lemma Forall2_omap {A B} (f : A -> outcome B) (l : list A) (ys : list B) :
  Forall2 (fun x y => f x = Ok y) l ys -> omap f l = Ok ys.
Proof.
  induction 1 as [|x y l ys Hx _ IH]; simpl; [reflexivity|].
  now rewrite Hx, IH.
Qed.

Lemma to_datetime_datetime (s r : Series) :
  to_datetime s = Ok r -> exists ts, r = DatetimeSeries ts /\
                                     List.length ts = List.length (values s).
Proof.
  destruct s as [l|l|l|l]; simpl.
  - destruct (omap strptime_cell l) as [ts|e] eqn:E; simpl; [|discriminate].
    intros [= <-]. exists ts. split; [reflexivity|].
    apply omap_Forall2 in E. symmetry. eapply Forall2_length; eassumption.
  - destruct (omap strptime_int l) as [ts|e] eqn:E; simpl; [|discriminate].
    intros [= <-]. exists ts. split; [reflexivity|].
    apply omap_Forall2 in E. rewrite List.length_map.
    symmetry. eapply Forall2_length; eassumption.
  - destruct (omap _ l) as [ts|e] eqn:E; simpl; [|discriminate].
    intros [= <-]. exists ts. split; [reflexivity|].
    apply omap_Forall2 in E. rewrite List.length_map.
    symmetry. eapply Forall2_length; eassumption.
  - intros [= <-]. exists l. now rewrite List.length_map.
Qed.

Lemma getitem_has_column (df : DataFrame) (col : string) (s : Series) :
  lookup_column col (data df) = Some s -> has_column col df = true.
Proof.
  intros H. apply has_column_In. unfold columns.
  apply lookup_column_In in H. change col with (fst (col, s)). now apply List.in_map.
Qed.

Lemma derive_year_present (raw : DataFrame) (a_o : Series) :
  lookup_column year_field (data raw) = Some a_o ->
  derive_year raw = (s <-! to_datetime a_o; Ok (setitem raw year_column s)).
Proof.
  intros H. unfold derive_year, getitem.
  now rewrite (getitem_has_column _ _ _ H), H.
Qed.

Lemma derive_year_absent (raw : DataFrame) :
  has_column year_field raw = false -> derive_year raw = Ok raw.
Proof. intros H. unfold derive_year. now rewrite H. Qed.




(** Whenever the year derivation succeeds, cleaning returns a frame. *)
Lemma clean_returns (raw df : DataFrame) :
  List.NoDup (columns raw) -> derive_year raw = Ok df -> exists t, clean raw = Ok t.
Proof.
  intros Hnd Hdf. rewrite clean_unfold by assumption. rewrite Hdf. simpl. eauto.
Qed.

(** ** The year column after cleaning *)

Lemma lookup_map_coerce (col : string) (cs : list (string * Series)) :
  lookup_column col (List.map coerce_column cs) =
  option_map (coerce_series col) (lookup_column col cs).
Proof.
  induction cs as [|[c s] cs IH]; simpl; [reflexivity|].
  unfold coerce_column at 1. cbn [fst snd].
  destruct (is_categorical c) eqn:Ec; cbn [lookup_column];
    destruct (String.eqb col c) eqn:E; auto;
    apply String.eqb_eq in E; subst; unfold coerce_series; now rewrite Ec.
Qed.

Lemma names_map_coerce (cs : list (string * Series)) :
  List.map fst (List.map coerce_column cs) = List.map fst cs.
Proof.
  rewrite List.map_map. apply List.map_ext. intros [c s].
  unfold coerce_column. cbn [fst snd]. now destruct (is_categorical c).
Qed.

Lemma names_map_select (m : list bool) (cs : list (string * Series)) :
  List.map fst (List.map (fun cs => (fst cs, select_series m (snd cs))) cs) =
  List.map fst cs.
Proof. rewrite List.map_map. reflexivity. Qed.

(** Whenever the raw frame has the year field, the cleaned frame has the
    column Año, and its dtype is int64: the coercion loop has replaced the
    timestamps by their nanosecond counts. *)
Lemma clean_year_column_int64 (raw t : DataFrame) (a_o : Series) :
  List.NoDup (columns raw) ->
  lookup_column year_field (data raw) = Some a_o ->
  clean raw = Ok t ->
  exists zs, lookup_column year_column (data t) = Some (Int64Series zs).
Proof.
  intros Hnd Ha Hclean. destruct (clean_inv raw t Hnd Hclean) as [df [Hdf ->]].
  rewrite (derive_year_present _ _ Ha) in Hdf.
  destruct (to_datetime a_o) as [s|e] eqn:Es; [|discriminate].
  destruct (to_datetime_datetime _ _ Es) as [ts [-> _]].
  cbn [obind] in Hdf. injection Hdf as <-.
  cbn [data]. rewrite lookup_map_coerce. unfold dropna, select_rows. cbn [data].
  rewrite lookup_select_rows. unfold setitem. cbn [data].
  rewrite lookup_assign_same. simpl. eauto.
Qed.

(** C5, evaluated on the sample records: the derived column Año is a
    datetime column when it is assigned (line 124), and an int64 column of
    nanosecond counts in the cleaned frame, because the coercion loop of lines
    128-130 exempts only departamento and municipio. *)
Theorem year_column_becomes_int64_on_sample :
  (exists df, derive_year sample_raw = Ok df /\
     lookup_column year_column (data df) =
     Some (DatetimeSeries [Some 1546300800000000000; Some 1546300800000000000])) /\
  (exists t, clean sample_raw = Ok t /\
     lookup_column year_column (data t) =
     Some (Int64Series [1546300800000000000; 1546300800000000000]) /\
     option_map dtype_of (lookup_column year_column (data t)) <> Some datetime64).
Proof.
  split.
  - eexists. split; vm_compute; reflexivity.
  - exists sample_clean. split; [vm_compute; reflexivity|].
    split; [vm_compute; reflexivity|]. vm_compute. discriminate.
Qed.

(** ** A second cleaning pass *)

Lemma digit_of_spec (a : ascii) (x : Z) :
  digit_of a = Some x ->
  0 <= x <= 9 /\ Ascii.eqb a "-" = false /\ Ascii.eqb a "+" = false /\
  Ascii.eqb a "." = false.
Proof.
  destruct a as [[] [] [] [] [] [] [] []]; vm_compute; intros H;
    try discriminate H; injection H as <-; repeat split; discriminate.
Qed.

Lemma parse_number_four_digits (a b c d : ascii) (x1 x2 x3 x4 : Z) :
  digit_of a = Some x1 -> digit_of b = Some x2 ->
  digit_of c = Some x3 -> digit_of d = Some x4 ->
  parse_number (String a (String b (String c (String d EmptyString)))) =
    NInt (1000 * x1 + 100 * x2 + 10 * x3 + x4) /\
  0 <= 1000 * x1 + 100 * x2 + 10 * x3 + x4 <= 9999.
Proof.
  intros Ea Eb Ec Ed.
  destruct (digit_of_spec _ _ Ea) as (Ha & Ha1 & Ha2 & Ha3).
  destruct (digit_of_spec _ _ Eb) as (Hb & _ & _ & Hb3).
  destruct (digit_of_spec _ _ Ec) as (Hc & _ & _ & Hc3).
  destruct (digit_of_spec _ _ Ed) as (Hd & _ & _ & Hd3).
  split; [|lia]. cbn [parse_number].
  rewrite Ha1, Ha2. unfold parse_unsigned. cbn [split_point].
  rewrite Ha3, Hb3, Hc3, Hd3. cbn [digits_value]. rewrite Ea, Eb, Ec, Ed.
  destruct (int64_range _) eqn:Er.
  - f_equal. lia.
  - exfalso. unfold int64_range in Er.
    apply andb_false_iff in Er. destruct Er as [Er|Er].
    + apply Z.leb_gt in Er. lia.
    + apply Z.ltb_ge in Er. lia.
Qed.

(** A string decodes byte by byte unless it holds a byte beyond ASCII. *)
Lemma code_points_cases (s : string) (cps : list Z) :
  code_points s = Some cps ->
  (exists a, In a (list_ascii_of_string s) /\ 128 <= byte_value a) \/
  cps = List.map byte_value (list_ascii_of_string s).
Proof.
  revert cps. induction s as [|a r IH]; intros cps.
  - intros [= <-]. now right.
  - cbn [code_points list_ascii_of_string]. cbv zeta.
    destruct (byte_value a <? 128) eqn:E.
    + destruct (code_points r) as [cps'|]; [|discriminate].
      cbn [option_map]. intros [= <-].
      destruct (IH cps' eq_refl) as [[a' [Hin Hb]] | ->].
      * left. exists a'. split; [now right|assumption].
      * now right.
    + intros _. left. exists a. split; [now left|]. apply Z.ltb_ge in E. exact E.
Qed.

Lemma high_byte (a : ascii) :
  128 <= byte_value a ->
  digit_of a = None /\ Ascii.eqb a "." = false /\ Ascii.eqb a "-" = false /\
  Ascii.eqb a "+" = false.
Proof.
  intros H. split; [|split; [|split]].
  - unfold digit_of. fold (byte_value a).
    destruct ((48 <=? byte_value a) && (byte_value a <=? 57)) eqn:E; [|reflexivity].
    apply andb_true_iff in E. rewrite !Z.leb_le in E. lia.
  - destruct (Ascii.eqb a ".") eqn:E; [|reflexivity].
    apply Ascii.eqb_eq in E. subst a. vm_compute in H. now elim H.
  - destruct (Ascii.eqb a "-") eqn:E; [|reflexivity].
    apply Ascii.eqb_eq in E. subst a. vm_compute in H. now elim H.
  - destruct (Ascii.eqb a "+") eqn:E; [|reflexivity].
    apply Ascii.eqb_eq in E. subst a. vm_compute in H. now elim H.
Qed.

Lemma digits_value_None (s : string) (a : ascii) (acc : Z) :
  In a (list_ascii_of_string s) -> digit_of a = None -> digits_value s acc = None.
Proof.
  revert acc. induction s as [|c r IH]; intros acc; cbn [list_ascii_of_string digits_value].
  - intros [].
  - intros [->|Hin] Ha; [now rewrite Ha|].
    destruct (digit_of c); [now apply IH|reflexivity].
Qed.

Lemma split_point_In (s : string) (a : ascii) :
  In a (list_ascii_of_string s) -> Ascii.eqb a "." = false ->
  In a (list_ascii_of_string (fst (split_point s))) \/
  exists f, snd (split_point s) = Some f /\ In a (list_ascii_of_string f).
Proof.
  induction s as [|c r IH]; cbn [list_ascii_of_string split_point]; [intros []|].
  intros Hin Ha. destruct (Ascii.eqb c ".") eqn:Ec.
  - right. exists r. split; [reflexivity|]. destruct Hin as [->|Hin]; [congruence|assumption].
  - destruct (split_point r) as [i f] eqn:Er. cbn [fst snd list_ascii_of_string] in *.
    destruct Hin as [->|Hin]; [left; now left|].
    destruct (IH Hin Ha) as [H|H]; [left; now right|now right].
Qed.

Lemma parse_unsigned_not_number (neg : bool) (s : string) (a : ascii) :
  In a (list_ascii_of_string s) -> digit_of a = None -> Ascii.eqb a "." = false ->
  parse_unsigned neg s = NNull.
Proof.
  intros Hin Hd Hp. unfold parse_unsigned.
  pose proof (split_point_In s a Hin Hp) as H.
  destruct (split_point s) as [i [f|]]; cbn [fst snd] in H; cbv beta iota zeta.
  - destruct H as [H|[f' [[= <-] H]]].
    + now rewrite (digits_value_None i a 0 H Hd).
    + rewrite (digits_value_None _ a 0 H Hd). now destruct (digits_value i 0).
  - destruct H as [H|[f' [E _]]]; [|discriminate].
    destruct i as [|c r]; [reflexivity|].
    now rewrite (digits_value_None _ a 0 H Hd).
Qed.

(** A string with a byte beyond ASCII is no number for [to_numeric]. *)
Lemma parse_number_high (s : string) (a : ascii) :
  In a (list_ascii_of_string s) -> 128 <= byte_value a -> parse_number s = NNull.
Proof.
  intros Hin Hb. destruct (high_byte a Hb) as (Hd & Hp & Hm & Hpl).
  destruct s as [|c r]; [reflexivity|]. cbn [parse_number].
  assert (Hr : a <> c -> In a (list_ascii_of_string r)).
  { intros Hne. destruct Hin as [->|Hin]; [congruence|assumption]. }
  destruct (Ascii.eqb c "-") eqn:E1.
  - apply Ascii.eqb_eq in E1. subst c.
    apply (parse_unsigned_not_number _ _ a); auto.
    apply Hr. intros ->. rewrite Ascii.eqb_refl in Hm. discriminate.
  - destruct (Ascii.eqb c "+") eqn:E2.
    + apply Ascii.eqb_eq in E2. subst c.
      apply (parse_unsigned_not_number _ _ a); auto.
      apply Hr. intros ->. rewrite Ascii.eqb_refl in Hpl. discriminate.
    + now apply (parse_unsigned_not_number _ _ a).
Qed.

Lemma decimal_digit_ascii (a : ascii) (x : Z) :
  byte_value a < 128 -> decimal_digit (byte_value a) = Some x -> digit_of a = Some x.
Proof.
  intros H. unfold decimal_digit, digit_of. fold (byte_value a).
  now rewrite (proj2 (Z.ltb_lt _ _) H).
Qed.

(** A year of four digits is an integer for [to_numeric] when the digits
    are ASCII, and not a number otherwise. *)
Lemma parse_year_number (s : string) (y : Z) :
  parse_year s = Some y ->
  (parse_number s = NInt y /\ 0 <= y <= 9999) \/ parse_number s = NNull.
Proof.
  unfold parse_year. destruct (code_points s) as [cps|] eqn:E; [|discriminate].
  destruct (code_points_cases _ _ E) as [[a [Hin Hb]] | ->].
  { intros _. right. now apply (parse_number_high s a). }
  destruct s as [|a [|b [|c [|d [|e r]]]]]; cbn [list_ascii_of_string List.map];
    try discriminate.
  destruct (Z_lt_le_dec (byte_value a) 128) as [Ha|Ha];
    [|intros _; right; apply (parse_number_high _ a); simpl; auto].
  destruct (Z_lt_le_dec (byte_value b) 128) as [Hb|Hb];
    [|intros _; right; apply (parse_number_high _ b); simpl; auto].
  destruct (Z_lt_le_dec (byte_value c) 128) as [Hc|Hc];
    [|intros _; right; apply (parse_number_high _ c); simpl; auto].
  destruct (Z_lt_le_dec (byte_value d) 128) as [Hd|Hd];
    [|intros _; right; apply (parse_number_high _ d); simpl; auto].
  destruct (decimal_digit (byte_value a)) as [x1|] eqn:Ea; [|discriminate].
  destruct (decimal_digit (byte_value b)) as [x2|] eqn:Eb; [|discriminate].
  destruct (decimal_digit (byte_value c)) as [x3|] eqn:Ec; [|discriminate].
  destruct (decimal_digit (byte_value d)) as [x4|] eqn:Ed; [|discriminate].
  intros [= <-]. left.
  apply parse_number_four_digits; now apply decimal_digit_ascii.
Qed.

Lemma Forall2_select {A B} (R : A -> B -> Prop) (m : list bool) (l : list A) (l' : list B) :
  Forall2 R l l' -> Forall2 R (select m l) (select m l').
Proof.
  intros H. revert m. induction H as [|x y l l' Hxy _ IH]; intros [|b m]; simpl;
    try constructor.
  destruct b; [constructor|]; auto.
Qed.

Lemma Forall_select {A} (P : A -> Prop) (m : list bool) (l : list A) :
  Forall P l -> Forall P (select m l).
Proof.
  intros H. apply List.Forall_forall. intros x Hx.
  apply select_In in Hx. revert x Hx. now apply List.Forall_forall.
Qed.

(** The years of the nanosecond clock are floats. *)
Lemma binary64_year (y : Z) :
  1678 <= y <= 2262 -> binary64 (inject_Z y) = inject_Z y.
Proof.
  intros Hy.
  assert (Hall : forallb (fun k => match binary64 (inject_Z (1678 + Z.of_nat k)) with
                                   | Qmake n d => (n =? 1678 + Z.of_nat k) && (d =? 1)%positive
                                   end) (seq 0 585) = true)
    by (vm_compute; reflexivity).
  assert (Hin : In (Z.to_nat (y - 1678)) (seq 0 585)) by (apply in_seq; lia).
  pose proof (proj1 (forallb_forall _ _) Hall _ Hin) as H. cbv beta in H.
  replace (1678 + Z.of_nat (Z.to_nat (y - 1678))) with y in H by lia.
  destruct (binary64 (inject_Z y)) as [n d].
  apply andb_true_iff in H. destruct H as [Hn Hd].
  apply Z.eqb_eq in Hn. apply Pos.eqb_eq in Hd. now subst.
Qed.

(** A year that was kept converts to an integer that parses to the same
    timestamp, or, when its digits are not ASCII, to a missing marker. *)
Lemma year_again_cell (c : cell) (t : option Z) :
  string_or_missing c -> strptime_cell c = Ok t -> t <> None ->
  (exists y, to_numeric_cell c = NInt y /\ strptime_int y = Ok t /\ 1678 <= y <= 2262) \/
  to_numeric_cell c = NNull.
Proof.
  intros Hc Hct Ht. destruct c as [|s|n|q|ns]; simpl in Hc; try contradiction.
  - now right.
  - cbn [strptime_cell to_numeric_cell] in *. unfold strptime_str in Hct.
    destruct (String.eqb s EmptyString || existsb (String.eqb s) nat_strings).
    { injection Hct as <-. contradiction. }
    destruct (parse_year s) as [y|] eqn:Ey; [|discriminate].
    destruct (parse_year_number s y Ey) as [[Hnum Hrange]|Hnull]; [|now right].
    left. exists y. split; [assumption|].
    assert (Hy1 : year_in_bounds y = true).
    { unfold timestamp_of_year in Hct. destruct (year_in_bounds y);
        [reflexivity|discriminate]. }
    unfold year_in_bounds in Hy1. apply andb_true_iff in Hy1.
    destruct Hy1 as [Hlo Hhi]. apply Z.leb_le in Hlo, Hhi.
    split; [|lia]. unfold strptime_int.
    replace (y =? iNaT) with false
      by (symmetry; apply Z.eqb_neq; unfold iNaT; lia).
    replace ((1000 <=? y) && (y <=? 9999)) with true
      by (symmetry; apply andb_true_iff; split; apply Z.leb_le; lia).
    exact Hct.
Qed.

Lemma rederived_present (l : list cell) (ts : list (option Z)) :
  Forall (fun c => notna c = true) l -> List.length l = List.length ts ->
  rederived l ts = ts.
Proof.
  unfold rederived. revert ts. induction l as [|c l IH]; intros [|t ts] Hl Hlen;
    simpl in *; try reflexivity; try discriminate.
  rewrite (List.Forall_inv Hl). f_equal.
  apply IH; [exact (List.Forall_inv_tail Hl)|lia].
Qed.

(** The second year derivation, on the coerced year column of the kept
    rows. *)
Lemma year_again_column (l : list cell) (ts : list (option Z)) :
  Forall2 (fun c t => strptime_cell c = Ok t) l ts ->
  Forall string_or_missing l ->
  Forall (fun t => t <> None) ts ->
  to_datetime (to_numeric (ObjectSeries l)) =
  Ok (DatetimeSeries (rederived (values (to_numeric (ObjectSeries l))) ts)).
Proof.
  intros H2 Hs Hn.
  assert (Hcells : Forall2 (fun c t =>
            (exists y, to_numeric_cell c = NInt y /\ strptime_int y = Ok t /\
                       1678 <= y <= 2262) \/
            (to_numeric_cell c = NNull)) l ts).
  { clear -H2 Hs Hn. induction H2 as [|c t l ts Hct _ IH]; constructor.
    - apply year_again_cell; [exact (List.Forall_inv Hs)|exact Hct|
                              exact (List.Forall_inv Hn)].
    - apply IH; [exact (List.Forall_inv_tail Hs)|exact (List.Forall_inv_tail Hn)]. }
  cbn [to_numeric]. destruct (all_ints (List.map to_numeric_cell l)) as [zs|] eqn:Ez.
  - cbn [to_datetime values].
    assert (Hz : omap strptime_int zs = Ok ts /\ List.length zs = List.length ts).
    { clear -Hcells Ez. revert zs Ez.
      induction Hcells as [|c t l ts Hct _ IH]; intros zs Ez.
      - injection Ez as <-. now split.
      - cbn [List.map all_ints] in Ez.
        destruct Hct as [[y [Hy [Hsi _]]]|Hy]; rewrite Hy in Ez; [|discriminate].
        destruct (all_ints (List.map to_numeric_cell l)) as [zs'|]; [|discriminate].
        cbn [option_map] in Ez. injection Ez as <-.
        destruct (IH zs' eq_refl) as [Ho Hl].
        cbn [omap]. rewrite Hsi. cbn [obind]. rewrite Ho. cbn [obind].
        split; [reflexivity|]. simpl. now rewrite Hl. }
    destruct Hz as [Hz Hl]. rewrite Hz. cbn [obind].
    rewrite rederived_present; [reflexivity| |now rewrite List.length_map].
    apply List.Forall_forall. intros c Hc. apply List.in_map_iff in Hc.
    destruct Hc as [z [<- _]]. reflexivity.
  - cbn [to_datetime values]. clear Ez.
    assert (Hz : omap (fun o => strptime_int (float_as_i8 o))
                      (List.map as_float (List.map to_numeric_cell l)) =
                 Ok (rederived (List.map float_cell
                       (List.map as_float (List.map to_numeric_cell l))) ts)).
    { clear -Hcells. unfold rederived.
      induction Hcells as [|c t l ts Hct _ IH]; [reflexivity|].
      cbn [List.map omap combine]. rewrite IH.
      destruct Hct as [[y [Hy [Hsi Hrange]]]|Hy]; rewrite Hy; cbn [as_float float_cell].
      + rewrite (binary64_year y Hrange). cbn [float_as_i8 inject_Z Qnum Qden].
        rewrite Z.quot_1_r, Hsi. reflexivity.
      + reflexivity. }
    now rewrite Hz.
Qed.

Lemma replace_series_notin (col : string) (s : Series) (cs : list (string * Series)) :
  ~ In col (List.map fst cs) -> List.map (replace_series col s) cs = cs.
Proof.
  induction cs as [|[c s0] cs IH]; simpl; [reflexivity|]. intros H.
  unfold replace_series at 1. cbn [fst].
  destruct (String.eqb col c) eqn:E.
  - apply String.eqb_eq in E. exfalso. auto.
  - f_equal. apply IH. tauto.
Qed.

Lemma assign_column_replace (col : string) (s : Series) (cs : list (string * Series)) :
  List.NoDup (List.map fst cs) -> In col (List.map fst cs) ->
  assign_column col s cs = List.map (replace_series col s) cs.
Proof.
  induction cs as [|[c s0] cs IH]; simpl; [tauto|]. intros Hnd Hin.
  unfold replace_series at 1. cbn [fst].
  pose proof (List.NoDup_cons_iff c (List.map fst cs)) as [Hc _].
  destruct (Hc Hnd) as [Hnotin Hnd'].
  destruct (String.eqb col c) eqn:E.
  - apply String.eqb_eq in E. subst. now rewrite replace_series_notin.
  - f_equal. apply IH; [assumption|]. destruct Hin as [Hin|Hin]; [|assumption].
    apply String.eqb_neq in E. congruence.
Qed.

Lemma coerce_column_coerced (p : string * Series) : coerced (coerce_column p).
Proof.
  unfold coerced, coerce_column. destruct (is_categorical (fst p)) eqn:E.
  - now left.
  - right. apply to_numeric_numeric.
Qed.

Lemma to_numeric_id (s : Series) : numeric_dtype s -> to_numeric s = s.
Proof. intros [H|H]; destruct s; try discriminate; reflexivity. Qed.

Lemma coerced_fixed (m : list bool) (p : string * Series) :
  coerced p ->
  coerce_column (fst p, select_series m (snd p)) = (fst p, select_series m (snd p)).
Proof.
  intros [H|H]; unfold coerce_column; cbn [fst snd].
  - now rewrite H.
  - destruct (is_categorical (fst p)); [reflexivity|].
    rewrite to_numeric_id; [reflexivity|].
    unfold numeric_dtype in *. now rewrite dtype_select.
Qed.

Lemma all_ints_length (l : list number) (zs : list Z) :
  all_ints l = Some zs -> List.length zs = List.length l.
Proof.
  revert zs. induction l as [|x l IH]; simpl; intros zs.
  - now intros [= <-].
  - destruct x; try discriminate. destruct (all_ints l) as [zs'|]; [|discriminate].
    simpl. intros [= <-]. simpl. f_equal. now apply IH.
Qed.

Lemma to_numeric_length (s : Series) :
  List.length (values (to_numeric s)) = List.length (values s).
Proof.
  destruct s as [l|l|l|l]; simpl; try reflexivity.
  - destruct (all_ints _) as [zs|] eqn:E; simpl.
    + rewrite List.length_map. apply all_ints_length in E.
      now rewrite List.length_map in E.
    + now rewrite !List.length_map.
  - now rewrite !List.length_map.
Qed.

Lemma assign_column_Forall (P : string * Series -> Prop) (col : string) (s : Series)
      (cs : list (string * Series)) :
  Forall P cs -> (forall c, P (c, s)) -> Forall P (assign_column col s cs).
Proof.
  intros H Hs. induction cs as [|[c s0] cs IH]; cbn [assign_column].
  - constructor; [apply Hs|constructor].
  - destruct (String.eqb col c).
    + constructor; [apply Hs|exact (List.Forall_inv_tail H)].
    + constructor; [exact (List.Forall_inv H)|].
      apply IH. exact (List.Forall_inv_tail H).
Qed.

Lemma derive_year_lengths (raw df : DataFrame) :
  Forall (fun p => List.length (values (snd p)) = len raw) (data raw) ->
  derive_year raw = Ok df ->
  index df = index raw /\
  Forall (fun p => List.length (values (snd p)) = len raw) (data df).
Proof.
  intros Hlen. unfold derive_year, getitem.
  destruct (has_column year_field raw); [|intros [= <-]; auto].
  destruct (lookup_column year_field (data raw)) as [a_o|] eqn:Ea; [|discriminate].
  cbn [obind]. destruct (to_datetime a_o) as [s|e] eqn:Es; [|discriminate].
  cbn [obind]. intros [= <-]. split; [reflexivity|].
  destruct (to_datetime_datetime _ _ Es) as [ts [-> Hts]].
  assert (Ha : List.length (values a_o) = len raw).
  { apply lookup_column_In in Ea.
    exact (proj1 (List.Forall_forall _ _) Hlen _ Ea). }
  unfold setitem. cbn [data]. apply assign_column_Forall; [assumption|].
  intros c. cbn [snd values]. rewrite List.length_map. congruence.
Qed.

Lemma clean_lengths (x y : DataFrame) :
  well_formed x -> clean x = Ok y ->
  Forall (fun p => List.length (values (snd p)) = len y) (data y).
Proof.
  intros [Hnd Hlen] Hclean.
  destruct (clean_inv x y Hnd Hclean) as [df [Hdf ->]].
  destruct (derive_year_lengths _ _ Hlen Hdf) as [Hidx Hlen'].
  unfold len, dropna, select_rows. cbn [index data].
  rewrite List.map_map. apply List.Forall_forall. intros p Hp.
  apply List.in_map_iff in Hp. destruct Hp as [[c s] [<- Hin]].
  cbn [fst snd].
  assert (Hs : List.length (values s) = List.length (index df)).
  { rewrite Hidx. exact (proj1 (List.Forall_forall _ _) Hlen' _ Hin). }
  unfold coerce_column. cbn [fst snd].
  destruct (is_categorical c); cbn [snd]; rewrite ?to_numeric_length;
    rewrite values_select; now apply select_same_length.
Qed.

Lemma clean_nodup (x y : DataFrame) :
  List.NoDup (columns x) -> clean x = Ok y -> List.NoDup (columns y).
Proof.
  intros Hnd Hclean. destruct (clean_inv x y Hnd Hclean) as [df [Hdf ->]].
  unfold columns, dropna, select_rows. cbn [data].
  rewrite names_map_coerce, names_map_select.
  eapply derive_year_nodup; eassumption.
Qed.

Lemma clean_coerced (x y : DataFrame) :
  List.NoDup (columns x) -> clean x = Ok y -> Forall coerced (data y).
Proof.
  intros Hnd Hclean. destruct (clean_inv x y Hnd Hclean) as [df [Hdf ->]].
  cbn [data]. apply List.Forall_forall. intros p Hp.
  apply List.in_map_iff in Hp. destruct Hp as [p0 [<- _]].
  apply coerce_column_coerced.
Qed.

(** On a frame whose columns are already coerced, dropping rows and
    coercing again only drops rows. *)
Lemma coerce_after_dropna (y : DataFrame) :
  Forall coerced (data y) ->
  mkDataFrame (index (dropna y)) (List.map coerce_column (data (dropna y))) = dropna y.
Proof.
  intros Hc. unfold dropna, select_rows. cbn [index data]. f_equal.
  rewrite List.map_map. apply List.map_ext_in. intros p Hp.
  apply coerced_fixed. exact (proj1 (List.Forall_forall _ _) Hc _ Hp).
Qed.

Lemma has_column_names (col : string) (df df' : DataFrame) :
  columns df' = columns df -> has_column col df' = has_column col df.
Proof. unfold has_column. now intros ->. Qed.

Lemma clean_columns (x y df : DataFrame) :
  derive_year x = Ok df ->
  y = mkDataFrame (index (dropna df)) (List.map coerce_column (data (dropna df))) ->
  columns y = columns df.
Proof.
  intros _ ->. unfold columns, dropna, select_rows. cbn [data].
  now rewrite names_map_coerce, names_map_select.
Qed.

(** *** Row masks *)

Lemma complete_rows_cons (n : nat) (c : string) (s : Series) (r : list (string * Series)) :
  complete_rows n ((c, s) :: r) =
  mask_and (List.map notna (values s)) (complete_rows n r).
Proof.
  cbn [complete_rows]. unfold mask_and.
  generalize (values s) (complete_rows n r). intros l m. revert m.
  induction l as [|x l IH]; intros [|b m]; simpl; try reflexivity.
  now rewrite IH.
Qed.

Lemma mask_and_swap (a b c : list bool) :
  mask_and a (mask_and b c) = mask_and b (mask_and a c).
Proof.
  unfold mask_and. revert b c. induction a as [|x a IH]; intros [|y b] [|z c]; simpl;
    try reflexivity.
  rewrite IH. f_equal. now destruct x, y, z.
Qed.

Lemma mask_and_idem (a c : list bool) :
  mask_and a (mask_and a c) = mask_and a c.
Proof.
  unfold mask_and. revert c. induction a as [|x a IH]; intros [|z c]; simpl;
    try reflexivity.
  rewrite IH. f_equal. now destruct x, z.
Qed.

Lemma mask_and_true (a c : list bool) :
  Forall (fun b => b = true) a -> (List.length c <= List.length a)%nat ->
  mask_and a c = c.
Proof.
  unfold mask_and. revert c. induction a as [|x a IH]; intros [|z c] Ha Hlen; simpl in *;
    try reflexivity; try lia.
  rewrite (List.Forall_inv Ha). cbn [andb]. f_equal.
  apply IH; [exact (List.Forall_inv_tail Ha)|lia].
Qed.

Lemma complete_rows_length (n : nat) (cs : list (string * Series)) :
  Forall (fun p => List.length (values (snd p)) = n) cs ->
  List.length (complete_rows n cs) = n.
Proof.
  induction cs as [|[c s] cs IH]; intros H.
  - apply List.repeat_length.
  - pose proof (List.Forall_inv H) as Hs. cbn [snd] in Hs.
    cbn [complete_rows]. rewrite List.length_map, List.length_combine.
    rewrite (IH (List.Forall_inv_tail H)). lia.
Qed.

(** A row that is complete is present in every column. *)
Lemma complete_rows_absorb (n : nat) (cs : list (string * Series)) (col : string)
      (s : Series) :
  In (col, s) cs ->
  mask_and (List.map notna (values s)) (complete_rows n cs) = complete_rows n cs.
Proof.
  induction cs as [|[c s0] cs IH]; [intros []|].
  intros [H|H]; rewrite complete_rows_cons.
  - injection H as -> ->. apply mask_and_idem.
  - rewrite mask_and_swap. now rewrite (IH H).
Qed.

(** Replacing a column without missing values adds the mask of the new
    column to the row mask. *)
Lemma complete_rows_replace_and (n : nat) (col : string) (s : Series)
      (cs : list (string * Series)) :
  List.NoDup (List.map fst cs) ->
  Forall (fun p => List.length (values (snd p)) = n) cs ->
  In col (List.map fst cs) ->
  (forall s0, In (col, s0) cs -> Forall (fun c => notna c = true) (values s0)) ->
  complete_rows n (List.map (replace_series col s) cs) =
  mask_and (List.map notna (values s)) (complete_rows n cs).
Proof.
  induction cs as [|[c s0] cs IH]; intros Hnd Hlen Hin Hall; [destruct Hin|].
  cbn [List.map] in *. unfold replace_series at 1. cbn [fst snd] in *.
  pose proof (List.NoDup_cons_iff c (List.map fst cs)) as [Hc _].
  destruct (Hc Hnd) as [Hnotin Hnd'].
  pose proof (List.Forall_inv Hlen) as Hs0. cbn [snd] in Hs0.
  pose proof (List.Forall_inv_tail Hlen) as Hlen'.
  destruct (String.eqb col c) eqn:E.
  - apply String.eqb_eq in E. subst c.
    rewrite replace_series_notin by assumption.
    rewrite !complete_rows_cons. f_equal. symmetry. apply mask_and_true.
    + apply List.Forall_forall. intros b Hb. apply List.in_map_iff in Hb.
      destruct Hb as [x [<- Hx]].
      exact (proj1 (List.Forall_forall _ _) (Hall s0 (or_introl eq_refl)) x Hx).
    + rewrite List.length_map, Hs0, complete_rows_length by assumption. lia.
  - rewrite !complete_rows_cons, IH; try assumption.
    + apply mask_and_swap.
    + destruct Hin as [Hin|Hin]; [|assumption].
      subst c. rewrite String.eqb_refl in E. discriminate.
    + intros s1 H1. apply Hall. now right.
Qed.

Lemma rederived_notna (l : list cell) (ts : list (option Z)) :
  List.length l = List.length ts -> Forall (fun t => t <> None) ts ->
  List.map notna (List.map datetime_cell (rederived l ts)) = List.map notna l.
Proof.
  unfold rederived. revert ts. induction l as [|c l IH]; intros [|t ts] Hlen Hts;
    simpl in *; try reflexivity; try discriminate.
  rewrite IH; [|lia|exact (List.Forall_inv_tail Hts)]. f_equal.
  pose proof (List.Forall_inv Hts) as Ht.
  destruct (notna c); [|reflexivity]. destruct t; [reflexivity|contradiction].
Qed.

Lemma select_rederived (m : list bool) (l : list cell) (ts : list (option Z)) :
  mask_and (List.map notna l) m = m ->
  select m (rederived l ts) = select m ts.
Proof.
  unfold mask_and, rederived. revert l ts.
  induction m as [|b m IH]; intros [|c l] [|t ts]; simpl; try reflexivity;
    try discriminate.
  intros H. injection H as Hb Hm. rewrite (IH _ _ Hm).
  destruct b; [|reflexivity]. rewrite andb_true_r in Hb. now rewrite Hb.
Qed.

(** The year derivation on a cleaned frame restores the timestamps of
    the kept rows, except where the coercion of the year field left a missing
    marker. *)
Lemma derive_year_again (x y : DataFrame) (l : list cell) (ts : list (option Z)) :
  raw_frame x ->
  lookup_column year_field (data x) = Some (ObjectSeries l) ->
  omap strptime_cell l = Ok ts ->
  clean x = Ok y ->
  let m := complete_rows (len x) (data (setitem x year_column (DatetimeSeries ts))) in
  let a_o := to_numeric (ObjectSeries (select m l)) in
  lookup_column year_column (data y) =
    Some (Int64Series (List.map (fun o => match o with Some ns => ns | None => iNaT end)
                                (select m ts))) /\
  lookup_column year_field (data y) = Some a_o /\
  Forall (fun t => t <> None) (select m ts) /\
  derive_year y =
    Ok (setitem y year_column (DatetimeSeries (rederived (values a_o) (select m ts)))).
Proof.
  intros [[Hnd Hlen] Hobj] Ha Hts Hclean m a_o.
  destruct (clean_inv x y Hnd Hclean) as [df [Hdf Hy]].
  rewrite (derive_year_present _ _ Ha) in Hdf. simpl in Hdf. rewrite Hts in Hdf.
  cbn [obind] in Hdf. injection Hdf as <-.
  set (df := setitem x year_column (DatetimeSeries ts)) in *.
  assert (Hm : complete_rows (len df) (data df) = m) by reflexivity.
  assert (Hyear : lookup_column year_column (data df) = Some (DatetimeSeries ts)).
  { unfold df, setitem. cbn [data]. apply lookup_assign_same. }
  assert (Hfield : lookup_column year_field (data df) = Some (ObjectSeries l)).
  { unfold df, setitem. cbn [data]. rewrite lookup_assign_other; [assumption|].
    discriminate. }
  assert (Hkept : Forall (fun t => t <> None) (select m ts)).
  { apply List.Forall_forall. intros t Ht ->.
    assert (Hc : In NaN (select m (values (DatetimeSeries ts)))).
    { simpl. rewrite select_map. apply List.in_map_iff. exists None. auto. }
    apply lookup_column_In in Hyear.
    pose proof (complete_rows_notna (len df) _ _ _ _ Hyear Hc) as Hn.
    discriminate Hn. }
  assert (Hy1 : lookup_column year_column (data y) =
                Some (to_numeric (select_series m (DatetimeSeries ts)))).
  { rewrite Hy. cbn [data]. rewrite lookup_map_coerce.
    unfold dropna, select_rows. cbn [data]. rewrite lookup_select_rows, Hyear, Hm.
    reflexivity. }
  assert (Hy2 : lookup_column year_field (data y) = Some a_o).
  { rewrite Hy. cbn [data]. rewrite lookup_map_coerce.
    unfold dropna, select_rows. cbn [data]. rewrite lookup_select_rows, Hfield, Hm.
    reflexivity. }
  split; [|split; [|split]].
  - rewrite Hy1. reflexivity.
  - exact Hy2.
  - exact Hkept.
  - rewrite (derive_year_present _ _ Hy2).
    assert (Hstr : Forall string_or_missing l).
    { apply lookup_column_In in Ha.
      pose proof (proj1 (List.Forall_forall _ _) Hobj _ Ha) as [l' [E Hl']].
      cbn [snd] in E. injection E as <-. exact Hl'. }
    unfold a_o. rewrite (year_again_column (select m l) (select m ts)).
    + reflexivity.
    + apply Forall2_select. now apply omap_Forall2.
    + now apply Forall_select.
    + exact Hkept.
Qed.

(** C9, as stated, fails: cleaning the cleaned sample drops the row in
    which the first pass left a missing value. *)
Lemma clean_not_idempotent_on_sample :
  clean sample_raw = Ok sample_clean /\
  clean sample_clean = Ok sample_twice /\
  sample_twice <> sample_clean.
Proof.
  split; [vm_compute; reflexivity|]. split; [vm_compute; reflexivity|].
  discriminate.
Qed.

(** C9, amended: on the cleaned frame [y] of a fetched frame, a second
    cleaning pass returns [y] without the rows in which the first pass left a
    missing value; it returns [y] itself when [y] has no missing value. *)
Theorem clean_twice (x y : DataFrame) :
  raw_frame x ->
  clean x = Ok y ->
  clean y = Ok (dropna y) /\ (no_missing y -> clean y = Ok y).
Proof.
  intros Hraw Hclean.
  pose proof Hraw as [[Hnd Hlen] Hobj].
  assert (Hmain : clean y = Ok (dropna y)).
  { pose proof (clean_nodup _ _ Hnd Hclean) as HndY.
    pose proof (clean_coerced _ _ Hnd Hclean) as Hco.
    rewrite clean_unfold by assumption.
    destruct (clean_inv x y Hnd Hclean) as [df [Hdf Hy]].
    pose proof (clean_columns _ _ _ Hdf Hy) as Hcols.
    destruct (lookup_column year_field (data x)) as [a_o|] eqn:Ea.
    - assert (Hl : exists l, a_o = ObjectSeries l).
      { apply lookup_column_In in Ea.
        pose proof (proj1 (List.Forall_forall _ _) Hobj _ Ea) as [l [E _]].
        now exists l. }
      destruct Hl as [l ->].
      pose proof Hdf as Hdf'. rewrite (derive_year_present _ _ Ea) in Hdf'.
      simpl in Hdf'. destruct (omap strptime_cell l) as [ts|e] eqn:Ets;
        [|discriminate].
      destruct (derive_year_again x y l ts Hraw Ea Ets Hclean)
        as (Hyear & Hfield & Hkept & Hdy).
      rewrite Hdy. cbn [obind].
      set (ts' := select _ ts) in *.
      set (a_o := to_numeric (ObjectSeries (select _ l))) in *.
      set (Y := DatetimeSeries (rederived (values a_o) ts')).
      pose proof (clean_lengths x y (conj Hnd Hlen) Hclean) as HlenY.
      assert (Hin : In year_column (List.map fst (data y))).
      { apply lookup_column_In in Hyear.
        change year_column with (fst (year_column, Int64Series
          (List.map (fun o => match o with Some ns => ns | None => iNaT end) ts'))).
        now apply List.in_map. }
      assert (Hset : setitem y year_column Y =
                     mkDataFrame (index y) (List.map (replace_series year_column Y) (data y))).
      { unfold setitem. f_equal. now apply assign_column_replace. }
      assert (Hlens : List.length (values a_o) = List.length ts').
      { apply lookup_column_In in Hyear, Hfield.
        pose proof (proj1 (List.Forall_forall _ _) HlenY _ Hyear) as H1.
        pose proof (proj1 (List.Forall_forall _ _) HlenY _ Hfield) as H2.
        cbn [snd values] in H1, H2. rewrite !List.length_map in H1. congruence. }
      assert (Habs : mask_and (List.map notna (values a_o))
                              (complete_rows (len y) (data y)) =
                     complete_rows (len y) (data y)).
      { apply (complete_rows_absorb _ _ year_field). now apply lookup_column_In. }
      assert (Hmask : complete_rows (len y) (List.map (replace_series year_column Y) (data y))
                      = complete_rows (len y) (data y)).
      { rewrite complete_rows_replace_and; try assumption.
        - unfold Y. cbn [values]. now rewrite rederived_notna.
        - intros s0 Hs0. pose proof (In_lookup_column _ _ _ HndY Hs0) as Hs.
          rewrite Hyear in Hs. injection Hs as <-. cbn [values].
          apply List.Forall_forall. intros c Hc. apply List.in_map_iff in Hc.
          destruct Hc as [z [<- _]]. reflexivity. }
      rewrite Hset. unfold dropna at 1 2, select_rows, len. cbn [index data].
      fold (len y). rewrite Hmask.
      unfold dropna, select_rows. fold (len y). f_equal. f_equal.
      rewrite !List.map_map. apply List.map_ext_in. intros [c s] Hp.
      unfold replace_series. cbn [fst snd].
      destruct (String.eqb year_column c) eqn:E.
      * apply String.eqb_eq in E. subst c.
        pose proof (In_lookup_column _ _ _ HndY Hp) as Hs.
        rewrite Hyear in Hs. injection Hs as <-.
        unfold coerce_column, Y. cbn [fst snd select_series to_numeric].
        replace (is_categorical year_column) with false by reflexivity.
        rewrite (select_rederived _ _ _ Habs). now rewrite select_map.
      * apply (coerced_fixed _ (c, s)).
        exact (proj1 (List.Forall_forall _ _) Hco _ Hp).
    - apply lookup_column_None in Ea.
      assert (Hno : has_column year_field y = false).
      { rewrite (has_column_names _ df y Hcols).
        assert (Hx : has_column year_field x = false).
        { destruct (has_column year_field x) eqn:E; [|reflexivity].
          apply has_column_In in E. contradiction. }
        rewrite (derive_year_absent _ Hx) in Hdf. injection Hdf as <-. exact Hx. }
      rewrite (derive_year_absent _ Hno). cbn [obind].
      now rewrite coerce_after_dropna. }
  split; [exact Hmain|].
  intros Hno. rewrite Hmain. f_equal. apply dropna_id; [|assumption].
  apply (clean_lengths x y); [split|]; assumption.
Qed.

Lemma clean_twice_witness :
  clean sample_clean = Ok (dropna sample_clean) /\
  (no_missing sample_clean -> clean sample_clean = Ok sample_clean).
Proof.
  exact (clean_twice sample_raw sample_clean sample_raw_frame clean_sample).
Defined.

(** ** The cleaning step on the application state *)

Lemma coerce_object_run (cols : list string) (r : nat) (d t : DataFrame) (st : app_state) :
  heap st !! r = Some d ->
  coerce_loop cols d = Ok t ->
  coerce_object cols r st =
  (Ok tt, mkState (<[r := t]> (heap st)) (session_state st) (page st)).
Proof.
  revert d st. induction cols as [|col cols IH]; intros d st Hd Hloop;
    cbn [coerce_object coerce_loop] in *.
  - injection Hloop as <-. unfold ret. destruct st as [h ss pg]. cbn in *.
    now rewrite insert_id.
  - destruct (is_categorical col); [now apply (IH d)|].
    destruct (getitem d col) as [s|e] eqn:Es; [|discriminate]. cbn [obind] in Hloop.
    unfold bind at 1, read. rewrite Hd. unfold bind at 1, lift. rewrite Es.
    unfold bind at 1, write.
    rewrite (IH (setitem d col (to_numeric s))); cbn [heap session_state page].
    + now rewrite insert_insert_eq.
    + apply lookup_insert_eq.
    + assumption.
Qed.

(** A run of the cleaning step that does not raise: the object stored
    under 'df' now holds the frame with the derived year, the cleaned frame is
    a new object, stored under 'df_clean'. *)
Lemma clean_step_run (st : app_state) (r : nat) (raw df t : DataFrame) :
  session_state st !! "df" = Some r ->
  heap st !! r = Some raw ->
  derive_year raw = Ok df ->
  coerce_loop (columns (dropna df)) (dropna df) = Ok t ->
  let h := <[r := df]> (heap st) in
  let r' := fresh (dom h) in
  clean_step st =
  (Ok tt, mkState (<[r' := t]> h) (<["df_clean" := r']> (session_state st))
                  (page st ++ [cleaned_message t])).
Proof.
  intros Hs Hr Hdf Hloop h r'. unfold clean_step.
  unfold bind at 1, session_get. rewrite Hs.
  unfold bind at 1, read at 1. rewrite Hr.
  assert (Hyear :
    (if has_column year_field raw
     then a_o <- lift (getitem raw year_field);;
          s <- lift (to_datetime a_o);; write r (setitem raw year_column s)
     else ret tt) st = (Ok tt, mkState h (session_state st) (page st))).
  { unfold derive_year in Hdf. destruct (has_column year_field raw).
    - unfold bind, lift, write. cbv beta.
      destruct (getitem raw year_field) as [a_o|e]; [|discriminate].
      cbn [obind] in Hdf. cbv beta iota.
      destruct (to_datetime a_o) as [s|e]; [|discriminate].
      cbn [obind] in Hdf. injection Hdf as <-. reflexivity.
    - injection Hdf as <-. unfold ret, h. destruct st as [hp ss pg]. cbn in *.
      now rewrite insert_id. }
  unfold bind at 1. rewrite Hyear.
  unfold bind at 1, read at 1. cbn [heap]. unfold h at 1. rewrite lookup_insert_eq.
  unfold bind at 1, new_object. cbn [heap session_state page]. fold h. fold r'.
  unfold bind at 1. unfold bind at 1, read at 1. cbn [heap].
  rewrite lookup_insert_eq. unfold ret at 1.
  unfold bind at 1.
  rewrite (coerce_object_run _ r' (dropna df) t); cbn [heap session_state page].
  - rewrite insert_insert_eq.
    unfold bind at 1, read. cbn [heap]. rewrite lookup_insert_eq.
    unfold bind at 1, show. cbn [heap session_state page].
    unfold session_set. reflexivity.
  - apply lookup_insert_eq.
  - assumption.
Qed.

(** A run in which the year derivation raises stops there and leaves
    the state as it was. *)
Lemma clean_step_raises (st : app_state) (r : nat) (raw : DataFrame) (e : exception) :
  session_state st !! "df" = Some r ->
  heap st !! r = Some raw ->
  derive_year raw = Raise e ->
  clean_step st = (Raise e, st).
Proof.
  intros Hs Hr Hdf. unfold clean_step.
  unfold bind at 1, session_get. rewrite Hs.
  unfold bind at 1, read at 1. rewrite Hr.
  unfold derive_year in Hdf. destruct (has_column year_field raw); [|discriminate].
  unfold bind, lift. cbv beta.
  destruct (getitem raw year_field) as [a_o|e0]; [|now injection Hdf as <-].
  cbn [obind] in Hdf. cbv beta iota.
  destruct (to_datetime a_o) as [s|e0]; [discriminate|]. now injection Hdf as <-.
Qed.

Lemma coerce_loop_total (cols : list string) (d : DataFrame) :
  (forall c, In c cols -> In c (columns d)) ->
  exists t, coerce_loop cols d = Ok t.
Proof.
  revert d. induction cols as [|col cols IH]; intros d Hin; cbn [coerce_loop].
  - eauto.
  - destruct (is_categorical col).
    + apply IH. intros c Hc. apply Hin. now right.
    + assert (Hcol : In col (columns d)) by (apply Hin; now left).
      unfold getitem. destruct (lookup_column col (data d)) as [s|] eqn:E.
      * cbn [obind]. apply IH. intros c Hc. unfold columns, setitem. cbn [data].
        rewrite assign_column_names_in by exact Hcol. apply Hin. now right.
      * apply lookup_column_None in E. contradiction.
Qed.

(** The cleaning step computes [clean] of the stored frame: when [clean]
    returns, the step completes and the new object stored under 'df_clean'
    holds the result; when [clean] raises, the step raises the same exception
    and leaves the state as it was. *)
Lemma clean_step_clean (st : app_state) (r : nat) (raw : DataFrame) :
  session_state st !! "df" = Some r ->
  heap st !! r = Some raw ->
  match clean raw with
  | Ok t =>
      exists st' r', clean_step st = (Ok tt, st') /\ r' <> r /\
                     session_state st' !! "df_clean" = Some r' /\
                     heap st' !! r' = Some t
  | Raise e => clean_step st = (Raise e, st)
  end.
Proof.
  intros Hs Hr. unfold clean.
  destruct (derive_year raw) as [df|e] eqn:Hdf; cbn [obind].
  - destruct (coerce_loop _ (dropna df)) as [t|e] eqn:Ht.
    + pose proof (clean_step_run st r raw df t Hs Hr Hdf Ht) as Hrun.
      cbv zeta in Hrun. set (h := <[r := df]> (heap st)) in *.
      eexists. exists (fresh (dom h)). split; [exact Hrun|].
      cbn [heap session_state]. split; [|split; apply lookup_insert_eq].
      intros E. pose proof (is_fresh (dom h)) as Hf. rewrite E in Hf.
      apply Hf. apply elem_of_dom. unfold h. rewrite lookup_insert_eq. eauto.
    + destruct (coerce_loop_total (columns (dropna df)) (dropna df)) as [t Ht'];
        [auto|congruence].
  - now apply (clean_step_raises st r raw e).
Qed.

(** C10, as stated, fails when a year does not parse: the cleaning step
    raises at the year derivation, before the assignment, and the frame stored
    under 'df' is as it was, with the year field and without Año. *)
Lemma clean_step_leaves_raw_on_bad_year :
  clean_step bad_year_state =
    (Raise (ValueError "time data doesn't match format %Y"), bad_year_state) /\
  heap bad_year_state !! 0%nat = Some bad_year_raw /\
  has_column year_field bad_year_raw = true /\
  has_column year_column bad_year_raw = false.
Proof. repeat split; vm_compute; reflexivity. Qed.

(** C10, amended: the cleaning step works on the object stored under
    'df' itself.  For a stored frame with the year field whose year values
    parse, the step completes, and afterwards the stored raw frame holds Año,
    a datetime column, added as its last column when it had no such column;
    its other columns and its rows are as before, and the cleaned frame is
    another object.  When a year value does not parse, the step raises before
    the assignment and leaves the state as it was. *)
Theorem clean_step_adds_year_to_raw
        (st : app_state) (r : nat) (raw : DataFrame) (a_o : Series) :
  session_state st !! "df" = Some r ->
  heap st !! r = Some raw ->
  lookup_column year_field (data raw) = Some a_o ->
  (forall s, to_datetime a_o = Ok s ->
     exists st' raw',
       clean_step st = (Ok tt, st') /\
       session_state st' !! "df" = Some r /\
       heap st' !! r = Some raw' /\
       index raw' = index raw /\
       lookup_column year_column (data raw') = Some s /\
       dtype_of s = datetime64 /\
       (forall col, col <> year_column ->
                    lookup_column col (data raw') = lookup_column col (data raw)) /\
       (~ In year_column (columns raw) ->
        data raw' = data raw ++ [(year_column, s)]) /\
       exists r' t, r' <> r /\ session_state st' !! "df_clean" = Some r' /\
                    heap st' !! r' = Some t /\ clean raw = Ok t) /\
  (forall e, to_datetime a_o = Raise e -> clean_step st = (Raise e, st)).
Proof.
  intros Hs Hr Ha. split.
  - intros s Hto.
    assert (Hdf : derive_year raw = Ok (setitem raw year_column s)).
    { rewrite (derive_year_present _ _ Ha). now rewrite Hto. }
    destruct (coerce_loop_total (columns (dropna (setitem raw year_column s)))
                (dropna (setitem raw year_column s))) as [t Ht]; [auto|].
    pose proof (clean_step_run st r raw _ t Hs Hr Hdf Ht) as Hrun.
    cbv zeta in Hrun.
    set (h := <[r := setitem raw year_column s]> (heap st)) in *.
    assert (Hfresh : fresh (dom h) <> r).
    { intros E. pose proof (is_fresh (dom h)) as Hf. rewrite E in Hf.
      apply Hf. apply elem_of_dom. unfold h. rewrite lookup_insert_eq. eauto. }
    eexists. exists (setitem raw year_column s).
    split; [exact Hrun|]. cbn [heap session_state page].
    split; [rewrite lookup_insert_ne; [assumption|discriminate]|].
    split; [rewrite lookup_insert_ne by assumption; unfold h;
            now rewrite lookup_insert_eq|].
    split; [reflexivity|].
    split; [apply lookup_assign_same|].
    split; [destruct (to_datetime_datetime _ _ Hto) as [ts [-> _]]; reflexivity|].
    split; [intros col Hcol; now apply lookup_assign_other|].
    split; [intros Hnew; unfold setitem; cbn [data]; now apply assign_column_new|].
    exists (fresh (dom h)), t. split; [assumption|].
    split; [apply lookup_insert_eq|]. split; [apply lookup_insert_eq|].
    unfold clean. now rewrite Hdf.
  - intros e Hto. apply (clean_step_raises st r raw e Hs Hr).
    rewrite (derive_year_present _ _ Ha). now rewrite Hto.
Qed.

Lemma clean_step_adds_year_to_raw_witness :
  (forall s, to_datetime (ObjectSeries [Str "2019"; Str "2019"]) = Ok s ->
     exists st' raw',
       clean_step sample_state = (Ok tt, st') /\
       session_state st' !! "df" = Some 0%nat /\
       heap st' !! 0%nat = Some raw' /\
       index raw' = index sample_raw /\
       lookup_column year_column (data raw') = Some s /\
       dtype_of s = datetime64 /\
       (forall col, col <> year_column ->
                    lookup_column col (data raw') = lookup_column col (data sample_raw)) /\
       (~ In year_column (columns sample_raw) ->
        data raw' = data sample_raw ++ [(year_column, s)]) /\
       exists r' t, r' <> 0%nat /\ session_state st' !! "df_clean" = Some r' /\
                    heap st' !! r' = Some t /\ clean sample_raw = Ok t) /\
  (forall e, to_datetime (ObjectSeries [Str "2019"; Str "2019"]) = Raise e ->
             clean_step sample_state = (Raise e, sample_state)).
Proof.
  apply (clean_step_adds_year_to_raw sample_state 0%nat sample_raw
           (ObjectSeries [Str "2019"; Str "2019"])).
  - reflexivity.
  - reflexivity.
  - reflexivity.
Defined.

(** ** Filtering by department *)





Lemma select_self {A} (f : A -> bool) (l : list A) :
  select (List.map f l) l = List.filter f l.
Proof. induction l as [|x l IH]; simpl; [reflexivity|]. destruct (f x); now rewrite IH. Qed.



(** ** Aggregation *)

Lemma firstn_In {A} (n : nat) (l : list A) (x : A) : In x (firstn n l) -> In x l.
Proof.
  revert n. induction l as [|y l IH]; intros [|n]; simpl; try tauto.
  intros [H|H]; eauto.
Qed.

Section Sorting.
Context {A : Type} (le : A -> A -> bool).
Hypothesis le_total : forall x y, le x y = true \/ le y x = true.
Hypothesis le_trans : forall x y z, le x y = true -> le y z = true -> le x z = true.

Let R (x y : A) : Prop := le x y = true.

Lemma insert_by_In (x y : A) (l : list A) :
  In y (insert_by le x l) -> y = x \/ In y l.
Proof.
  induction l as [|z l IH]; simpl.
  - intros [<-|[]]. now left.
  - destruct (le x z); simpl; intros [H|H]; auto.
    destruct (IH H); auto.
Qed.

Lemma sort_by_In (y : A) (l : list A) : In y (sort_by le l) -> In y l.
Proof.
  induction l as [|x l IH]; simpl; [tauto|].
  intros H. apply insert_by_In in H. destruct H; auto.
Qed.



End Sorting.

Lemma unique_In (l seen : list cell) (x : cell) :
  In x (fold_left (fun seen c => if existsb (cell_eq c) seen then seen else seen ++ [c])
                  l seen) ->
  In x seen \/ In x l.
Proof.
  revert seen. induction l as [|c l IH]; simpl; intros seen H; [now left|].
  apply IH in H. destruct H as [H|H]; [|now right; right].
  destruct (existsb (cell_eq c) seen); [now left|].
  apply in_app_or in H. destruct H as [H|[<-|[]]]; auto.
Qed.

(** The group labels are non-missing values of the division column. *)
Lemma group_labels_In (keys : list cell) (k : cell) :
  In k (group_labels keys) -> In k keys /\ isna k = false.
Proof.
  unfold group_labels. intros H. apply sort_by_In in H. unfold unique in H.
  apply unique_In in H. destruct H as [[]|H].
  apply List.filter_In in H. destruct H as [H1 H2]. split; [assumption|].
  unfold notna in H2. now destruct (isna k).
Qed.



(** ** The fetcher *)

Lemma fetch_failure_raises (requests_get : string -> outcome Response) (limit : Z) :
  fetch_failure requests_get limit -> exists e, fetch requests_get limit = Raise e.
Proof.
  intros [e He|r Hr Hst|r e Hr Hj|r e Hr Hj]; unfold fetch; rewrite ?He, ?Hr;
    cbn [obind]; eauto.
  - unfold raise_for_status.
    destruct ((400 <=? status_code r) && (status_code r <? 500)) eqn:E4;
      cbn [obind]; eauto.
    replace ((500 <=? status_code r) && (status_code r <? 600)) with true;
      cbn [obind]; eauto.
    symmetry. apply andb_true_iff. apply andb_false_iff in E4.
    rewrite Z.leb_le, Z.ltb_lt. destruct E4 as [E4|E4];
      [apply Z.leb_gt in E4|apply Z.ltb_ge in E4]; lia.
  - destruct (raise_for_status _ r); cbn [obind]; eauto.
    rewrite Hj. cbn [obind]. eauto.
  - destruct (raise_for_status _ r); cbn [obind]; eauto.
    rewrite Hj. cbn [obind]. eauto.
Qed.

(** C2, as stated, fails for a status that is neither 2xx nor an error
    status: a 300 response (returned as it is when it names no location)
    with a decodable body is loaded like a successful one, and no error is
    reported. *)
Lemma load_accepts_status_300 :
  load_data_from_api redirect_get 50000 initial_state = (Ok sample_raw, initial_state) /\
  empty sample_raw = false.
Proof. split; vm_compute; reflexivity. Qed.

(** C2, amended: when the request raises (connection refused, timeout),
    when the status is a 4xx or 5xx code, when the body does not decode or
    no frame can be built from it, [load_data_from_api] shows one error
    message, changes nothing else, and returns the empty frame (no rows, no
    columns) instead of raising.  (Other statuses outside 2xx are not
    treated as failures.) *)
Theorem load_failure_gives_empty_frame
        (requests_get : string -> outcome Response) (limit : Z) (st : app_state) :
  fetch_failure requests_get limit ->
  exists text,
    load_data_from_api requests_get limit st =
      (Ok empty_frame,
       mkState (heap st) (session_state st) (page st ++ [st_error text])) /\
    len empty_frame = 0%nat /\ columns empty_frame = [].
Proof.
  intros Hf. destruct (fetch_failure_raises _ _ Hf) as [e He].
  unfold load_data_from_api. rewrite He.
  destruct (is_RequestException e); eexists; (split; [reflexivity|split; reflexivity]).
Qed.

Lemma load_failure_gives_empty_frame_witness :
  exists text,
    load_data_from_api refused_get 50000 initial_state =
      (Ok empty_frame,
       mkState (heap initial_state) (session_state initial_state)
               (page initial_state ++ [st_error text])) /\
    len empty_frame = 0%nat /\ columns empty_frame = [].
Proof.
  apply (load_failure_gives_empty_frame refused_get 50000 initial_state).
  apply (request_raises refused_get 50000 (ConnectionError "Connection refused")).
  reflexivity.
Defined.

(** ** The empty table *)

(** C8, as stated, fails in its second half: cleaning the empty frame
    gives the empty frame, but the aggregation on it raises KeyError,
    because the frame has no departamento column to group by. *)
Lemma aggregation_raises_on_empty_frame :
  clean empty_frame = Ok empty_frame /\
  deptos_avg empty_frame "tasa" = Raise (KeyError "departamento").
Proof. split; reflexivity. Qed.

(** C8, amended: cleaning the empty frame yields the empty frame without
    raising; the aggregation applied to it raises KeyError for the missing
    departamento column, whatever the metric; and the dashboard never gets
    there: after an empty response the load step stores nothing in the
    session, so the cleaning and aggregation steps are skipped and only the
    warning is shown. *)
Theorem empty_frame_pipeline :
  clean empty_frame = Ok empty_frame /\
  (forall metric n,
     top_n_by_mean empty_frame metric n = Raise (KeyError division_column)) /\
  (forall metric,
     (load_step empty_get true ;;; clean_step ;;; aggregate_step metric) initial_state
     = (Ok None, mkState ∅ ∅ [no_data_warning])).
Proof.
  split; [reflexivity|]. split; [reflexivity|]. intros metric. reflexivity.
Qed.

(** ** The frame of a successful fetch *)

Lemma first_appearance_In (l acc : list string) (k : string) :
  In k (fold_left (fun seen k => if existsb (String.eqb k) seen
                                 then seen else seen ++ [k]) l acc) <->
  In k acc \/ In k l.
Proof.
  revert acc. induction l as [|x l IH]; intros acc; simpl; [tauto|].
  rewrite IH. destruct (existsb (String.eqb x) acc) eqn:E.
  - apply existsb_exists in E. destruct E as [y [Hy E]].
    apply String.eqb_eq in E. subst y.
    split; [tauto|]. intros [H|[<-|H]]; auto.
  - rewrite List.in_app_iff. simpl. tauto.
Qed.

Lemma record_keys_In (rows : list (list (string * string))) (k : string) :
  In k (record_keys rows) <-> exists row v, In row rows /\ In (k, v) row.
Proof.
  unfold record_keys. rewrite first_appearance_In. simpl. split.
  - intros [[]|H]. apply List.in_concat in H. destruct H as [ks [Hks Hk]].
    apply List.in_map_iff in Hks. destruct Hks as [row [<- Hrow]].
    apply List.in_map_iff in Hk. destruct Hk as [[k' v] [E Hkv]].
    simpl in E. subst k'. eauto.
  - intros [row [v [Hrow Hkv]]]. right. apply List.in_concat.
    exists (List.map fst row). split; [now apply List.in_map|].
    change k with (fst (k, v)). now apply List.in_map.
Qed.

Lemma columns_of_records (rows : list (list (string * string))) :
  columns (DataFrame_of_records rows) = record_keys rows.
Proof.
  unfold columns, DataFrame_of_records. cbn [data].
  rewrite List.map_map. cbn [fst]. apply List.map_id.
Qed.

Lemma lookup_column_built (f : string -> Series) (keys : list string) (k : string) :
  In k keys ->
  lookup_column k (List.map (fun k => (k, f k)) keys) = Some (f k).
Proof.
  induction keys as [|x keys IH]; simpl; [tauto|].
  intros H. destruct (String.eqb k x) eqn:E.
  - apply String.eqb_eq in E. now subst.
  - apply IH. destruct H as [H|H]; [|assumption].
    apply String.eqb_neq in E. congruence.
Qed.

Lemma raise_for_status_passes (url : string) (r : Response) :
  ~ 400 <= status_code r < 600 -> raise_for_status url r = Ok tt.
Proof.
  intros H. unfold raise_for_status.
  destruct ((400 <=? status_code r) && (status_code r <? 500)) eqn:E4.
  - apply andb_true_iff in E4. rewrite Z.leb_le, Z.ltb_lt in E4. lia.
  - destruct ((500 <=? status_code r) && (status_code r <? 600)) eqn:E5;
      [|reflexivity].
    apply andb_true_iff in E5. rewrite Z.leb_le, Z.ltb_lt in E5. lia.
Qed.

Lemma fetch_records (requests_get : string -> outcome Response) (limit : Z)
      (r : Response) (rows : list (list (string * string))) :
  requests_get (api_url limit) = Ok r ->
  ~ 400 <= status_code r < 600 ->
  json r = Ok (Records rows) ->
  fetch requests_get limit = Ok (DataFrame_of_records rows).
Proof.
  intros Hr Hst Hj. unfold fetch. rewrite Hr. cbn [obind].
  rewrite (raise_for_status_passes _ _ Hst). cbn [obind]. rewrite Hj. reflexivity.
Qed.

(** X1: when the reply has no error status and its body is an array of
    records, [load_data_from_api] returns, without showing anything, a frame
    with one row per record, labelled 0, 1, ...; its columns are the keys that
    occur in some record, each once; the cell of a record under a key is the
    value the record gives to the key, and the missing marker when the record
    lacks the key. *)
Theorem load_returns_one_row_per_record
        (requests_get : string -> outcome Response) (limit : Z) (st : app_state)
        (r : Response) (rows : list (list (string * string))) :
  requests_get (api_url limit) = Ok r ->
  ~ 400 <= status_code r < 600 ->
  json r = Ok (Records rows) ->
  exists df,
    load_data_from_api requests_get limit st = (Ok df, st) /\
    index df = seq 0 (List.length rows) /\
    List.NoDup (columns df) /\
    (forall k, In k (columns df) <-> exists row v, In row rows /\ In (k, v) row) /\
    (forall k i row, In k (columns df) -> nth_error rows i = Some row ->
       exists s, lookup_column k (data df) = Some s /\
                 nth_error (values s) i =
                 Some (match assoc k row with Some v => Str v | None => NaN end)).
Proof.
  intros Hr Hst Hj. exists (DataFrame_of_records rows).
  split; [|split; [reflexivity|split; [|split]]].
  - unfold load_data_from_api. now rewrite (fetch_records _ _ _ _ Hr Hst Hj).
  - exact (proj1 (proj1 (DataFrame_of_records_raw_frame rows))).
  - intros k. rewrite columns_of_records. apply record_keys_In.
  - intros k i row Hk Hrow. rewrite columns_of_records in Hk.
    eexists. split.
    + unfold DataFrame_of_records. cbn [data].
      apply (lookup_column_built
               (fun k => ObjectSeries (List.map (fun row =>
                  match assoc k row with Some v => Str v | None => NaN end) rows))).
      exact Hk.
    + cbn [values]. rewrite List.nth_error_map, Hrow. reflexivity.
Qed.

Lemma load_returns_one_row_per_record_witness :
  exists df,
    load_data_from_api sample_get 50000 initial_state = (Ok df, initial_state) /\
    index df = seq 0 (List.length sample_rows) /\
    List.NoDup (columns df) /\
    (forall k, In k (columns df) <->
               exists row v, In row sample_rows /\ In (k, v) row) /\
    (forall k i row, In k (columns df) -> nth_error sample_rows i = Some row ->
       exists s, lookup_column k (data df) = Some s /\
                 nth_error (values s) i =
                 Some (match assoc k row with Some v => Str v | None => NaN end)).
Proof.
  apply (load_returns_one_row_per_record sample_get 50000 initial_state
           (mkResponse 200 "OK" (Ok (Records sample_rows))) sample_rows).
  - reflexivity.
  - simpl. lia.
  - reflexivity.
Defined.

(** ** The load step *)

Lemma empty_of_records (rows : list (list (string * string))) :
  empty (DataFrame_of_records rows) = false <-> has_field rows.
Proof.
  unfold empty, len, DataFrame_of_records, has_field. cbn [index data].
  rewrite List.length_seq, List.length_map. rewrite orb_false_iff.
  rewrite !Nat.eqb_neq. split.
  - intros [_ Hk]. destruct (record_keys rows) as [|k ks] eqn:E; [now elim Hk|].
    assert (Hin : In k (record_keys rows)) by (rewrite E; now left).
    apply record_keys_In in Hin. destruct Hin as [row [v [H1 H2]]]. eauto.
  - intros [row [k [v [H1 H2]]]]. split.
    + destruct rows; [destruct H1|simpl; lia].
    + assert (Hin : In k (record_keys rows)) by (apply record_keys_In; eauto).
      destruct (record_keys rows); [destruct Hin|simpl; lia].
Qed.

(** X2: a fetch that fails leaves the session and every stored frame as
    they were: the load step shows the error and the no-data warning, and
    a frame loaded earlier stays under 'df'. *)
Theorem failed_reload_keeps_session
        (requests_get : string -> outcome Response) (st : app_state) :
  fetch_failure requests_get 50000 ->
  exists text,
    load_step requests_get true st =
    (Ok tt, mkState (heap st) (session_state st)
                    (page st ++ [st_error text; no_data_warning])).
Proof.
  intros Hf. destruct (fetch_failure_raises _ _ Hf) as [e He].
  unfold load_step, load_data_from_api. rewrite He.
  destruct (is_RequestException e); eexists; unfold bind, show, ret;
    cbn [heap session_state page empty_frame empty len index data List.length
         Nat.eqb orb negb]; rewrite <- List.app_assoc; reflexivity.
Qed.

Lemma failed_reload_keeps_session_witness :
  exists text,
    load_step server_error_get true sample_state =
    (Ok tt, mkState (heap sample_state) (session_state sample_state)
                    (page sample_state ++ [st_error text; no_data_warning])).
Proof.
  apply (failed_reload_keeps_session server_error_get sample_state).
  apply (error_status server_error_get 50000
           (mkResponse 503 "Service Unavailable" (Ok (Records sample_rows)))).
  - reflexivity.
  - simpl. lia.
Defined.

(** X3: after a fetch that returns records with at least one field, the
    load step has stored the fetched frame under 'df' as a new object; the
    objects already in the heap are untouched, and a frame left under
    'df_clean' by an earlier run is still there. *)
Theorem load_step_stores_fetched_frame
        (requests_get : string -> outcome Response) (st : app_state)
        (r : Response) (rows : list (list (string * string))) :
  requests_get (api_url 50000) = Ok r ->
  ~ 400 <= status_code r < 600 ->
  json r = Ok (Records rows) ->
  has_field rows ->
  exists st' o,
    load_step requests_get true st = (Ok tt, st') /\
    heap st !! o = None /\
    session_state st' !! "df" = Some o /\
    heap st' !! o = Some (DataFrame_of_records rows) /\
    (forall o', o' <> o -> heap st' !! o' = heap st !! o') /\
    session_state st' !! "df_clean" = session_state st !! "df_clean" /\
    page st' = page st ++ [loaded_message (DataFrame_of_records rows)].
Proof.
  intros Hr Hst Hj Hrows.
  exists (mkState (<[fresh (dom (heap st)) := DataFrame_of_records rows]> (heap st))
                  (<["df" := fresh (dom (heap st))]> (session_state st))
                  (page st ++ [loaded_message (DataFrame_of_records rows)])).
  exists (fresh (dom (heap st))). split.
  - unfold load_step, load_data_from_api.
    rewrite (fetch_records _ _ _ _ Hr Hst Hj). unfold bind at 1, ret.
    rewrite (proj2 (empty_of_records rows) Hrows). cbn [negb].
    reflexivity.
  - cbn [heap session_state page]. split.
    + apply not_elem_of_dom. apply is_fresh.
    + split; [apply lookup_insert_eq|]. split; [apply lookup_insert_eq|].
      split; [intros o' Ho'; now apply lookup_insert_ne|].
      split; [now apply lookup_insert_ne|reflexivity].
Qed.

Lemma load_step_stores_fetched_frame_witness :
  exists st' o,
    load_step sample_get true initial_state = (Ok tt, st') /\
    heap initial_state !! o = None /\
    session_state st' !! "df" = Some o /\
    heap st' !! o = Some (DataFrame_of_records sample_rows) /\
    (forall o', o' <> o -> heap st' !! o' = heap initial_state !! o') /\
    session_state st' !! "df_clean" = session_state initial_state !! "df_clean" /\
    page st' = page initial_state ++ [loaded_message (DataFrame_of_records sample_rows)].
Proof.
  apply (load_step_stores_fetched_frame sample_get initial_state
           (mkResponse 200 "OK" (Ok (Records sample_rows))) sample_rows).
  - reflexivity.
  - simpl. lia.
  - reflexivity.
  - exists [("a_o", "2019"); ("departamento", "CUNDINAMARCA"); ("tasa", "12.5")],
      "a_o", "2019". simpl. auto.
Defined.

(** X4: a reply whose records carry no field at all (an empty array, or
    an array of empty objects) counts as no data: the load step shows the
    warning and stores nothing, although the fetch did not fail. *)
Theorem load_step_ignores_records_without_fields
        (requests_get : string -> outcome Response) (st : app_state)
        (r : Response) (rows : list (list (string * string))) :
  requests_get (api_url 50000) = Ok r ->
  ~ 400 <= status_code r < 600 ->
  json r = Ok (Records rows) ->
  ~ has_field rows ->
  load_step requests_get true st =
  (Ok tt, mkState (heap st) (session_state st) (page st ++ [no_data_warning])).
Proof.
  intros Hr Hst Hj Hrows. unfold load_step, load_data_from_api.
  rewrite (fetch_records _ _ _ _ Hr Hst Hj). unfold bind at 1, ret.
  destruct (empty (DataFrame_of_records rows)) eqn:E.
  - reflexivity.
  - apply empty_of_records in E. contradiction.
Qed.

Lemma load_step_ignores_records_without_fields_witness :
  load_step (fun _ => Ok (mkResponse 200 "OK" (Ok (Records [[]; []])))) true sample_state =
  (Ok tt, mkState (heap sample_state) (session_state sample_state)
                  (page sample_state ++ [no_data_warning])).
Proof.
  apply (load_step_ignores_records_without_fields _ sample_state
           (mkResponse 200 "OK" (Ok (Records [[]; []]))) [[]; []]).
  - reflexivity.
  - simpl. lia.
  - reflexivity.
  - intros [row [k [v [H1 H2]]]]. simpl in H1.
    destruct H1 as [<-|[<-|[]]]; destruct H2.
Defined.

(** ** Layout and rows of the cleaned frame *)

Lemma select_length_le {A} (m : list bool) (l : list A) :
  (List.length (select m l) <= List.length l)%nat.
Proof.
  revert l; induction m as [|b m IH]; intros [|y l]; simpl; try lia.
  specialize (IH l). destruct b; simpl; lia.
Qed.

Lemma derive_year_index (raw df : DataFrame) :
  derive_year raw = Ok df -> index df = index raw.
Proof.
  unfold derive_year. destruct (has_column year_field raw); [|now intros [= <-]].
  destruct (getitem raw year_field) as [a_o|e]; [|discriminate]. cbn [obind].
  destruct (to_datetime a_o) as [s|e]; [|discriminate]. cbn [obind].
  now intros [= <-].
Qed.

Lemma derive_year_lookup (raw df : DataFrame) (col : string) :
  derive_year raw = Ok df -> col <> year_column ->
  lookup_column col (data df) = lookup_column col (data raw).
Proof.
  unfold derive_year. destruct (has_column year_field raw); [|now intros [= <-]].
  destruct (getitem raw year_field) as [a_o|e]; [|discriminate]. cbn [obind].
  destruct (to_datetime a_o) as [s|e]; [|discriminate]. cbn [obind].
  intros [= <-] Hcol. unfold setitem. cbn [data]. now apply lookup_assign_other.
Qed.

Lemma derive_year_columns (raw df : DataFrame) :
  derive_year raw = Ok df ->
  columns df =
  if has_column year_field raw && negb (has_column year_column raw)
  then columns raw ++ [year_column] else columns raw.
Proof.
  unfold derive_year. destruct (has_column year_field raw) eqn:Ea;
    [|now intros [= <-]].
  destruct (getitem raw year_field) as [a_o|e]; [|discriminate]. cbn [obind].
  destruct (to_datetime a_o) as [s|e]; [|discriminate]. cbn [obind].
  intros [= <-]. unfold columns at 1, setitem. cbn [data andb].
  destruct (has_column year_column raw) eqn:Ey; cbn [negb].
  - apply assign_column_names_in. now apply has_column_In.
  - rewrite assign_column_new.
    + now rewrite List.map_app.
    + intros H. apply has_column_In in H. congruence.
Qed.

(** The cleaned frame, column by column. *)
Lemma clean_lookup (raw t df : DataFrame) (col : string) :
  List.NoDup (columns raw) -> clean raw = Ok t -> derive_year raw = Ok df ->
  index t = select (complete_rows (len df) (data df)) (index df) /\
  lookup_column col (data t) =
  option_map (fun s => coerce_series col
                         (select_series (complete_rows (len df) (data df)) s))
             (lookup_column col (data df)).
Proof.
  intros Hnd Hclean Hdf. destruct (clean_inv raw t Hnd Hclean) as [df' [Hdf' ->]].
  rewrite Hdf in Hdf'. injection Hdf' as <-. split; [reflexivity|].
  cbn [data]. rewrite lookup_map_coerce. unfold dropna, select_rows. cbn [data].
  rewrite lookup_select_rows. now destruct (lookup_column col (data df)).
Qed.

(** X5: the cleaned frame has the columns of the raw frame, in the same
    order, followed by Año when the raw frame has the year field and no
    column of that name yet; cleaning never removes or renames a column. *)
Theorem clean_column_layout (raw t : DataFrame) :
  List.NoDup (columns raw) ->
  clean raw = Ok t ->
  columns t =
  if has_column year_field raw && negb (has_column year_column raw)
  then columns raw ++ [year_column] else columns raw.
Proof.
  intros Hnd Hclean. destruct (clean_inv raw t Hnd Hclean) as [df [Hdf Ht]].
  rewrite (clean_columns _ _ _ Hdf Ht). now apply derive_year_columns.
Qed.

Lemma clean_column_layout_witness :
  columns sample_clean =
  if has_column year_field sample_raw && negb (has_column year_column sample_raw)
  then columns sample_raw ++ [year_column] else columns sample_raw.
Proof.
  exact (clean_column_layout sample_raw sample_clean sample_raw_nodup clean_sample).
Defined.

(** X6: cleaning keeps a selection of the rows of the raw frame, in
    their order and under their labels, and never adds a row; in the kept
    rows the categorical columns hold the raw values unchanged, and every
    other column of the raw frame holds their numeric conversion. *)
Theorem clean_keeps_rows_in_order (raw t : DataFrame) :
  List.NoDup (columns raw) ->
  clean raw = Ok t ->
  exists m,
    index t = select m (index raw) /\
    (len t <= len raw)%nat /\
    forall col s, col <> year_column ->
      lookup_column col (data raw) = Some s ->
      lookup_column col (data t) =
      Some (if is_categorical col then select_series m s
            else to_numeric (select_series m s)).
Proof.
  intros Hnd Hclean. destruct (clean_inv raw t Hnd Hclean) as [df [Hdf _]].
  exists (complete_rows (len df) (data df)).
  pose proof (derive_year_index _ _ Hdf) as Hidx.
  assert (Hi : index t = select (complete_rows (len df) (data df)) (index raw)).
  { rewrite <- Hidx. exact (proj1 (clean_lookup raw t df year_field Hnd Hclean Hdf)). }
  split; [exact Hi|]. split.
  - unfold len. rewrite Hi. apply select_length_le.
  - intros col s Hcol Hs.
    rewrite (proj2 (clean_lookup raw t df col Hnd Hclean Hdf)).
    rewrite (derive_year_lookup _ _ _ Hdf Hcol), Hs. reflexivity.
Qed.

Lemma clean_keeps_rows_in_order_witness :
  exists m,
    index sample_clean = select m (index sample_raw) /\
    (len sample_clean <= len sample_raw)%nat /\
    forall col s, col <> year_column ->
      lookup_column col (data sample_raw) = Some s ->
      lookup_column col (data sample_clean) =
      Some (if is_categorical col then select_series m s
            else to_numeric (select_series m s)).
Proof.
  exact (clean_keeps_rows_in_order sample_raw sample_clean sample_raw_nodup clean_sample).
Defined.

(** X7: cleaning preserves well-formedness: the cleaned frame of a frame
    with distinct labels and columns of one length has distinct labels and
    columns of one length. *)
Theorem clean_well_formed (raw t : DataFrame) :
  well_formed raw -> clean raw = Ok t -> well_formed t.
Proof.
  intros Hwf Hclean. split.
  - exact (clean_nodup raw t (proj1 Hwf) Hclean).
  - exact (clean_lengths raw t Hwf Hclean).
Qed.

Lemma clean_well_formed_witness : well_formed sample_clean.
Proof.
  exact (clean_well_formed sample_raw sample_clean (proj1 sample_raw_frame) clean_sample).
Defined.

(** ** When cleaning returns *)

Lemma omap_total {A B} (f : A -> outcome B) (l : list A) :
  (forall x, In x l -> exists y, f x = Ok y) -> exists ys, omap f l = Ok ys.
Proof.
  induction l as [|x l IH]; intros H; simpl; [eauto|].
  destruct (H x (or_introl eq_refl)) as [y ->]. cbn [obind].
  destruct IH as [ys ->]; [intros z Hz; apply H; now right|].
  cbn [obind]. eauto.
Qed.

Lemma Forall2_In_l {A B} (R : A -> B -> Prop) (l : list A) (l' : list B) (x : A) :
  Forall2 R l l' -> In x l -> exists y, R x y.
Proof.
  induction 1 as [|a b l l' Hab _ IH]; simpl; [tauto|].
  intros [<-|H]; eauto.
Qed.

Lemma strptime_str_acceptable (s : string) :
  (exists t, strptime_str s = Ok t) <-> acceptable_year s.
Proof.
  unfold strptime_str, acceptable_year. fold (missing_spelling s).
  destruct (missing_spelling s).
  - split; eauto.
  - destruct (parse_year s) as [y|].
    + unfold timestamp_of_year, year_in_bounds.
      destruct ((1678 <=? y) && (y <=? 2262)) eqn:E.
      * apply andb_true_iff in E. rewrite !Z.leb_le in E.
        split; [intros _; right; eauto|eauto].
      * split; [intros [t H]; discriminate|].
        intros [H|[y' [[= <-] Hy]]]; [discriminate|].
        apply andb_false_iff in E. rewrite !Z.leb_gt in E. lia.
    + split; [intros [t H]; discriminate|].
      intros [H|[y' [H _]]]; discriminate.
Qed.

(** X8: for a frame as fetched, cleaning is total on the frames without
    the year field; on the others, when no year is one of the words now and
    today or has a character beyond the basic plane, it returns exactly when
    every year is a spelling of the missing value or four decimal digits, of
    any script, naming a year from 1678 to 2262; any other year string makes
    it raise. *)
Theorem clean_returns_iff_years_acceptable (raw : DataFrame) :
  raw_frame raw ->
  match lookup_column year_field (data raw) with
  | None => exists t, clean raw = Ok t
  | Some a_o =>
      (forall s, In (Str s) (values a_o) -> plain_year s = true) ->
      ((exists t, clean raw = Ok t) <->
       (forall s, In (Str s) (values a_o) -> acceptable_year s))
  end.
Proof.
  intros [[Hnd Hlen] Hobj].
  destruct (lookup_column year_field (data raw)) as [a_o|] eqn:Ea.
  - assert (Hl : exists l, a_o = ObjectSeries l /\ Forall string_or_missing l).
    { apply lookup_column_In in Ea.
      exact (proj1 (List.Forall_forall _ _) Hobj _ Ea). }
    destruct Hl as [l [-> Hl]]. cbn [values]. intros _.
    pose proof (derive_year_present _ _ Ea) as Hd. cbn [to_datetime] in Hd.
    split.
    + intros [t Ht] s Hs. unfold clean in Ht. rewrite Hd in Ht.
      destruct (omap strptime_cell l) as [ts|e] eqn:E; [|discriminate].
      apply omap_Forall2 in E.
      destruct (Forall2_In_l _ _ _ _ E Hs) as [y Hy].
      apply strptime_str_acceptable. exists y. exact Hy.
    + intros Hok.
      destruct (omap_total strptime_cell l) as [ts Hts].
      { intros c Hc. pose proof (proj1 (List.Forall_forall _ _) Hl _ Hc) as Hsm.
        destruct c as [|s|n|q|ns]; simpl in Hsm; try contradiction.
        - simpl. eauto.
        - simpl. apply strptime_str_acceptable. now apply Hok. }
      rewrite Hts in Hd. cbn [obind] in Hd.
      exact (clean_returns raw _ Hnd Hd).
  - apply (clean_returns raw raw Hnd). apply derive_year_absent.
    destruct (has_column year_field raw) eqn:E; [|reflexivity].
    apply has_column_In in E. apply lookup_column_None in Ea. contradiction.
Qed.

Lemma clean_returns_iff_years_acceptable_witness :
  (exists t, clean wide_year_raw = Ok t) <->
  (forall s, In (Str s) [Str "2019"; Str "２０１９"; Str "20x9"] -> acceptable_year s).
Proof.
  apply (clean_returns_iff_years_acceptable wide_year_raw
           (DataFrame_of_records_raw_frame wide_year_rows)).
  intros s [[= <-]|[[= <-]|[[= <-]|[]]]]; reflexivity.
Defined.

(** Four digits of another script are a year: the two records with the
    year 2019 are cleaned alike, the full-width one with a missing year field
    after the coercion. *)
Example clean_reads_wide_digits :
  parse_year "２０１９" = Some 2019 /\
  clean (DataFrame_of_records [ [("a_o", "2019"); ("tasa", "1")];
                                [("a_o", "２０１９"); ("tasa", "2")] ]) =
  Ok (mkDataFrame [0%nat; 1%nat]
        [("a_o", Float64Series [Some (2019 # 1)%Q; None]);
         ("tasa", Int64Series [1; 2]);
         ("Año", Int64Series [1546300800000000000; 1546300800000000000])]).
Proof. split; vm_compute; reflexivity. Qed.

(** ** Running the cleaning step again *)

Lemma assign_column_twice (col : string) (s : Series) (cs : list (string * Series)) :
  assign_column col s (assign_column col s cs) = assign_column col s cs.
Proof.
  induction cs as [|[c s0] cs IH]; cbn [assign_column].
  - now rewrite String.eqb_refl.
  - destruct (String.eqb col c) eqn:E; cbn [assign_column]; rewrite E;
      [reflexivity|now rewrite IH].
Qed.

(** The year derivation changes nothing on a frame on which it has
    already run. *)
Lemma derive_year_fixed (raw df : DataFrame) :
  derive_year raw = Ok df -> derive_year df = Ok df.
Proof.
  intros Hdf. destruct (lookup_column year_field (data raw)) as [a_o|] eqn:Ea.
  - assert (Ha : lookup_column year_field (data df) = Some a_o).
    { rewrite (derive_year_lookup _ _ year_field Hdf); [assumption|discriminate]. }
    rewrite (derive_year_present _ _ Ha).
    rewrite (derive_year_present _ _ Ea) in Hdf.
    destruct (to_datetime a_o) as [s|e]; [|discriminate]. cbn [obind] in *.
    injection Hdf as <-. unfold setitem. cbn [index data].
    now rewrite assign_column_twice.
  - assert (Hno : has_column year_field raw = false).
    { destruct (has_column year_field raw) eqn:E; [|reflexivity].
      apply has_column_In in E. apply lookup_column_None in Ea. contradiction. }
    rewrite (derive_year_absent _ Hno) in Hdf. injection Hdf as <-.
    now apply derive_year_absent.
Qed.

(** X9: a second run of the cleaning step on the same session (the page
    reruns [main] on every interaction) leaves the stored raw frame as the
    first run left it and computes the same cleaned frame again, as one more
    new object; the frame of the first run stays in the heap, no longer
    referred to by the session. *)
Theorem clean_step_rerun (st : app_state) (r : nat) (raw t : DataFrame) :
  session_state st !! "df" = Some r ->
  heap st !! r = Some raw ->
  clean raw = Ok t ->
  exists st1 st2 r1 r2 df,
    clean_step st = (Ok tt, st1) /\
    clean_step st1 = (Ok tt, st2) /\
    derive_year raw = Ok df /\
    heap st1 !! r = Some df /\ heap st2 !! r = Some df /\
    session_state st1 !! "df_clean" = Some r1 /\ heap st1 !! r1 = Some t /\
    session_state st2 !! "df_clean" = Some r2 /\ heap st2 !! r2 = Some t /\
    r2 <> r1 /\ heap st2 !! r1 = Some t.
Proof.
  intros Hs Hr Hclean. unfold clean in Hclean.
  destruct (derive_year raw) as [df|e] eqn:Hdf; [|discriminate].
  cbn [obind] in Hclean.
  pose proof (clean_step_run st r raw df t Hs Hr Hdf Hclean) as Hrun1.
  cbv zeta in Hrun1.
  set (h := <[r := df]> (heap st)) in *. set (r1 := fresh (dom h)) in *.
  assert (Hr1 : r1 <> r).
  { intros E. pose proof (is_fresh (dom h)) as Hf. fold r1 in Hf. rewrite E in Hf.
    apply Hf. apply elem_of_dom. unfold h. rewrite lookup_insert_eq. eauto. }
  set (st1 := mkState (<[r1 := t]> h) (<["df_clean" := r1]> (session_state st))
                      (page st ++ [cleaned_message t])) in *.
  assert (Hs1 : session_state st1 !! "df" = Some r).
  { cbn [st1 session_state]. rewrite lookup_insert_ne; [assumption|discriminate]. }
  assert (Hh1 : heap st1 !! r = Some df).
  { cbn [st1 heap]. rewrite lookup_insert_ne by assumption.
    unfold h. apply lookup_insert_eq. }
  pose proof (clean_step_run st1 r df df t Hs1 Hh1 (derive_year_fixed _ _ Hdf) Hclean)
    as Hrun2.
  cbv zeta in Hrun2.
  set (h2 := <[r := df]> (heap st1)) in *. set (r2 := fresh (dom h2)) in *.
  assert (Hr1' : h2 !! r1 = Some t).
  { unfold h2. rewrite lookup_insert_ne by (intros E; now apply Hr1).
    cbn [st1 heap]. apply lookup_insert_eq. }
  assert (Hr2 : r2 <> r1).
  { intros E. pose proof (is_fresh (dom h2)) as Hf. fold r2 in Hf. rewrite E in Hf.
    apply Hf. apply elem_of_dom. rewrite Hr1'. eauto. }
  assert (Hr2' : r2 <> r).
  { intros E. pose proof (is_fresh (dom h2)) as Hf. fold r2 in Hf. rewrite E in Hf.
    apply Hf. apply elem_of_dom. unfold h2. rewrite lookup_insert_eq. eauto. }
  eexists st1, _, r1, r2, df.
  split; [exact Hrun1|]. split; [exact Hrun2|]. split; [reflexivity|].
  split; [exact Hh1|]. cbn [heap session_state].
  split; [rewrite lookup_insert_ne by assumption; unfold h2; apply lookup_insert_eq|].
  split; [apply lookup_insert_eq|]. split; [apply lookup_insert_eq|].
  split; [apply lookup_insert_eq|]. split; [apply lookup_insert_eq|].
  split; [assumption|]. rewrite lookup_insert_ne by assumption. exact Hr1'.
Qed.

Lemma clean_step_rerun_witness :
  exists st1 st2 r1 r2 df,
    clean_step sample_state = (Ok tt, st1) /\
    clean_step st1 = (Ok tt, st2) /\
    derive_year sample_raw = Ok df /\
    heap st1 !! 0%nat = Some df /\ heap st2 !! 0%nat = Some df /\
    session_state st1 !! "df_clean" = Some r1 /\ heap st1 !! r1 = Some sample_clean /\
    session_state st2 !! "df_clean" = Some r2 /\ heap st2 !! r2 = Some sample_clean /\
    r2 <> r1 /\ heap st2 !! r1 = Some sample_clean.
Proof.
  apply (clean_step_rerun sample_state 0%nat sample_raw sample_clean).
  - reflexivity.
  - reflexivity.
  - exact clean_sample.
Defined.

(** ** Missing values per column *)

Lemma no_missing_iff_counts (df : DataFrame) :
  no_missing df <-> Forall (fun p => snd p = 0%nat) (isnull_sum df).
Proof.
  unfold no_missing, isnull_sum. rewrite List.Forall_forall. split.
  - intros H p Hp. apply List.in_map_iff in Hp. destruct Hp as [[c s] [<- Hin]].
    cbn [fst snd]. specialize (H c s Hin).
    induction (values s) as [|x l IH]; simpl; [reflexivity|].
    rewrite (H x) by now left. apply IH. intros y Hy. apply H. now right.
  - intros H col s Hin c Hc.
    specialize (H (col, List.length (List.filter isna (values s)))).
    cbn [snd] in H.
    assert (Hz : List.length (List.filter isna (values s)) = 0%nat).
    { apply H. apply List.in_map_iff. exists (col, s). auto. }
    destruct (isna c) eqn:E; [|reflexivity].
    assert (Hf : In c (List.filter isna (values s))) by (apply List.filter_In; auto).
    destruct (List.filter isna (values s)); [destruct Hf|discriminate].
Qed.

(** X10: the missing-value counts shown by [show_data_summary] and
    [dropna] agree: on a frame whose columns have one length, [dropna] returns
    the frame unchanged exactly when every count is zero; and after [dropna]
    every count is zero. *)
Theorem dropna_identity_iff_no_nulls (df : DataFrame) :
  Forall (fun p => List.length (values (snd p)) = len df) (data df) ->
  (dropna df = df <-> Forall (fun p => snd p = 0%nat) (isnull_sum df)) /\
  Forall (fun p => snd p = 0%nat) (isnull_sum (dropna df)).
Proof.
  intros Hlen. split.
  - rewrite <- no_missing_iff_counts. split.
    + intros E. rewrite <- E. apply dropna_no_missing.
    + now apply dropna_id.
  - apply no_missing_iff_counts, dropna_no_missing.
Qed.

Lemma dropna_identity_iff_no_nulls_witness :
  (dropna sample_clean = sample_clean <->
   Forall (fun p => snd p = 0%nat) (isnull_sum sample_clean)) /\
  Forall (fun p => snd p = 0%nat) (isnull_sum (dropna sample_clean)).
Proof.
  apply (dropna_identity_iff_no_nulls sample_clean).
  vm_compute. repeat constructor.
Defined.

(** ** The department views *)

Lemma select_nil_r {A} (m : list bool) : select m (@nil A) = [].
Proof. destruct m as [|[] m]; reflexivity. Qed.

Lemma map_filter_true {A} (f : A -> bool) (l : list A) :
  List.map f (List.filter f l) = repeat true (List.length (List.filter f l)).
Proof.
  induction l as [|x l IH]; simpl; [reflexivity|].
  destruct (f x) eqn:E; simpl; [now rewrite E, IH|assumption].
Qed.

Lemma select_rows_all (n : nat) (df : DataFrame) :
  Forall (fun p => List.length (values (snd p)) = n) (data df) ->
  len df = n ->
  select_rows (repeat true n) df = df.
Proof.
  destruct df as [idx cs]. unfold select_rows, len. cbn [index data].
  intros Hlen <-. rewrite select_all_true. f_equal.
  induction cs as [|[c s] cs IH]; simpl; [reflexivity|].
  pose proof (List.Forall_inv Hlen) as Hl. cbn [snd] in Hl.
  rewrite <- Hl at 1. rewrite select_series_all_true. f_equal.
  apply IH. exact (List.Forall_inv_tail Hlen).
Qed.

Lemma select_rows_lengths (m : list bool) (df : DataFrame) :
  Forall (fun p => List.length (values (snd p)) = len df) (data df) ->
  Forall (fun p => List.length (values (snd p)) = len (select_rows m df))
         (data (select_rows m df)).
Proof.
  intros Hlen. unfold select_rows, len. cbn [index data].
  apply List.Forall_forall. intros p Hp. apply List.in_map_iff in Hp.
  destruct Hp as [[c s] [<- Hin]]. cbn [snd]. rewrite values_select.
  apply select_same_length.
  exact (proj1 (List.Forall_forall _ _) Hlen _ Hin).
Qed.

Lemma cell_eq_refl (c : cell) : isna c = false -> cell_eq c c = true.
Proof.
  destruct c as [|s|n|q|ns]; simpl; intros H; try discriminate.
  - apply String.eqb_refl.
  - apply Z.eqb_refl.
  - apply Qeq_bool_iff. reflexivity.
  - apply Z.eqb_refl.
Qed.

Lemma filter_mask_again {A} (f : A -> bool) (l : list A) :
  List.map f (select (List.map f l) l) =
  repeat true (List.length (select (List.map f l) l)).
Proof. rewrite select_self. apply map_filter_true. Qed.

(** X11: filtering is idempotent: on a frame whose columns have one
    length, filtering the filtered frame by the same value returns it
    unchanged. *)
Theorem filter_by_division_twice (df t : DataFrame) (v : cell) :
  Forall (fun p => List.length (values (snd p)) = len df) (data df) ->
  filter_by_division df v = Ok t ->
  filter_by_division t v = Ok t.
Proof.
  intros Hlen. unfold filter_by_division, getitem.
  destruct (lookup_column division_column (data df)) as [ks|] eqn:Hks;
    [|discriminate].
  cbn [obind]. intros [= <-].
  remember (List.map (fun c => cell_eq c v) (values ks)) as m eqn:Hm.
  assert (Hlk : lookup_column division_column (data (select_rows m df)) =
                Some (select_series m ks)).
  { unfold select_rows. cbn [data]. now rewrite lookup_select_rows, Hks. }
  rewrite Hlk. cbn [obind]. rewrite values_select. f_equal.
  assert (Hk : List.length (values ks) = List.length (index df)).
  { apply lookup_column_In in Hks.
    exact (proj1 (List.Forall_forall _ _) Hlen _ Hks). }
  assert (E : len (select_rows m df) = List.length (select m (values ks))).
  { unfold len, select_rows. cbn [index]. apply select_same_length. now symmetry. }
  rewrite Hm at 1 2. rewrite (filter_mask_again (fun c => cell_eq c v)).
  rewrite <- Hm. apply select_rows_all.
  - rewrite <- E. now apply select_rows_lengths.
  - exact E.
Qed.

Lemma filter_by_division_twice_witness :
  filter_by_division sample_twice (Str "CUNDINAMARCA") = Ok sample_twice.
Proof.
  apply (filter_by_division_twice sample_twice sample_twice (Str "CUNDINAMARCA")).
  - vm_compute. repeat constructor.
  - reflexivity.
Defined.

Lemma pd_unique_fold_In (l seen : list cell) (x : cell) :
  In x (fold_left (fun seen c => if existsb (same_value c) seen then seen else seen ++ [c])
                  l seen) ->
  In x seen \/ In x l.
Proof.
  revert seen. induction l as [|c l IH]; simpl; intros seen H; [now left|].
  apply IH in H. destruct H as [H|H]; [|now right; right].
  destruct (existsb (same_value c) seen); [now left|].
  apply in_app_or in H. destruct H as [H|[<-|[]]]; auto.
Qed.

Lemma pd_unique_fold_keeps (l seen : list cell) (x : cell) :
  In x seen ->
  In x (fold_left (fun seen c => if existsb (same_value c) seen then seen else seen ++ [c])
                  l seen).
Proof.
  revert seen. induction l as [|c l IH]; simpl; intros seen H; [assumption|].
  apply IH. destruct (existsb (same_value c) seen); [assumption|].
  apply in_or_app. now left.
Qed.

Lemma pd_unique_In (l : list cell) (x : cell) : In x (pd_unique l) -> In x l.
Proof.
  intros H. apply pd_unique_fold_In in H. destruct H as [[]|H]. exact H.
Qed.

Lemma pd_unique_nonempty (c : cell) (l : list cell) : pd_unique (c :: l) <> [].
Proof.
  unfold pd_unique. simpl. intros E.
  assert (H : In c (fold_left
    (fun seen c => if existsb (same_value c) seen then seen else seen ++ [c]) l [c])).
  { apply pd_unique_fold_keeps. now left. }
  rewrite E in H. destruct H.
Qed.

Lemma selectbox_In (options : list cell) (pick : nat) :
  options <> [] -> In (selectbox options pick) options.
Proof.
  destruct options as [|o options]; [congruence|]. intros _. unfold selectbox.
  destruct (List.nth_in_or_default pick (o :: options) o) as [H|H]; [exact H|].
  rewrite H. now left.
Qed.

(** X12: on a frame whose columns have one length and whose department
    column has no missing value (as in every cleaned frame), the department
    view of lines 142-143 never raises and never comes out empty unless the
    frame has no rows: whatever the user picks, the view has at least one row,
    and every row of it belongs to the picked department. *)
Theorem df_filtered_shows_picked_department (df : DataFrame) (pick : nat) (ks : Series) :
  lookup_column division_column (data df) = Some ks ->
  Forall (fun p => List.length (values (snd p)) = len df) (data df) ->
  (forall c, In c (values ks) -> isna c = false) ->
  exists t ks',
    df_filtered df pick = Ok t /\
    lookup_column division_column (data t) = Some ks' /\
    (forall c, In c (values ks') ->
               cell_eq c (selectbox (pd_unique (values ks)) pick) = true) /\
    (len df = 0%nat -> len t = 0%nat) /\
    (len df <> 0%nat -> (1 <= len t)%nat).
Proof.
  intros Hks Hlen Hna.
  set (v := selectbox (pd_unique (values ks)) pick).
  set (m := List.map (fun c => cell_eq c v) (values ks)).
  assert (Hk : List.length (values ks) = List.length (index df)).
  { apply lookup_column_In in Hks.
    exact (proj1 (List.Forall_forall _ _) Hlen _ Hks). }
  exists (select_rows m df), (select_series m ks).
  split; [|split; [|split; [|split]]].
  - unfold df_filtered, filter_by_division, getitem. rewrite Hks. reflexivity.
  - unfold select_rows. cbn [data]. now rewrite lookup_select_rows, Hks.
  - intros c Hc. rewrite values_select in Hc. unfold m in Hc.
    rewrite (select_self (fun c => cell_eq c v)) in Hc.
    apply List.filter_In in Hc. tauto.
  - unfold len, select_rows. cbn [index]. intros H0.
    destruct (index df); [now rewrite select_nil_r|discriminate].
  - intros Hn. unfold len in *. unfold select_rows. cbn [index].
    rewrite (select_same_length m (index df) (values ks)) by now symmetry.
    unfold m. rewrite (select_self (fun c => cell_eq c v)).
    assert (Hv : In v (values ks)).
    { apply pd_unique_In. apply selectbox_In.
      destruct (values ks) as [|c l]; [simpl in Hk; congruence|].
      apply pd_unique_nonempty. }
    assert (Hf : In v (List.filter (fun c => cell_eq c v) (values ks))).
    { apply List.filter_In. split; [assumption|].
      apply cell_eq_refl. now apply Hna. }
    destruct (List.filter (fun c => cell_eq c v) (values ks));
      [destruct Hf|simpl; lia].
Qed.

Lemma df_filtered_shows_picked_department_witness :
  exists t ks',
    df_filtered located 1 = Ok t /\
    lookup_column division_column (data t) = Some ks' /\
    (forall c, In c (values ks') ->
               cell_eq c (selectbox (pd_unique [Str "CUNDINAMARCA"; Str "BOYACA"]) 1) = true) /\
    (len located = 0%nat -> len t = 0%nat) /\
    (len located <> 0%nat -> (1 <= len t)%nat).
Proof.
  apply (df_filtered_shows_picked_department located 1
           (ObjectSeries [Str "CUNDINAMARCA"; Str "BOYACA"])).
  - reflexivity.
  - vm_compute. repeat constructor.
  - simpl. intros c [<-|[<-|[]]]; reflexivity.
Defined.

(** X13: the department column is tested for only once.  On a frame
    without it the view of lines 142-143 and the aggregation of line 164
    raise KeyError, while the scatter view of lines 171-175, which tests
    ['departamento' in df_clean.columns], is skipped without error; on a
    frame with it the two views are the same frame. *)
Theorem division_column_is_guarded_once (df : DataFrame) (pick : nat) (metric : string) :
  (has_column division_column df = false ->
     df_filtered df pick = Raise (KeyError division_column) /\
     deptos_avg df metric = Raise (KeyError division_column) /\
     depto_df df pick = Ok None) /\
  (has_column division_column df = true ->
     exists t, df_filtered df pick = Ok t /\ depto_df df pick = Ok (Some t)).
Proof.
  split; intros H.
  - assert (Hl : lookup_column division_column (data df) = None).
    { apply lookup_column_None. intros Hin. apply has_column_In in Hin. congruence. }
    unfold df_filtered, deptos_avg, top_n_by_mean, depto_df, getitem.
    rewrite H, Hl. repeat split; reflexivity.
  - destruct (lookup_column division_column (data df)) as [ks|] eqn:Hl.
    + unfold df_filtered, depto_df, filter_by_division, getitem. rewrite H, Hl.
      cbn [obind]. eauto.
    + apply lookup_column_None in Hl. apply has_column_In in H. contradiction.
Qed.

(** ** The groups of the aggregation *)

Lemma cell_eq_sym (x y : cell) : cell_eq x y = cell_eq y x.
Proof.
  destruct x, y; simpl; try reflexivity.
  - apply String.eqb_sym.
  - apply Z.eqb_sym.
  - unfold Qeq_bool. apply Z.eqb_sym.
  - apply Z.eqb_sym.
Qed.

Lemma distinct_labels_snoc (l : list cell) (c : cell) :
  distinct_labels l -> (forall a, In a l -> cell_eq a c = false) ->
  distinct_labels (l ++ [c]).
Proof.
  induction l as [|x l IH]; simpl; intros Hd Hc.
  - split; [intros y []|exact I].
  - destruct Hd as [Hx Hd]. split.
    + intros y Hy. apply in_app_or in Hy. destruct Hy as [Hy|[<-|[]]]; auto.
    + apply IH; auto.
Qed.

Lemma unique_fold_distinct (l seen : list cell) :
  distinct_labels seen ->
  distinct_labels
    (fold_left (fun seen c => if existsb (cell_eq c) seen then seen else seen ++ [c])
               l seen).
Proof.
  revert seen. induction l as [|c l IH]; simpl; intros seen Hd; [assumption|].
  apply IH. destruct (existsb (cell_eq c) seen) eqn:E; [assumption|].
  apply distinct_labels_snoc; [assumption|]. intros a Ha.
  rewrite cell_eq_sym. destruct (cell_eq c a) eqn:Eca; [|reflexivity].
  assert (existsb (cell_eq c) seen = true) by (apply existsb_exists; eauto).
  congruence.
Qed.

Lemma unique_fold_keeps (l seen : list cell) (x : cell) :
  In x seen ->
  In x (fold_left (fun seen c => if existsb (cell_eq c) seen then seen else seen ++ [c])
                  l seen).
Proof.
  revert seen. induction l as [|c l IH]; simpl; intros seen H; [assumption|].
  apply IH. destruct (existsb (cell_eq c) seen); [assumption|].
  apply in_or_app. now left.
Qed.

Lemma unique_fold_complete (l seen : list cell) (c : cell) :
  In c l -> cell_eq c c = true ->
  exists k, In k (fold_left (fun seen c => if existsb (cell_eq c) seen
                                           then seen else seen ++ [c]) l seen) /\
            cell_eq c k = true.
Proof.
  revert seen. induction l as [|x l IH]; simpl; intros seen Hin Hc; [destruct Hin|].
  destruct Hin as [->|Hin]; [|now apply IH].
  destruct (existsb (cell_eq c) seen) eqn:E.
  - apply existsb_exists in E. destruct E as [k [Hk Hck]].
    exists k. split; [now apply unique_fold_keeps|assumption].
  - exists c. split; [|assumption]. apply unique_fold_keeps.
    apply in_or_app. right. now left.
Qed.

Section SortingLabels.
Context {A : Type} (le : A -> A -> bool) (label : A -> cell).

Lemma In_insert_by (x y : A) (l : list A) :
  y = x \/ In y l -> In y (insert_by le x l).
Proof.
  induction l as [|z l IH]; simpl; [intros [->|[]]; now left|].
  destruct (le x z); simpl; intros [->|[H|H]]; auto.
Qed.

Lemma In_sort_by (y : A) (l : list A) : In y l -> In y (sort_by le l).
Proof.
  induction l as [|x l IH]; simpl; [tauto|].
  intros [H|H]; apply In_insert_by; auto.
Qed.

Lemma length_insert_by (x : A) (l : list A) :
  List.length (insert_by le x l) = S (List.length l).
Proof. induction l as [|z l IH]; simpl; [reflexivity|]. destruct (le x z); simpl; auto. Qed.

Lemma length_sort_by (l : list A) : List.length (sort_by le l) = List.length l.
Proof. induction l as [|x l IH]; simpl; [reflexivity|]. now rewrite length_insert_by, IH. Qed.

Lemma distinct_insert_by (x : A) (l : list A) :
  distinct_labels (List.map label l) ->
  (forall y, In y l -> cell_eq (label x) (label y) = false) ->
  distinct_labels (List.map label (insert_by le x l)).
Proof.
  induction l as [|z l IH]; simpl; intros Hd Hx.
  - split; [intros y []|exact I].
  - destruct Hd as [Hz Hd]. destruct (le x z); simpl.
    + split; [|split; assumption].
      intros y [<-|Hy]; [apply Hx; now left|].
      apply List.in_map_iff in Hy. destruct Hy as [w [<- Hw]]. apply Hx. now right.
    + split.
      * intros y Hy. apply List.in_map_iff in Hy. destruct Hy as [w [<- Hw]].
        apply insert_by_In in Hw. destruct Hw as [->|Hw].
        -- rewrite cell_eq_sym. apply Hx. now left.
        -- apply Hz. now apply List.in_map.
      * apply IH; [assumption|]. intros y Hy. apply Hx. now right.
Qed.

Lemma distinct_sort_by (l : list A) :
  distinct_labels (List.map label l) ->
  distinct_labels (List.map label (sort_by le l)).
Proof.
  induction l as [|x l IH]; simpl; [tauto|]. intros [Hx Hd].
  apply distinct_insert_by; [now apply IH|].
  intros y Hy. apply sort_by_In in Hy. apply Hx. now apply List.in_map.
Qed.
End SortingLabels.

Lemma distinct_firstn (n : nat) (l : list cell) :
  distinct_labels l -> distinct_labels (firstn n l).
Proof.
  revert n. induction l as [|x l IH]; intros [|n]; simpl; try tauto.
  intros [Hx Hd]. split; [|now apply IH].
  intros y Hy. apply Hx. eapply firstn_In; eassumption.
Qed.

Lemma group_labels_distinct (keys : list cell) : distinct_labels (group_labels keys).
Proof.
  unfold group_labels.
  pose proof (distinct_sort_by key_le (fun c => c) (unique (List.filter notna keys))) as H.
  rewrite !List.map_id in H. apply H. unfold unique.
  apply unique_fold_distinct. exact I.
Qed.

Lemma group_labels_complete (keys : list cell) (c : cell) :
  In c keys -> isna c = false ->
  exists k, In k (group_labels keys) /\ cell_eq c k = true.
Proof.
  intros Hin Hna. unfold group_labels, unique.
  destruct (unique_fold_complete (List.filter notna keys) [] c) as [k [Hk Hck]].
  - apply List.filter_In. split; [assumption|]. unfold notna. now rewrite Hna.
  - now apply cell_eq_refl.
  - exists k. split; [now apply In_sort_by|assumption].
Qed.

Lemma labels_of_groupby_mean (keys vals : list cell) :
  List.map fst (groupby_mean keys vals) = group_labels keys.
Proof. unfold groupby_mean. rewrite List.map_map. apply List.map_id. Qed.

Lemma group_means_labels (s : Series) (keys : list cell)
      (means : list (cell * option Q)) :
  group_means s keys = Ok means -> List.map fst means = group_labels keys.
Proof.
  destruct s as [l|l|l|l]; cbn [group_means].
  - intros H. apply omap_Forall2 in H.
    induction H as [|k p ks ps Hkp _ IH]; [reflexivity|].
    cbn [List.map]. rewrite IH. f_equal.
    destruct (object_mean (group_values keys l k)); [|discriminate].
    cbn [obind] in Hkp. now injection Hkp as <-.
  - intros [= <-]. apply labels_of_groupby_mean.
  - intros [= <-]. apply labels_of_groupby_mean.
  - intros [= <-]. rewrite List.map_map. cbn [fst].
    apply labels_of_groupby_mean.
Qed.

(** X14: the aggregation ranks every department once: in the result no
    two groups carry the same department, the number of groups is the number
    of distinct departments capped at [n], and when there are at most [n]
    departments each department of the frame has its group. *)
Theorem top_n_by_mean_groups (df : DataFrame) (metric : string) (n : nat) (ks : Series)
        (res : list (cell * option Q)) :
  lookup_column division_column (data df) = Some ks ->
  top_n_by_mean df metric n = Ok res ->
  distinct_labels (List.map fst res) /\
  List.length res = Nat.min n (List.length (group_labels (values ks))) /\
  ((List.length (group_labels (values ks)) <= n)%nat ->
   forall c, In c (values ks) -> isna c = false ->
             exists k m, In (k, m) res /\ cell_eq c k = true).
Proof.
  intros Hks. unfold top_n_by_mean, getitem. rewrite Hks. cbn [obind].
  destruct (lookup_column metric (data df)) as [s|]; [|discriminate].
  destruct (group_means s (values ks)) as [means|e] eqn:Hm; [|discriminate].
  pose proof (group_means_labels _ _ _ Hm) as Hl.
  cbn [obind]. intros [= <-]. unfold sort_values_desc.
  split; [|split].
  - rewrite <- List.firstn_map. apply distinct_firstn.
    apply distinct_sort_by. rewrite Hl. apply group_labels_distinct.
  - rewrite List.length_firstn, length_sort_by.
    rewrite <- Hl. now rewrite List.length_map.
  - intros Hn c Hc Hna.
    destruct (group_labels_complete _ _ Hc Hna) as [k [Hk Hck]].
    rewrite <- Hl in Hk, Hn.
    apply List.in_map_iff in Hk. destruct Hk as [[k' m] [E Hk]].
    cbn [fst] in E. subst k'. exists k, m. split; [|assumption].
    rewrite List.firstn_all2.
    + now apply In_sort_by.
    + rewrite length_sort_by. now rewrite List.length_map in Hn.
Qed.

Lemma top_n_by_mean_groups_witness :
  distinct_labels (List.map fst [(Str "BOYACA", Some (11 # 2)%Q);
                                 (Str "CUNDINAMARCA", Some (9 # 2)%Q)]) /\
  List.length [(Str "BOYACA", Some (11 # 2)%Q); (Str "CUNDINAMARCA", Some (9 # 2)%Q)] =
    Nat.min 10 (List.length (group_labels [Str "CUNDINAMARCA"; Str "BOYACA"])) /\
  ((List.length (group_labels [Str "CUNDINAMARCA"; Str "BOYACA"]) <= 10)%nat ->
   forall c, In c [Str "CUNDINAMARCA"; Str "BOYACA"] -> isna c = false ->
             exists k m, In (k, m) [(Str "BOYACA", Some (11 # 2)%Q);
                                    (Str "CUNDINAMARCA", Some (9 # 2)%Q)] /\
                         cell_eq c k = true).
Proof.
  apply (top_n_by_mean_groups located "lat" 10
           (ObjectSeries [Str "CUNDINAMARCA"; Str "BOYACA"])).
  - reflexivity.
  - reflexivity.
Defined.

(** ** The ranking of the departments *)








(** The ranking of the sample: the two departments with the largest
    means, the rounded means included. *)
Example top_two_of_rated :
  top_n_by_mean rated "tasa" 2 =
  Ok [(Str "CUNDINAMARCA", Some (25 # 2)%Q); (Str "BOYACA", Some (15 # 2)%Q)].
Proof. vm_compute. reflexivity. Qed.

(** Three values of one tenth have a mean above one tenth: the sum is
    rounded upwards before the division. *)
Example mean_of_three_tenths :
  mean [Float (binary64 (1 # 10)); Float (binary64 (1 # 10)); Float (binary64 (1 # 10))]
  = Some (7205759403792795 # 72057594037927936)%Q /\
  binary64 (1 # 10) = (3602879701896397 # 36028797018963968)%Q.
Proof. split; vm_compute; reflexivity. Qed.

(** ** The metrics offered after cleaning *)

(** *** Metrics of whole numbers *)

Lemma Qred_int (q : Q) (z : Z) : (q == inject_Z z)%Q -> Qred q = inject_Z z.
Proof.
  intros H. pose proof (gcd_Qred q) as Hg.
  pose proof (Qeq_trans _ _ _ (Qred_correct q) H) as Hc.
  destruct (Qred q) as [n d]. unfold Qeq in Hc. cbn [Qnum Qden inject_Z] in *.
  rewrite Z.mul_1_r in Hc. subst n.
  rewrite Z.gcd_comm, Z.mul_comm in Hg.
  rewrite Z.gcd_mul_diag_l in Hg by lia.
  unfold inject_Z. f_equal; [|lia]. injection Hg as ->. lia.
Qed.

Lemma round_half_even_1 (a : Z) : round_half_even a 1 = a.
Proof.
  unfold round_half_even. rewrite Z.mod_1_r, Z.div_1_r. reflexivity.
Qed.

Lemma binary64_int (z : Z) : Z.abs z <= 2 ^ 53 -> binary64 (inject_Z z) = inject_Z z.
Proof.
  intros H. destruct (Z.eq_dec z 0) as [->|Hz]; [reflexivity|].
  destruct (Z.eq_dec (Z.abs z) (2 ^ 53)) as [E|E].
  { destruct (Z.abs_spec z) as [[_ Ez]|[_ Ez]]; rewrite Ez in E.
    - subst z. vm_compute. reflexivity.
    - replace z with (- 2 ^ 53) by lia. vm_compute. reflexivity. }
  assert (Ha : 0 < Z.abs z < 2 ^ 53) by lia.
  pose proof (Z.log2_nonneg (Z.abs z)) as Hnn.
  pose proof (Z.log2_spec (Z.abs z) (proj1 Ha)) as [Hlo Hhi].
  assert (He : Z.log2 (Z.abs z) < 53) by (apply Z.log2_lt_pow2; lia).
  unfold binary64. cbn [Qnum Qden inject_Z]. cbv zeta.
  replace (Z.abs z =? 0) with false by (symmetry; apply Z.eqb_neq; lia).
  change (Z.log2 1) with 0. rewrite Z.sub_0_r.
  replace (0 <=? Z.log2 (Z.abs z)) with true by (symmetry; apply Z.leb_le; lia).
  replace (1 * 2 ^ Z.log2 (Z.abs z) <=? Z.abs z) with true
    by (symmetry; apply Z.leb_le; lia).
  replace (Z.max (Z.log2 (Z.abs z) - 52) (-1074)) with (Z.log2 (Z.abs z) - 52) by lia.
  apply Qred_int.
  destruct (0 <=? Z.log2 (Z.abs z) - 52) eqn:Ek.
  - apply Z.leb_le in Ek.
    replace (Z.log2 (Z.abs z) - 52) with 0 by lia.
    change (Z.to_pos (1 * 2 ^ 0)) with 1%positive. rewrite round_half_even_1.
    change (2 ^ 0) with 1. rewrite Z.mul_1_r.
    destruct (z <? 0) eqn:Es; unfold Qeq; cbn [Qnum Qden Qopp inject_Z]; lia.
  - apply Z.leb_gt in Ek. rewrite round_half_even_1.
    assert (Hp : 0 < 2 ^ (- (Z.log2 (Z.abs z) - 52))) by (apply Z.pow_pos_nonneg; lia).
    destruct (z <? 0) eqn:Es; unfold Qeq; cbn [Qnum Qden Qopp inject_Z];
      rewrite Z2Pos.id by assumption; lia.
Qed.

Lemma Qplus_int (a b : Z) : (inject_Z a + inject_Z b)%Q = inject_Z (a + b).
Proof. unfold Qplus, inject_Z. cbn [Qnum Qden Pos.mul]. f_equal. lia. Qed.

Lemma Qminus_int (a b : Z) : (inject_Z a - inject_Z b)%Q = inject_Z (a - b).
Proof. unfold Qminus, Qplus, Qopp, inject_Z. cbn [Qnum Qden Pos.mul]. f_equal. lia. Qed.

Lemma magnitude_cons (x : Z) (l : list Z) : magnitude (x :: l) = Z.abs x + magnitude l.
Proof. reflexivity. Qed.

Lemma magnitude_nonneg (l : list Z) : 0 <= magnitude l.
Proof. induction l as [|x l IH]; simpl; lia. Qed.

Lemma kahan_sum_cons (val : Q) (r : list Q) (sumx compensation : Q) :
  kahan_sum sumx compensation (val :: r) =
  kahan_sum (fadd sumx (fsub val compensation))
    (fsub (fsub (fadd sumx (fsub val compensation)) sumx) (fsub val compensation)) r.
Proof. reflexivity. Qed.

Lemma fsub_int (a b : Z) :
  Z.abs (a - b) <= 2 ^ 53 -> fsub (inject_Z a) (inject_Z b) = inject_Z (a - b).
Proof. intros H. unfold fsub. rewrite Qminus_int. now apply binary64_int. Qed.

Lemma fadd_int (a b : Z) :
  Z.abs (a + b) <= 2 ^ 53 -> fadd (inject_Z a) (inject_Z b) = inject_Z (a + b).
Proof. intros H. unfold fadd. rewrite Qplus_int. now apply binary64_int. Qed.

(** On whole numbers that stay below [2 ^ 53] the summation is exact. *)
Lemma kahan_sum_int (l : list Z) (s : Z) :
  Z.abs s + magnitude l <= 2 ^ 53 ->
  kahan_sum (inject_Z s) (inject_Z 0) (List.map inject_Z l) =
  inject_Z (s + fold_right Z.add 0 l).
Proof.
  revert s. induction l as [|v l IH]; intros s H.
  - cbn [List.map kahan_sum fold_right]. now rewrite Z.add_0_r.
  - assert (Hv : Z.abs s + Z.abs v + magnitude l <= 2 ^ 53).
    { rewrite magnitude_cons in H. lia. }
    pose proof (magnitude_nonneg l) as Hm.
    cbn [List.map]. rewrite kahan_sum_cons.
    rewrite (fsub_int v 0) by lia. rewrite Z.sub_0_r.
    rewrite (fadd_int s v) by lia.
    rewrite (fsub_int (s + v) s) by lia.
    replace (s + v - s) with v by lia.
    rewrite (fsub_int v v) by lia. rewrite Z.sub_diag.
    rewrite (IH (s + v)) by lia.
    cbn [fold_right]. f_equal. lia.
Qed.

Lemma present_ints (g : list Z) :
  magnitude g <= 2 ^ 53 -> present (List.map Int g) = List.map inject_Z g.
Proof.
  induction g as [|x g IH]; intros H; [reflexivity|].
  assert (Hx : Z.abs x + magnitude g <= 2 ^ 53) by now rewrite <- magnitude_cons.
  pose proof (magnitude_nonneg g) as Hm.
  cbn [List.map present float_value]. rewrite (binary64_int x) by lia.
  f_equal. apply IH. lia.
Qed.


Lemma magnitude_select (m : list bool) (l : list Z) :
  magnitude (select m l) <= magnitude l.
Proof.
  revert l. induction m as [|b m IH]; intros [|x l]; cbn [select];
    try apply magnitude_nonneg; try reflexivity.
  specialize (IH l). rewrite magnitude_cons.
  destruct b; [rewrite magnitude_cons|]; lia.
Qed.

Lemma mean_ints (g : list Z) :
  magnitude g <= 2 ^ 53 ->
  mean (List.map Int g) =
  match g with
  | [] => None
  | _ :: _ => Some (binary64 (arithmetic_mean g))
  end.
Proof.
  intros H. unfold mean. rewrite (present_ints g H).
  destruct g as [|x g]; [reflexivity|].
  cbn [List.map]. change (inject_Z x :: List.map inject_Z g)
    with (List.map inject_Z (x :: g)).
  pose proof (kahan_sum_int (x :: g) 0 H) as Hk.
  change (inject_Z 0) with 0%Q in Hk.
  unfold group_mean, fdiv, arithmetic_mean. rewrite Hk.
  now rewrite List.length_map, Z.add_0_l.
Qed.

(** X22: for a metric of whole numbers (an [int64] column whose magnitudes
    add up to at most [2 ^ 53]) every mean that the aggregation reports is the
    arithmetic mean of the metric over the rows of the department, rounded
    once to the nearest float: on such a column the summation is exact. *)
Theorem mean_of_whole_numbers (df : DataFrame) (metric : string) (n : nat)
        (ks : Series) (zs : list Z) (res : list (cell * option Q))
        (k : cell) (m : option Q) :
  lookup_column division_column (data df) = Some ks ->
  lookup_column metric (data df) = Some (Int64Series zs) ->
  magnitude zs <= 2 ^ 53 ->
  top_n_by_mean df metric n = Ok res ->
  In (k, m) res ->
  let g := select (List.map (cell_eq k) (values ks)) zs in
  m = match g with
      | [] => None
      | _ :: _ => Some (binary64 (arithmetic_mean g))
      end.
Proof.
  intros Hks Hs Hmag Hres Hin g. unfold top_n_by_mean, getitem in Hres.
  rewrite Hks in Hres. cbn [obind] in Hres. rewrite Hs in Hres.
  cbn [group_means obind values] in Hres. injection Hres as <-.
  apply firstn_In in Hin. unfold sort_values_desc in Hin. apply sort_by_In in Hin.
  unfold groupby_mean in Hin. apply List.in_map_iff in Hin.
  destruct Hin as [k' [E _]]. injection E as -> <-.
  unfold group_values. rewrite select_map. fold g.
  apply mean_ints. pose proof (magnitude_select (List.map (cell_eq k) (values ks)) zs).
  fold g in H. lia.
Qed.

Lemma mean_of_whole_numbers_witness :
  let g := select (List.map (cell_eq (Str "CUNDINAMARCA"))
                            [Str "CUNDINAMARCA"; Str "BOYACA"; Str "CUNDINAMARCA"])
                  [10; 7; 15] in
  Some (25 # 2)%Q = match g with
                    | [] => None
                    | _ :: _ => Some (binary64 (arithmetic_mean g))
                    end.
Proof.
  apply (mean_of_whole_numbers enrolled "matriculados" 10
           (ObjectSeries [Str "CUNDINAMARCA"; Str "BOYACA"; Str "CUNDINAMARCA"])
           [10; 7; 15]
           [(Str "CUNDINAMARCA", Some (25 # 2)%Q); (Str "BOYACA", Some (7 # 1)%Q)]
           (Str "CUNDINAMARCA") (Some (25 # 2)%Q)).
  - reflexivity.
  - reflexivity.
  - vm_compute. discriminate.
  - vm_compute. reflexivity.
  - simpl. auto.
Defined.

Lemma select_hit {A} (keys : list cell) (vals : list A) (k : cell) :
  In k keys -> cell_eq k k = true -> List.length keys = List.length vals ->
  select (List.map (cell_eq k) keys) vals <> [].
Proof.
  revert vals. induction keys as [|c keys IH]; intros [|v vals]; simpl;
    try tauto; try discriminate.
  intros Hin Hk Hlen. destruct (cell_eq k c) eqn:E; [discriminate|].
  destruct Hin as [->|Hin]; [congruence|]. apply IH; auto.
Qed.

Lemma object_mean_string (s : string) (r : list cell) :
  object_mean (Str s :: r) =
  Raise (TypeError "agg function failed [how->mean,dtype->object]").
Proof. reflexivity. Qed.

(** X16: after cleaning a fetched frame that has the department column,
    every column offered as a metric other than departamento and municipio
    can be aggregated (the year field and Año included).  Choosing
    departamento or municipio makes the aggregation raise TypeError as soon
    as the cleaned frame has a row; on a cleaned frame without rows there is
    no group to aggregate, and the result is empty. *)
Theorem cleaned_metrics_aggregate (raw t : DataFrame) (metric : string) :
  raw_frame raw ->
  clean raw = Ok t ->
  has_column division_column raw = true ->
  In metric (metrics t) ->
  if is_categorical metric
  then (len t = 0%nat -> deptos_avg t metric = Ok []) /\
       (len t <> 0%nat -> exists msg, deptos_avg t metric = Raise (TypeError msg))
  else exists res, deptos_avg t metric = Ok res.
Proof.
  intros [[Hnd Hlen] Hobj] Hclean Hdiv Hm.
  pose proof (clean_lengths raw t (conj Hnd Hlen) Hclean) as HlenT.
  destruct (clean_inv raw t Hnd Hclean) as [df [Hdf Ht]].
  pose proof (clean_columns _ _ _ Hdf Ht) as Hcols. clear Ht.
  set (m := complete_rows (len df) (data df)).
  assert (Hraw : forall col s, lookup_column col (data raw) = Some s ->
                               exists l, s = ObjectSeries l /\ Forall string_or_missing l).
  { intros col s Hs. apply lookup_column_In in Hs.
    destruct (proj1 (List.Forall_forall _ _) Hobj _ Hs) as [l [E Hl]]. eauto. }
  assert (Hcat : forall col, is_categorical col = true -> In col (columns t) ->
                 exists l, lookup_column col (data t) = Some (ObjectSeries l) /\
                           List.length l = len t /\
                           forall c, In c l -> exists s, c = Str s).
  { intros col Hc Hin.
    pose proof (proj2 (clean_lookup raw t df col Hnd Hclean Hdf)) as Hl.
    assert (Hne : col <> year_column) by (intros ->; discriminate).
    pose proof (derive_year_lookup _ _ _ Hdf Hne) as Hsame.
    destruct (lookup_column col (data raw)) as [s|] eqn:Es.
    - destruct (Hraw _ _ Es) as [l [-> Hstr]].
      rewrite Hsame in Hl. cbn [option_map] in Hl.
      unfold coerce_series in Hl. rewrite Hc in Hl. cbn [select_series] in Hl.
      exists (select m l). split; [exact Hl|]. split.
      + apply lookup_column_In in Hl.
        exact (proj1 (List.Forall_forall _ _) HlenT _ Hl).
      + intros c Hin'.
        assert (Hna : notna c = true).
        { apply (complete_rows_notna (len df) (data df) col (ObjectSeries l)).
          - now apply lookup_column_In.
          - exact Hin'. }
        apply select_In in Hin'.
        pose proof (proj1 (List.Forall_forall _ _) Hstr _ Hin') as Hc'.
        destruct c; try contradiction; [discriminate|eauto].
    - rewrite Hsame in Hl. cbn [option_map] in Hl.
      apply lookup_column_None in Hl. contradiction. }
  assert (Hd : In division_column (columns t)).
  { rewrite Hcols, (derive_year_columns _ _ Hdf).
    apply has_column_In in Hdiv.
    destruct (has_column year_field raw && negb (has_column year_column raw));
      [apply in_or_app; now left|assumption]. }
  destruct (Hcat division_column eq_refl Hd) as [kl [Hkl [Hklen Hkstr]]].
  unfold deptos_avg, top_n_by_mean, getitem. rewrite Hkl. cbn [obind values].
  destruct (is_categorical metric) eqn:Ec.
  - destruct (Hcat metric Ec Hm) as [l [-> [Hllen Hlstr]]].
    cbn [group_means]. split.
    + intros H0. rewrite H0 in Hklen. destruct kl; [reflexivity|discriminate].
    + intros Hrows. destruct kl as [|k kl']; [now elim Hrows|].
      destruct (Hkstr k (or_introl eq_refl)) as [sk Hsk].
      destruct (group_labels_complete (k :: kl') k (or_introl eq_refl)) as [k0 [Hk0 _]];
        [now subst k|].
      destruct (group_labels (k :: kl')) as [|k1 rest] eqn:Eg; [destruct Hk0|].
      assert (Hk1 : In k1 (k :: kl') /\ isna k1 = false).
      { apply group_labels_In. rewrite Eg. now left. }
      destruct Hk1 as [Hk1 Hna1].
      pose proof (select_hit (k :: kl') l k1 Hk1 (cell_eq_refl _ Hna1)) as Hhit.
      cbn [omap]. unfold group_values at 1.
      destruct (select (List.map (cell_eq k1) (k :: kl')) l) as [|c r] eqn:Es.
      { exfalso. apply Hhit; [congruence|reflexivity]. }
      destruct (Hlstr c) as [sc ->].
      { apply (select_In (List.map (cell_eq k1) (k :: kl'))). rewrite Es. now left. }
      rewrite object_mean_string. cbn [obind]. eauto.
  - pose proof (proj2 (clean_lookup raw t df metric Hnd Hclean Hdf)) as Hl.
    destruct (lookup_column metric (data df)) as [s|] eqn:Es.
    + cbn [option_map] in Hl. unfold coerce_series in Hl. rewrite Ec in Hl.
      rewrite Hl. pose proof (to_numeric_numeric (select_series m s)) as Hn.
      fold m. destruct (to_numeric (select_series m s)); destruct Hn as [Hn|Hn];
        try discriminate; cbn [group_means obind]; eauto.
    + cbn [option_map] in Hl. apply lookup_column_None in Hl. contradiction.
Qed.

Lemma cleaned_metrics_aggregate_witness :
  (len empty_year_clean = 0%nat ->
     deptos_avg empty_year_clean "departamento" = Ok []) /\
  (len empty_year_clean <> 0%nat ->
     exists msg, deptos_avg empty_year_clean "departamento" = Raise (TypeError msg)).
Proof.
  apply (cleaned_metrics_aggregate (DataFrame_of_records empty_year_rows)
           empty_year_clean "departamento").
  - apply DataFrame_of_records_raw_frame.
  - vm_compute. reflexivity.
  - reflexivity.
  - simpl. auto.
Defined.

(** On the sample, which has rows, the rate can be aggregated and the
    department cannot. *)
Example metrics_of_sample :
  deptos_avg sample_clean "tasa" = Ok [(Str "CUNDINAMARCA", Some (25 # 2)%Q)] /\
  deptos_avg sample_clean "departamento" =
    Raise (TypeError "agg function failed [how->mean,dtype->object]").
Proof. split; vm_compute; reflexivity. Qed.

(** ** The markers of the map *)

Lemma zip_cons_length (a : list cell) (b : list (list cell)) :
  List.length a = List.length b -> List.length (zip_cons a b) = List.length a.
Proof.
  revert b. induction a as [|x a IH]; intros [|r b] H; simpl in *;
    try reflexivity; try discriminate.
  f_equal. apply IH. lia.
Qed.

Lemma cell_rows_length (n : nat) (cs : list (string * Series)) :
  Forall (fun p => List.length (values (snd p)) = n) cs ->
  List.length (cell_rows n cs) = n.
Proof.
  induction cs as [|[c s] cs IH]; intros H; simpl.
  - apply List.repeat_length.
  - pose proof (List.Forall_inv H) as Hs. cbn [snd] in Hs.
    specialize (IH (List.Forall_inv_tail H)).
    rewrite zip_cons_length; lia.
Qed.

Lemma cell_rows_width (n : nat) (cs : list (string * Series)) (r : list cell) :
  In r (cell_rows n cs) -> List.length r = List.length cs.
Proof.
  revert r. induction cs as [|[c s] cs IH]; intros r; simpl.
  - intros H. apply List.repeat_spec in H. now subst.
  - generalize (values s). generalize dependent (cell_rows n cs).
    intros b Hb a. revert b Hb. induction a as [|x a IHa]; intros [|y b] Hb;
      simpl; try tauto.
    intros [<-|H].
    + simpl. f_equal. apply Hb. now left.
    + apply (IHa b); [|assumption]. intros r' Hr'. apply Hb. now right.
Qed.

Lemma map_zip_cons {B} (F : list cell -> B) (a : list cell) (b : list (list cell)) :
  List.map F (zip_cons a b) =
  List.map (fun p => F (fst p :: snd p)) (combine a b).
Proof.
  revert b. induction a as [|x a IH]; intros [|r b]; simpl; try reflexivity.
  now rewrite IH.
Qed.

Lemma map_combine_fst {A B C} (g : A -> C) (a : list A) (b : list B) :
  List.length a = List.length b ->
  List.map (fun p => g (fst p)) (combine a b) = List.map g a.
Proof.
  revert b. induction a as [|x a IH]; intros [|y b] H; simpl in *;
    try reflexivity; try discriminate.
  f_equal. apply IH. lia.
Qed.

Lemma map_combine_snd {A B C} (g : B -> C) (a : list A) (b : list B) :
  List.length a = List.length b ->
  List.map (fun p => g (snd p)) (combine a b) = List.map g b.
Proof.
  revert b. induction a as [|x a IH]; intros [|y b] H; simpl in *;
    try reflexivity; try discriminate.
  f_equal. apply IH. lia.
Qed.

(** Reading a column label in every row gives the column. *)
Lemma rows_get (f : cell -> cell) (n : nat) (cs : list (string * Series))
      (col : string) (s : Series) :
  Forall (fun p => List.length (values (snd p)) = n) cs ->
  lookup_column col cs = Some s ->
  List.map (fun r => row_get (combine (List.map fst cs) (List.map f r)) col)
           (cell_rows n cs) =
  List.map (fun c => Ok (f c)) (values s).
Proof.
  induction cs as [|[c s0] cs IH]; intros Hlen Hs; [discriminate|].
  pose proof (List.Forall_inv Hlen) as Hs0. cbn [snd] in Hs0.
  pose proof (List.Forall_inv_tail Hlen) as Hlen'.
  pose proof (cell_rows_length n cs Hlen') as Hrows.
  cbn [cell_rows List.map fst lookup_column] in *.
  rewrite map_zip_cons. cbn [fst snd List.map combine row_get].
  destruct (String.eqb col c) eqn:E.
  - injection Hs as <-.
    apply (map_combine_fst (fun x => Ok (f x))). lia.
  - rewrite <- (IH Hlen' Hs).
    apply (map_combine_snd
             (fun r => row_get (combine (List.map fst cs) (List.map f r)) col)). lia.
Qed.

Lemma row_get_notin (row : list (string * cell)) (key : string) :
  ~ In key (List.map fst row) -> row_get row key = Raise (KeyError key).
Proof.
  induction row as [|[k v] row IH]; simpl; [reflexivity|]. intros H.
  destruct (String.eqb key k) eqn:E.
  - apply String.eqb_eq in E. exfalso. auto.
  - apply IH. tauto.
Qed.

Lemma row_get_in (row : list (string * cell)) (key : string) :
  In key (List.map fst row) -> exists v, row_get row key = Ok v.
Proof.
  induction row as [|[k v] row IH]; simpl; [tauto|]. intros H.
  destruct (String.eqb key k) eqn:E; [eauto|].
  apply IH. destruct H as [H|H]; [|assumption].
  apply String.eqb_neq in E. congruence.
Qed.

Lemma map_fst_combine {A B} (a : list A) (b : list B) :
  List.length a = List.length b -> List.map fst (combine a b) = a.
Proof.
  intros H. rewrite <- (List.map_id a) at 2.
  exact (map_combine_fst (fun x => x) a b H).
Qed.

Lemma add_markers_all (CircleMarker : cell -> cell -> outcome unit)
      (rws : list (nat * list (string * cell))) (lats lons : list cell) :
  List.map (fun p => row_get (snd p) "lat") rws = List.map Ok lats ->
  List.map (fun p => row_get (snd p) "lon") rws = List.map Ok lons ->
  (forall a b, In (a, b) (combine lats lons) -> CircleMarker a b = Ok tt) ->
  add_markers CircleMarker rws = Ok (combine lats lons).
Proof.
  revert lats lons. induction rws as [|[i row] rws IH]; intros [|a lats] [|b lons];
    simpl; try discriminate; try reflexivity.
  intros Hlat Hlon HC. injection Hlat as Ha Hlat. injection Hlon as Hb Hlon.
  rewrite Ha, Hb. cbn [obind]. rewrite (HC a b) by now left. cbn [obind].
  rewrite (IH lats lons Hlat Hlon); [reflexivity|].
  intros x y Hxy. apply HC. now right.
Qed.

(** X17: on a frame whose columns have one length and which has the
    columns lat and lon, the map step places one marker per row, in row
    order, at the latitude and longitude of the row, provided the map library
    accepts each of these locations. *)
Theorem map_markers_follow_rows
        (CircleMarker : cell -> cell -> outcome unit) (df : DataFrame)
        (slat slon : Series) :
  Forall (fun p => List.length (values (snd p)) = len df) (data df) ->
  lookup_column "lat" (data df) = Some slat ->
  lookup_column "lon" (data df) = Some slon ->
  (forall a b,
     In (a, b) (combine (List.map (upcast (common_dtype (data df))) (values slat))
                        (List.map (upcast (common_dtype (data df))) (values slon))) ->
     CircleMarker a b = Ok tt) ->
  map_markers CircleMarker df =
    Ok (combine (List.map (upcast (common_dtype (data df))) (values slat))
                (List.map (upcast (common_dtype (data df))) (values slon))) /\
  List.length (combine (List.map (upcast (common_dtype (data df))) (values slat))
                       (List.map (upcast (common_dtype (data df))) (values slon)))
    = len df.
Proof.
  intros Hlen Hlat Hlon HC. split.
  - unfold map_markers, iterrows. apply add_markers_all; [| |exact HC].
    + rewrite (map_combine_snd (fun row => row_get row "lat")).
      * rewrite List.map_map. unfold columns.
        rewrite (rows_get _ _ _ _ _ Hlen Hlat). now rewrite List.map_map.
      * rewrite List.length_map. symmetry. now apply cell_rows_length.
    + rewrite (map_combine_snd (fun row => row_get row "lon")).
      * rewrite List.map_map. unfold columns.
        rewrite (rows_get _ _ _ _ _ Hlen Hlon). now rewrite List.map_map.
      * rewrite List.length_map. symmetry. now apply cell_rows_length.
  - rewrite List.length_combine, !List.length_map.
    apply lookup_column_In in Hlat, Hlon.
    pose proof (proj1 (List.Forall_forall _ _) Hlen _ Hlat) as Ha.
    pose proof (proj1 (List.Forall_forall _ _) Hlen _ Hlon) as Hb.
    cbn [snd] in Ha, Hb. rewrite Ha, Hb. apply Nat.min_id.
Qed.

Lemma map_markers_follow_rows_witness :
  map_markers numbers_only located =
    Ok (combine (List.map (upcast (common_dtype (data located)))
                          [Float (9 # 2); Float (11 # 2)])
                (List.map (upcast (common_dtype (data located)))
                          [Float (- 297 # 4); Float (- 147 # 2)])) /\
  List.length (combine (List.map (upcast (common_dtype (data located)))
                                 [Float (9 # 2); Float (11 # 2)])
                       (List.map (upcast (common_dtype (data located)))
                                 [Float (- 297 # 4); Float (- 147 # 2)]))
    = len located.
Proof.
  apply (map_markers_follow_rows numbers_only located
           (Float64Series [Some (9 # 2)%Q; Some (11 # 2)%Q])
           (Float64Series [Some (- 297 # 4)%Q; Some (- 147 # 2)%Q])).
  - vm_compute. repeat constructor.
  - reflexivity.
  - reflexivity.
  - simpl. intros a b [[= <- <-]|[[= <- <-]|[]]]; reflexivity.
Defined.

(** X18: the map step does not test for the coordinate columns: on a
    frame with rows that lacks lat, or has lat and lacks lon, it raises
    KeyError at the first row, before any marker is built; on a frame without
    rows it adds nothing and does not raise, whatever the columns. *)
Theorem map_markers_need_coordinates
        (CircleMarker : cell -> cell -> outcome unit) (df : DataFrame) :
  Forall (fun p => List.length (values (snd p)) = len df) (data df) ->
  (len df = 0%nat -> map_markers CircleMarker df = Ok []) /\
  (len df <> 0%nat -> has_column "lat" df = false ->
     map_markers CircleMarker df = Raise (KeyError "lat")) /\
  (len df <> 0%nat -> has_column "lat" df = true -> has_column "lon" df = false ->
     map_markers CircleMarker df = Raise (KeyError "lon")).
Proof.
  intros Hlen. unfold map_markers, iterrows.
  pose proof (cell_rows_length (len df) (data df) Hlen) as Hrows.
  assert (Hkeys : forall r, In r (cell_rows (len df) (data df)) ->
    List.map fst (combine (columns df)
                          (List.map (upcast (common_dtype (data df))) r)) = columns df).
  { intros r Hr. apply map_fst_combine. rewrite List.length_map.
    unfold columns. rewrite List.length_map. symmetry.
    eapply cell_rows_width; eassumption. }
  unfold len in *. destruct (index df) as [|i idx].
  - split; [reflexivity|]. split; intros H; now elim H.
  - destruct (cell_rows (List.length (i :: idx)) (data df)) as [|r rs];
      [discriminate|].
    specialize (Hkeys r (or_introl eq_refl)).
    split; [discriminate|]. cbn [List.map combine add_markers]. split.
    + intros _ Hlat. rewrite row_get_notin; [reflexivity|].
      rewrite Hkeys. intros Hin. apply has_column_In in Hin. congruence.
    + intros _ Hlat Hlon.
      destruct (row_get_in (combine (columns df)
                  (List.map (upcast (common_dtype (data df))) r)) "lat") as [v ->].
      { rewrite Hkeys. now apply has_column_In. }
      cbn [obind]. rewrite row_get_notin; [reflexivity|].
      rewrite Hkeys. intros Hin. apply has_column_In in Hin. congruence.
Qed.

Lemma map_markers_need_coordinates_witness :
  (len sample_clean = 0%nat -> map_markers numbers_only sample_clean = Ok []) /\
  (len sample_clean <> 0%nat -> has_column "lat" sample_clean = false ->
     map_markers numbers_only sample_clean = Raise (KeyError "lat")) /\
  (len sample_clean <> 0%nat -> has_column "lat" sample_clean = true ->
     has_column "lon" sample_clean = false ->
     map_markers numbers_only sample_clean = Raise (KeyError "lon")).
Proof.
  apply (map_markers_need_coordinates numbers_only sample_clean).
  vm_compute. repeat constructor.
Defined.

(** ** Which records survive cleaning *)

Lemma map_combine_maps {A B C D} (h : B * C -> D) (f : A -> B) (g : A -> C)
      (l : list A) :
  List.map h (combine (List.map f l) (List.map g l)) =
  List.map (fun x => h (f x, g x)) l.
Proof. induction l as [|x l IH]; simpl; [reflexivity|now rewrite IH]. Qed.

Lemma repeat_map_const {A B} (b : B) (l : list A) :
  repeat b (List.length l) = List.map (fun _ => b) l.
Proof. induction l as [|x l IH]; simpl; [reflexivity|now rewrite IH]. Qed.

(** The row mask of [dropna], read row by row, when every column is given
    by a function of the rows. *)
Lemma complete_rows_pointwise {R} (rws : list R) (gs : list (R -> cell))
      (cs : list (string * Series)) :
  Forall2 (fun p g => values (snd p) = List.map g rws) cs gs ->
  complete_rows (List.length rws) cs =
  List.map (fun row => forallb (fun g => notna (g row)) gs) rws.
Proof.
  induction 1 as [|[c s] g cs gs Hs _ IH]; cbn [complete_rows forallb].
  - apply repeat_map_const.
  - cbn [snd] in Hs. rewrite Hs, IH.
    apply (map_combine_maps (fun p => notna (fst p) && snd p)).
Qed.

Lemma select_map_indexed {A B} (f : A -> bool) (a : list A) (b : list B) :
  select (List.map f a) b =
  List.map fst (List.filter (fun p => f (snd p)) (combine b a)).
Proof.
  revert b. induction a as [|x a IH]; intros [|y b]; simpl; try reflexivity.
  rewrite IH. now destruct (f x).
Qed.

Lemma Forall2_map_outcome {R A B C} (f : A -> outcome B) (c : R -> A) (h : B -> C)
      (d : C) (rws : list R) (ys : list B) :
  Forall2 (fun x y => f x = Ok y) (List.map c rws) ys ->
  List.map h ys =
  List.map (fun r => match f (c r) with Ok y => h y | Raise _ => d end) rws.
Proof.
  revert ys. induction rws as [|r rws IH]; intros ys H; inversion H; subst; simpl.
  - reflexivity.
  - match goal with E : f (c r) = Ok _ |- _ => rewrite E end.
    f_equal. now apply IH.
Qed.

Lemma records_columns_pointwise (rows : list (list (string * string)))
      (keys : list string) :
  Forall2 (fun p g => values (snd p) = List.map g rows)
    (List.map (fun k =>
       (k, ObjectSeries (List.map (fun row =>
              match assoc k row with Some v => Str v | None => NaN end) rows))) keys)
    (List.map record_cell keys).
Proof. induction keys as [|k keys IH]; simpl; constructor; auto. Qed.

Lemma forallb_record_cells (keys : list string) (row : list (string * string)) :
  forallb (fun g => notna (g row)) (List.map record_cell keys) =
  forallb (fun k => match assoc k row with Some _ => true | None => false end) keys.
Proof.
  induction keys as [|k keys IH]; simpl; [reflexivity|]. rewrite IH.
  unfold record_cell. now destruct (assoc k row).
Qed.

Lemma assoc_In (k : string) (row : list (string * string)) (v : string) :
  assoc k row = Some v -> In (k, v) row.
Proof.
  induction row as [|[k' v'] row IH]; simpl; [discriminate|].
  destruct (String.eqb k k') eqn:E.
  - apply String.eqb_eq in E. intros [= ->]. left. now subst.
  - auto.
Qed.

Lemma strptime_str_missing (s : string) (y : option Z) :
  strptime_str s = Ok y ->
  notna (datetime_cell y) = negb (missing_spelling s).
Proof.
  unfold strptime_str. fold (missing_spelling s).
  destruct (missing_spelling s); [now intros [= <-]|].
  destruct (parse_year s) as [n|]; [|discriminate].
  unfold timestamp_of_year. destruct (year_in_bounds n); [|discriminate].
  now intros [= <-].
Qed.

(** X19: of the records of a data set without a field named Año,
    cleaning keeps, in order and under their positions, exactly those that
    have every field occurring in some record and whose year, if the data set
    has the year field, is not a spelling of the missing value: a record
    lacking any field, or with an empty year, is dropped. *)
Theorem clean_keeps_complete_records
        (rows : list (list (string * string))) (t : DataFrame) :
  ~ In year_column (record_keys rows) ->
  clean (DataFrame_of_records rows) = Ok t ->
  index t =
  List.map fst
    (List.filter (fun p => kept_record (record_keys rows) (snd p))
                 (combine (seq 0 (List.length rows)) rows)).
Proof.
  intros Hyear Hclean.
  pose proof (proj1 (proj1 (DataFrame_of_records_raw_frame rows))) as Hnd.
  destruct (clean_inv _ t Hnd Hclean) as [df [Hdf _]].
  rewrite (proj1 (clean_lookup _ t df year_field Hnd Hclean Hdf)).
  rewrite (derive_year_index _ _ Hdf). cbn [DataFrame_of_records index].
  assert (Hlen : len df = List.length rows).
  { unfold len. rewrite (derive_year_index _ _ Hdf). cbn [index].
    apply List.length_seq. }
  rewrite Hlen, <- select_map_indexed. f_equal.
  destruct (has_column year_field (DataFrame_of_records rows)) eqn:Hhas.
  - assert (Hin : In year_field (record_keys rows)).
    { rewrite <- columns_of_records. now apply has_column_In. }
    assert (Hlk : lookup_column year_field (data (DataFrame_of_records rows)) =
                  Some (ObjectSeries (List.map (record_cell year_field) rows))).
    { exact (lookup_column_built
        (fun k => ObjectSeries (List.map (fun row =>
           match assoc k row with Some v => Str v | None => NaN end) rows))
        _ _ Hin). }
    rewrite (derive_year_present _ _ Hlk) in Hdf. cbn [to_datetime] in Hdf.
    destruct (omap strptime_cell _) as [ts|e] eqn:Hts; [|discriminate].
    cbn [obind] in Hdf. injection Hdf as <-.
    apply omap_Forall2 in Hts.
    pose proof (Forall2_map_outcome strptime_cell (record_cell year_field)
                  datetime_cell NaN rows ts Hts) as Hvals.
    cbn [setitem data DataFrame_of_records].
    rewrite assign_column_new.
    2:{ rewrite List.map_map. cbn [fst]. now rewrite List.map_id. }
    rewrite (complete_rows_pointwise rows
      (List.map record_cell (record_keys rows) ++
       [fun r => match strptime_cell (record_cell year_field r) with
                 | Ok y => datetime_cell y
                 | Raise _ => NaN
                 end])).
    2:{ apply Forall2_app; [apply records_columns_pointwise|].
        constructor; [exact Hvals|constructor]. }
    apply List.map_ext_in. intros row Hrow.
    rewrite forallb_app, forallb_record_cells. unfold kept_record.
    destruct (forallb _ (record_keys rows)) eqn:Hall; [|reflexivity].
    cbn [andb forallb]. rewrite andb_true_r.
    pose proof (proj1 (forallb_forall _ _) Hall _ Hin) as Hy.
    cbn beta in Hy. unfold record_cell.
    destruct (assoc year_field row) as [y|] eqn:E; [|discriminate].
    cbn [strptime_cell].
    assert (Hok : exists o, strptime_str y = Ok o).
    { apply (Forall2_In_l _ _ _ (Str y) Hts).
      apply List.in_map_iff. exists row. split; [|assumption].
      unfold record_cell. now rewrite E. }
    destruct Hok as [o Ho]. rewrite Ho. now apply strptime_str_missing.
  - rewrite (derive_year_absent _ Hhas) in Hdf. injection Hdf as <-.
    cbn [DataFrame_of_records data].
    rewrite (complete_rows_pointwise rows (List.map record_cell (record_keys rows)))
      by apply records_columns_pointwise.
    apply List.map_ext_in. intros row Hrow.
    rewrite forallb_record_cells. unfold kept_record.
    destruct (assoc year_field row) as [y|] eqn:E; [|now rewrite andb_true_r].
    exfalso. apply assoc_In in E.
    assert (Hin : In year_field (record_keys rows)) by (apply record_keys_In; eauto).
    rewrite <- columns_of_records in Hin. apply has_column_In in Hin. congruence.
Qed.

Lemma clean_keeps_complete_records_witness :
  index ragged_clean =
  List.map fst
    (List.filter (fun p => kept_record (record_keys ragged_rows) (snd p))
                 (combine (seq 0 (List.length ragged_rows)) ragged_rows)).
Proof.
  apply (clean_keeps_complete_records ragged_rows ragged_clean).
  - vm_compute. intros [H|[H|[H|[]]]]; discriminate.
  - vm_compute. reflexivity.
Defined.

(** ** Loading and cleaning in one run of the page *)

Lemma load_step_run (requests_get : string -> outcome Response) (st : app_state)
      (r : Response) (rows : list (list (string * string))) :
  requests_get (api_url 50000) = Ok r ->
  ~ 400 <= status_code r < 600 ->
  json r = Ok (Records rows) ->
  has_field rows ->
  load_step requests_get true st =
  (Ok tt, mkState (<[fresh (dom (heap st)) := DataFrame_of_records rows]> (heap st))
                  (<["df" := fresh (dom (heap st))]> (session_state st))
                  (page st ++ [loaded_message (DataFrame_of_records rows)])).
Proof.
  intros Hr Hst Hj Hrows. unfold load_step, load_data_from_api.
  rewrite (fetch_records _ _ _ _ Hr Hst Hj). unfold bind at 1, ret.
  rewrite (proj2 (empty_of_records rows) Hrows). cbn [negb].
  reflexivity.
Qed.

Lemma fresh_not_stored (h : gmap nat DataFrame) : h !! fresh (dom h) = None.
Proof. apply not_elem_of_dom. apply is_fresh. Qed.

(** X20: in a run of the page in which the button is clicked, the fetch
    succeeds and the fetched records clean without an exception, the session
    ends with two new objects: under 'df' the fetched frame, and under
    'df_clean' the cleaned frame of the fetched records; every frame stored
    before is left as it was, and the page shows the load message followed by
    the cleaning message. *)
Theorem load_then_clean_run
        (requests_get : string -> outcome Response) (st : app_state)
        (r : Response) (rows : list (list (string * string))) (t : DataFrame) :
  requests_get (api_url 50000) = Ok r ->
  ~ 400 <= status_code r < 600 ->
  json r = Ok (Records rows) ->
  has_field rows ->
  clean (DataFrame_of_records rows) = Ok t ->
  exists st' o o',
    bind (load_step requests_get true) (fun _ => clean_step) st = (Ok tt, st') /\
    o <> o' /\ heap st !! o = None /\ heap st !! o' = None /\
    session_state st' !! "df" = Some o /\
    session_state st' !! "df_clean" = Some o' /\
    heap st' !! o' = Some t /\
    (forall p, p <> o -> p <> o' -> heap st' !! p = heap st !! p) /\
    page st' = page st ++ [loaded_message (DataFrame_of_records rows);
                           cleaned_message t].
Proof.
  intros Hr Hst Hj Hrows Hclean. unfold clean in Hclean.
  destruct (derive_year (DataFrame_of_records rows)) as [df|e] eqn:Hdf; [|discriminate].
  cbn [obind] in Hclean.
  unfold bind. rewrite (load_step_run _ st _ _ Hr Hst Hj Hrows).
  set (o := fresh (dom (heap st))).
  set (st1 := mkState _ _ _).
  assert (Hs1 : session_state st1 !! "df" = Some o) by apply lookup_insert_eq.
  assert (Hh1 : heap st1 !! o = Some (DataFrame_of_records rows))
    by apply lookup_insert_eq.
  pose proof (clean_step_run st1 o _ df t Hs1 Hh1 Hdf Hclean) as Hrun.
  cbv zeta in Hrun. rewrite Hrun. clear Hrun.
  set (h := <[o := df]> (heap st1)). set (o' := fresh (dom h)).
  assert (Ho : heap st !! o = None) by apply fresh_not_stored.
  assert (Ho' : h !! o' = None) by apply fresh_not_stored.
  assert (Hne : o <> o').
  { intros E. rewrite <- E in Ho'. unfold h in Ho'.
    rewrite lookup_insert_eq in Ho'. discriminate. }
  eexists. exists o, o'. split; [reflexivity|]. cbn [heap session_state page].
  split; [exact Hne|]. split; [exact Ho|]. split.
  { unfold h, st1 in Ho'. cbn [heap] in Ho'.
    rewrite !lookup_insert_ne in Ho' by exact Hne. exact Ho'. }
  split.
  { rewrite lookup_insert_ne by discriminate. exact Hs1. }
  split; [apply lookup_insert_eq|]. split; [apply lookup_insert_eq|]. split.
  - intros p Hp Hp'. unfold h, st1. cbn [heap].
    rewrite !lookup_insert_ne by congruence. reflexivity.
  - unfold st1. cbn [page]. now rewrite <- List.app_assoc.
Qed.

Lemma load_then_clean_run_witness :
  exists st' o o',
    bind (load_step sample_get true) (fun _ => clean_step) cleaned_session = (Ok tt, st') /\
    o <> o' /\ heap cleaned_session !! o = None /\ heap cleaned_session !! o' = None /\
    session_state st' !! "df" = Some o /\
    session_state st' !! "df_clean" = Some o' /\
    heap st' !! o' = Some sample_clean /\
    (forall p, p <> o -> p <> o' -> heap st' !! p = heap cleaned_session !! p) /\
    page st' = page cleaned_session ++
               [loaded_message (DataFrame_of_records sample_rows);
                cleaned_message sample_clean].
Proof.
  apply (load_then_clean_run sample_get cleaned_session
           (mkResponse 200 "OK" (Ok (Records sample_rows))) sample_rows sample_clean).
  - reflexivity.
  - simpl. lia.
  - reflexivity.
  - exists [("a_o", "2019"); ("departamento", "CUNDINAMARCA"); ("tasa", "12.5")],
      "a_o", "2019". simpl. auto.
  - exact clean_sample.
Defined.

(** X21: in a run in which the button is clicked and the fetch succeeds
    but the year derivation raises on the fetched records, the run stops with
    that exception after the load step: the fetched frame is stored under
    'df' unchanged and the load message is shown, while 'df_clean' still
    refers to whatever it referred to before, so the session holds raw and
    cleaned frames of two different fetches. *)
Theorem load_then_clean_stops
        (requests_get : string -> outcome Response) (st : app_state)
        (r : Response) (rows : list (list (string * string))) (e : exception) :
  requests_get (api_url 50000) = Ok r ->
  ~ 400 <= status_code r < 600 ->
  json r = Ok (Records rows) ->
  has_field rows ->
  clean (DataFrame_of_records rows) = Raise e ->
  exists st' o,
    bind (load_step requests_get true) (fun _ => clean_step) st = (Raise e, st') /\
    heap st !! o = None /\
    session_state st' !! "df" = Some o /\
    heap st' !! o = Some (DataFrame_of_records rows) /\
    session_state st' !! "df_clean" = session_state st !! "df_clean" /\
    (forall p, p <> o -> heap st' !! p = heap st !! p) /\
    page st' = page st ++ [loaded_message (DataFrame_of_records rows)].
Proof.
  intros Hr Hst Hj Hrows Hclean.
  assert (Hdf : derive_year (DataFrame_of_records rows) = Raise e).
  { unfold clean in Hclean.
    destruct (derive_year (DataFrame_of_records rows)) as [df|e0] eqn:Hdf.
    - cbn [obind] in Hclean.
      destruct (coerce_loop_total (columns (dropna df)) (dropna df) (fun c H => H))
        as [t Ht].
      congruence.
    - cbn [obind] in Hclean. congruence. }
  unfold bind. rewrite (load_step_run _ st _ _ Hr Hst Hj Hrows).
  set (o := fresh (dom (heap st))).
  set (st1 := mkState _ _ _).
  assert (Hs1 : session_state st1 !! "df" = Some o) by apply lookup_insert_eq.
  assert (Hh1 : heap st1 !! o = Some (DataFrame_of_records rows))
    by apply lookup_insert_eq.
  rewrite (clean_step_raises st1 o _ e Hs1 Hh1 Hdf).
  exists st1, o. split; [reflexivity|].
  split; [apply fresh_not_stored|]. split; [exact Hs1|]. split; [exact Hh1|].
  unfold st1. cbn [heap session_state page]. split.
  - now apply lookup_insert_ne.
  - split; [|reflexivity]. intros p Hp. apply lookup_insert_ne. congruence.
Qed.

Lemma load_then_clean_stops_witness :
  exists st' o,
    bind (load_step bad_year_get true) (fun _ => clean_step) cleaned_session =
      (Raise (ValueError "time data doesn't match format %Y"), st') /\
    heap cleaned_session !! o = None /\
    session_state st' !! "df" = Some o /\
    heap st' !! o = Some (DataFrame_of_records bad_year_rows) /\
    session_state st' !! "df_clean" = session_state cleaned_session !! "df_clean" /\
    (forall p, p <> o -> heap st' !! p = heap cleaned_session !! p) /\
    page st' = page cleaned_session ++
               [loaded_message (DataFrame_of_records bad_year_rows)].
Proof.
  apply (load_then_clean_stops bad_year_get cleaned_session
           (mkResponse 200 "OK" (Ok (Records bad_year_rows))) bad_year_rows).
  - reflexivity.
  - simpl. lia.
  - reflexivity.
  - exists [("a_o", "2019"); ("departamento", "CUNDINAMARCA"); ("tasa", "12.5")],
      "a_o", "2019". simpl. auto.
  - vm_compute. reflexivity.
Defined.
